(** * DataTypeWithDictionary: the dictionary-encoded column codec

    A shallow embedding of dbms/src/DataTypes/DataTypeWithDictionary.cpp:
    the keys-stream version word, the per-block index-type header, the
    overflow renumbering [mapIndexWithOverflow] and the serialization and
    deserialization state machines, followed by the properties the
    specification states about them.

    Conventions.  [size_t] and [UInt64] values are [Z] with the wrap-around
    written out ([mod 2 ^ 64]); a stream is a list of bytes; a C++ exception
    is the [Throw] case of [result]; a pointer that may be null is an
    [option]. *)

From Stdlib Require Import ZArith List Lia Bool.
From coqutil Require Import Byte Word.LittleEndianList.
From stdpp Require Import base numbers list option gmap.

Local Open Scope Z_scope.

(** ** Exceptions *)

(** [ErrorCodes] used by the file, and the two ways a call can leave the
    defined behaviour of the codec in code that lives outside it: a read
    past the end of a buffer (IO/ReadHelpers.h) and the use of a null
    pointer or of a position outside a column. *)
Inductive ErrorCode : Set :=
  | NUMBER_OF_ARGUMENTS_DOESNT_MATCH
  | LOGICAL_ERROR
  | ILLEGAL_TYPE_OF_ARGUMENT
  | CANNOT_READ_ALL_DATA
  | NULL_POINTER_DEREFERENCE
  | POSITION_OUT_OF_BOUND.

Inductive result (A : Type) : Type :=
  | Ok (a : A)
  | Throw (e : ErrorCode).
Arguments Ok {A} a.
Arguments Throw {A} e.

#[global] Instance result_ret : MRet result := λ A a, Ok a.
#[global] Instance result_bind : MBind result := λ A B f m,
  match m with
  | Ok a => f a
  | Throw e => Throw e
  end.

(** ** Buffers (IO/WriteBuffer.h, IO/ReadBuffer.h, IO/ReadHelpers.h) *)

Definition WriteBuffer : Type := list byte.
Definition ReadBuffer : Type := list byte.

Definition UInt64_modulus : Z := 2 ^ 64.

(** Modelled from the spec: [writeIntBinary(x, buf)] of IO/WriteHelpers.h for
    a [UInt64], "a little-endian 64-bit word". *)
Definition writeIntBinary (x : Z) (buf : WriteBuffer) : WriteBuffer :=
  buf ++ le_split 8 x.

(** Modelled from the spec: [readIntBinary(x, buf)] of IO/ReadHelpers.h for a
    [UInt64], eight bytes, little-endian; a buffer that holds fewer is an
    exception of the buffer, not of the codec. *)
Definition readIntBinary (buf : ReadBuffer) : result (Z * ReadBuffer) :=
  if decide (length buf < 8)%nat
  then Throw CANNOT_READ_ALL_DATA
  else Ok (le_combine (take 8 buf), drop 8 buf).

Definition eof (buf : ReadBuffer) : bool :=
  match buf with
  | [] => true
  | _ :: _ => false
  end.

(** ** KeysSerializationVersion *)

Module KeysSerializationVersion.

Definition SingleDictionaryWithAdditionalKeysPerBlock : Z := 1.

Record t : Set := mk { value : Z }.

Definition checkVersion (version : Z) : result unit :=
  if decide (version ≠ SingleDictionaryWithAdditionalKeysPerBlock)
  then Throw LOGICAL_ERROR
  else Ok tt.

(** The converting constructor [KeysSerializationVersion(UInt64 version)]. *)
Definition create (version : Z) : result t :=
  _ ← checkVersion version; Ok (mk version).

End KeysSerializationVersion.

(** ** Unsigned index columns, [ColumnVector<T>] for [T] in [UInt8 .. UInt64] *)

Inductive UIntType : Set := UInt8 | UInt16 | UInt32 | UInt64.

Definition sizeof (T : UIntType) : nat :=
  match T with
  | UInt8 => 1
  | UInt16 => 2
  | UInt32 => 4
  | UInt64 => 8
  end.

Definition modulus (T : UIntType) : Z := 2 ^ (8 * Z.of_nat (sizeof T)).

(** Conversion of an unsigned value to [T]. *)
Definition to_UInt (T : UIntType) (x : Z) : Z := x mod modulus T.

Record ColumnVector : Set := mkColumnVector {
  value_type : UIntType;
  getData : list Z
}.

(** ** IndexesSerializationType *)

Module IndexesSerializationType.

Definition NeedGlobalDictionaryBit : Z := Z.shiftl 1 8.
Definition HasAdditionalKeysBit : Z := Z.shiftl 1 9.

(** [enum Type]; a value of the enumeration is its underlying integer, as
    [static_cast<Type>] makes it. *)
Definition Type_ : Set := Z.
Definition TUInt8 : Type_ := 0.
Definition TUInt16 : Type_ := 1.
Definition TUInt32 : Type_ := 2.
Definition TUInt64 : Type_ := 3.

Record t : Set := mk {
  type : Type_;
  has_additional_keys : bool;
  need_global_dictionary : bool
}.

(** [type & (~(HasAdditionalKeysBit | NeedGlobalDictionaryBit))] on 64 bits. *)
Definition resetFlags (type : Z) : Z :=
  Z.land type
    (Z.lnot (Z.lor HasAdditionalKeysBit NeedGlobalDictionaryBit) mod UInt64_modulus).

Definition checkType (type : Z) : result unit :=
  let value := resetFlags type in
  if decide (value ≤ TUInt64)
  then Ok tt
  else Throw LOGICAL_ERROR.

(** The word [serialize] hands to [writeIntBinary]. *)
Definition serialized_word (self : t) : Z :=
  let val := type self in
  let val := if has_additional_keys self then Z.lor val HasAdditionalKeysBit else val in
  let val := if need_global_dictionary self then Z.lor val NeedGlobalDictionaryBit else val in
  val.

Definition serialize (self : t) (buffer : WriteBuffer) : WriteBuffer :=
  writeIntBinary (serialized_word self) buffer.

Definition deserialize (buffer : ReadBuffer) : result (t * ReadBuffer) :=
  '(val, buffer) ← readIntBinary buffer;
  _ ← checkType val;
  Ok (mk (resetFlags val)
         (negb (Z.land val HasAdditionalKeysBit =? 0))
         (negb (Z.land val NeedGlobalDictionaryBit =? 0)),
      buffer).

(** The constructor from an indexes column.  Its last branch (a column
    that is no [ColumnUInt*]) has no input here: [ColumnVector] holds the
    four unsigned types only. *)
Definition create (column : ColumnVector)
    (has_additional_keys need_global_dictionary : bool) : t :=
  mk (match value_type column with
      | UInt8 => TUInt8
      | UInt16 => TUInt16
      | UInt32 => TUInt32
      | UInt64 => TUInt64
      end)
     has_additional_keys need_global_dictionary.

(** [getDataType]: the unsigned type whose codec packs the indexes. *)
Definition getDataType (self : t) : result UIntType :=
  if decide (type self = TUInt8) then Ok UInt8
  else if decide (type self = TUInt16) then Ok UInt16
  else if decide (type self = TUInt32) then Ok UInt32
  else if decide (type self = TUInt64) then Ok UInt64
  else Throw LOGICAL_ERROR.

End IndexesSerializationType.

(** ** mapIndexWithOverflow *)

(** [HashMap::insert]: the first value inserted under a key stays. *)
Definition hash_map_insert (hash_map : gmap Z Z) (key mapped : Z) : gmap Z Z :=
  match hash_map !! key with
  | Some _ => hash_map
  | None => <[key := mapped]> hash_map
  end.

Definition hash_map_size (hash_map : gmap Z Z) : Z := Z.of_nat (size hash_map).

(** The first loop of [mapIndexWithOverflow<T>]: every value below
    [max_val] gets, at its first occurrence, the size of the map so far. *)
Definition mapIndex_hash_map (T : UIntType) (index : list Z) (max_val : Z) : gmap Z Z :=
  foldl (λ hash_map val,
           if decide (val < max_val)
           then hash_map_insert hash_map val (to_UInt T (hash_map_size hash_map))
           else hash_map)
        ∅ index.

(** The second loop: [index_data[val.second] = val.first] over the map,
    into a column resized to the size of the map. *)
Definition mapIndex_index_data (hash_map : gmap Z Z) : list Z :=
  map_fold (λ first second index_data, <[Z.to_nat second := first]> index_data)
           (replicate (size hash_map) 0) hash_map.

(** The template [mapIndexWithOverflow<T>(index, max_val)]: the updated
    [index] and the returned map column's data. *)
Definition mapIndexWithOverflow_T (T : UIntType) (index : list Z) (max_val : Z)
    : list Z * list Z :=
  let hash_map := mapIndex_hash_map T index max_val in
  let index_data := mapIndex_index_data hash_map in
  let index :=
    (λ val, to_UInt T
              (if decide (val < max_val)
               then default 0 (hash_map !! val)
               else (val - max_val + hash_map_size hash_map) mod UInt64_modulus))
    <$> index in
  (index, index_data).

(** The dispatch on the column's type.  Its throwing branch needs a column
    that is no [ColumnUInt*], which [ColumnVector] excludes. *)
Definition mapIndexWithOverflow (column : ColumnVector) (max_size : Z)
    : ColumnVector * ColumnVector :=
  let T := value_type column in
  let '(index, index_map) := mapIndexWithOverflow_T T (getData column) max_size in
  (mkColumnVector T index, mkColumnVector T index_map).

(** ** The element type (DataTypes/IDataType.h)

    The codec of the dictionary's element type is an interface of the host:
    [DataTypeWithDictionary] calls it and never looks inside.  [V] is the
    type of the (non-null) element values. *)

Record IDataType (V : Type) : Type := mkIDataType {
  (** the value a column of this type stores where it has nothing to say *)
  getDefault : V;
  (** [serializeBinaryBulk(column, ostr, offset, limit)] *)
  serializeBinaryBulk : list V → WriteBuffer → Z → Z → WriteBuffer;
  (** [deserializeBinaryBulk(column, istr, limit, avg_value_size_hint)]:
      the column with the values read appended, and the number of bytes the
      call took from the front of [istr]. *)
  deserializeBinaryBulk : list V → ReadBuffer → Z → list V * nat
}.
Arguments getDefault {V} _.
Arguments serializeBinaryBulk {V} _ _ _ _ _.
Arguments deserializeBinaryBulk {V} _ _ _ _.

(** [dictionary_type]: the element type with its nullable wrapper, if any,
    taken apart ([isNullable()], [removeNullable(dictionary_type)]). *)
Record DataTypePtr (V : Type) : Type := mkDataTypePtr {
  isNullable : bool;
  removeNullable : IDataType V
}.
Arguments isNullable {V} _.
Arguments removeNullable {V} _.

(** Modelled from the spec: DataTypeNumberBase<T>::serializeBinaryBulk and
    deserializeBinaryBulk (DataTypes/DataTypeNumberBase.cpp) for the unsigned
    types, "packed integers at the declared width", "all integers
    little-endian".  Reading stops at [limit] values or where the buffer no
    longer holds a whole value. *)
Fixpoint read_packed (T : UIntType) (fuel : nat) (limit : Z) (istr : ReadBuffer)
    : list Z :=
  match fuel with
  | O => []
  | S fuel =>
      if decide (limit ≤ 0) then []
      else if decide (length istr < sizeof T)%nat then []
      else le_combine (take (sizeof T) istr)
           :: read_packed T fuel (limit - 1) (drop (sizeof T) istr)
  end.

Definition DataTypeNumber (T : UIntType) : IDataType Z := {|
  getDefault := 0;
  serializeBinaryBulk column ostr offset limit :=
    ostr ++ concat (le_split (sizeof T)
                      <$> take (Z.to_nat limit) (drop (Z.to_nat offset) column));
  deserializeBinaryBulk column istr limit :=
    let values := read_packed T (length istr) limit istr in
    (column ++ values, (sizeof T * length values)%nat)
|}.

(** ** Columns (Columns/ColumnUnique.h, ColumnNullable.h, ColumnWithDictionary.h) *)

(** Modelled from the spec: the identity of a dictionary object (section 9,
    "model via identity of the owning handle, not by value equality").  An
    object held through one owner only is [Unshared]; a shared one is known by
    its address. *)
Inductive ObjectIdentity : Set :=
  | Unshared
  | SharedAt (address : nat).

Definition same_object (p q : ObjectIdentity) : bool :=
  match p, q with
  | SharedAt a, SharedAt b => bool_decide (a = b)
  | _, _ => false
  end.

(** Modelled from the spec: the type of an indexes column that the column
    library builds (section 3, "width is chosen by the encoder to be the
    smallest that fits all ids it will emit in that block"). *)
Definition smallest_UInt (ids : list Z) : UIntType :=
  let m := foldr Z.max 0 ids in
  if decide (m < modulus UInt8) then UInt8
  else if decide (m < modulus UInt16) then UInt16
  else if decide (m < modulus UInt32) then UInt32
  else UInt64.

Definition ColumnUInt_of (ids : list Z) : ColumnVector :=
  mkColumnVector (smallest_UInt ids) ids.

(** The values of [l] in the order of their first occurrence. *)
Fixpoint first_occurrences (l : list Z) : list Z :=
  match l with
  | [] => []
  | x :: l => x :: filter (λ y, y ≠ x) (first_occurrences l)
  end.

Section Columns.

Context {V : Type} `{EqDecision V}.
Variable keys_type : IDataType V.

(** Modelled from the spec: a column of element values, plain or under the
    "nullable modifier that adds a null-mask bit per element" (section 3;
    Columns/ColumnNullable.h). *)
Inductive IColumn : Type :=
  | ColumnPlain (data : list V)
  | ColumnNullable (nested : list V) (null_map : list bool).

Definition IColumn_size (column : IColumn) : nat :=
  match column with
  | ColumnPlain data => length data
  | ColumnNullable nested _ => length nested
  end.

(** Modelled from the spec: the values of a column without its null map
    (section 4.4, step 5, "if keys is nullable, strip to its non-null nested
    column": [ColumnNullable::getNestedColumnPtr], as many rows). *)
Definition nested_values (column : IColumn) : list V :=
  match column with
  | ColumnPlain data => data
  | ColumnNullable nested _ => nested
  end.

Definition is_null_at (column : IColumn) (row : nat) : bool :=
  match column with
  | ColumnPlain _ => false
  | ColumnNullable _ null_map => default false (null_map !! row)
  end.

(** Modelled from the spec: [column.index(positions, 0)], the gather of
    section 4.4, step 4: row [i] of the result is row [positions[i]]. *)
Definition IColumn_index (column : IColumn) (positions : list Z) : IColumn :=
  let pick {A} (d : A) (l : list A) := (λ p, nth (Z.to_nat p) l d) <$> positions in
  match column with
  | ColumnPlain data => ColumnPlain (pick (getDefault keys_type) data)
  | ColumnNullable nested null_map =>
      ColumnNullable (pick (getDefault keys_type) nested) (pick false null_map)
  end.

(** Modelled from the spec: [column.insertRangeFrom(src, 0, src.size())] of
    plain values, the "++ additional_keys" of section 4.5, case C. *)
Definition IColumn_append (column : IColumn) (src : list V) : IColumn :=
  match column with
  | ColumnPlain data => ColumnPlain (data ++ src)
  | ColumnNullable nested null_map =>
      ColumnNullable (nested ++ src) (null_map ++ replicate (length src) false)
  end.

(** Modelled from the spec: ColumnUnique (Columns/ColumnUnique.h), the
    "ordered, append-only set of values" of section 3: every value at most
    once, dense zero-based ids, and "when T is nullable, id 0 is reserved
    for the null value, and the non-null values form a nested column". *)
Record ColumnUnique : Type := mkColumnUnique {
  is_nullable : bool;
  column_holder : list V
}.

Definition null_offset (nullable : bool) : nat := if nullable then 1%nat else 0%nat.

Definition ColumnUnique_size (u : ColumnUnique) : Z :=
  Z.of_nat (null_offset (is_nullable u) + length (column_holder u)).

(** Modelled from the spec: [getNestedNotNullableColumn], "for non-nullable
    T this is the whole dictionary; for nullable T it is the dictionary
    minus the reserved null entry". *)
Definition getNestedNotNullableColumn (u : ColumnUnique) : list V :=
  column_holder u.

(** Modelled from the spec: [getNestedColumn], the dictionary as a column
    of [T], the reserved null entry first when [T] is nullable. *)
Definition getNestedColumn (u : ColumnUnique) : IColumn :=
  if is_nullable u
  then ColumnNullable (getDefault keys_type :: column_holder u)
                      (true :: replicate (length (column_holder u)) false)
  else ColumnPlain (column_holder u).

(** Modelled from the spec: the value an id of the dictionary stands for;
    [None] is NULL, the reserved id 0 of a nullable dictionary. *)
Definition ColumnUnique_at (u : ColumnUnique) (id : Z) : option V :=
  if decide (Z.to_nat id < null_offset (is_nullable u))%nat then None
  else Some (nth (Z.to_nat id - null_offset (is_nullable u)) (column_holder u)
                 (getDefault keys_type)).

Fixpoint position_of (v : V) (l : list V) : option nat :=
  match l with
  | [] => None
  | x :: l => if decide (x = v) then Some 0%nat else S <$> position_of v l
  end.

(** Modelled from the spec: one step of [insert_range_with_overflow]
    (section 4.2).  "While the dictionary size is < max_dict_size, inserts
    proceed and assign dense ids"; a key that does not fit "is instead
    appended to overflowed_keys", its id "dict_size + position_in_overflow";
    "repeated inputs within one call dedup to a single id (global or
    overflow)".  [max_dictionary_size = None] is the insertion without a
    budget, [uniqueInsertRangeFrom]. *)
Definition unique_insert (max_dictionary_size : option Z)
    (acc : ColumnUnique * list V * list Z) (is_null : bool) (v : V)
    : ColumnUnique * list V * list Z :=
  let '(u, overflowed_keys, indexes) := acc in
  if is_null && is_nullable u then (u, overflowed_keys, indexes ++ [0])
  else
    match position_of v (column_holder u) with
    | Some p =>
        (u, overflowed_keys, indexes ++ [Z.of_nat (null_offset (is_nullable u) + p)])
    | None =>
        if match max_dictionary_size with
           | Some max => bool_decide (ColumnUnique_size u < max)
           | None => true
           end
        then (mkColumnUnique (is_nullable u) (column_holder u ++ [v]),
              overflowed_keys, indexes ++ [ColumnUnique_size u])
        else
          match position_of v overflowed_keys with
          | Some q => (u, overflowed_keys, indexes ++ [ColumnUnique_size u + Z.of_nat q])
          | None =>
              (u, overflowed_keys ++ [v],
               indexes ++ [ColumnUnique_size u + Z.of_nat (length overflowed_keys)])
          end
    end.

Definition unique_insert_range (max_dictionary_size : option Z)
    (u : ColumnUnique) (keys : IColumn) : ColumnUnique * list V * list Z :=
  foldl (λ acc '(row, v),
           unique_insert max_dictionary_size acc (is_null_at keys row) v)
        (u, [], []) (imap pair (nested_values keys)).

Record IndexesWithOverflow : Type := mkIndexesWithOverflow {
  indexes : ColumnVector;
  overflowed_keys : list V
}.

(** Modelled from the spec: [uniqueInsertRangeWithOverflow(keys, 0,
    keys.size(), max_dictionary_size)] on the dictionary [u], which it
    updates in place: the dictionary after the call and its result. *)
Definition uniqueInsertRangeWithOverflow (u : ColumnUnique) (keys : IColumn)
    (max_dictionary_size : Z) : ColumnUnique * IndexesWithOverflow :=
  let '(u, overflowed_keys, indexes) :=
    unique_insert_range (Some max_dictionary_size) u keys in
  (u, mkIndexesWithOverflow (ColumnUInt_of indexes) overflowed_keys).

(** Modelled from the spec: [uniqueInsertRangeFrom(keys, 0, keys.size())],
    the "insert-range operation" of section 3 through which columns that do
    not share a dictionary are merged. *)
Definition uniqueInsertRangeFrom (u : ColumnUnique) (keys : IColumn)
    : ColumnUnique * list Z :=
  let '(u, _, indexes) := unique_insert_range None u keys in
  (u, indexes).

(** Modelled from the spec: ColumnWithDictionary, "a pair (U, I) where I[k]
    is a valid id in U" (section 3), with the identity of the dictionary it
    points to. *)
Record ColumnWithDictionary : Type := mkColumnWithDictionary {
  getDictionary : ColumnUnique;
  dictionary_identity : ObjectIdentity;
  getIndexes : ColumnVector
}.

Definition ColumnWithDictionary_size (column : ColumnWithDictionary) : Z :=
  Z.of_nat (length (getData (getIndexes column))).

Definition ColumnWithDictionary_empty (column : ColumnWithDictionary) : bool :=
  bool_decide (getData (getIndexes column) = []).

(** The logical rows of a column; [None] is NULL. *)
Definition column_values (column : ColumnWithDictionary) : list (option V) :=
  ColumnUnique_at (getDictionary column) <$> getData (getIndexes column).

(** Every index is an id of the dictionary. *)
Definition valid_column (column : ColumnWithDictionary) : Prop :=
  Forall (λ id, 0 ≤ id < ColumnUnique_size (getDictionary column))
         (getData (getIndexes column)).

Fixpoint position_of_id (id : Z) (l : list Z) : nat :=
  match l with
  | [] => 0%nat
  | x :: l => if decide (x = id) then 0%nat else S (position_of_id id l)
  end.

(** Modelled from the spec: [cutAndCompact(offset, limit)] "returns a
    compact D(T) whose dictionary contains exactly the distinct values
    referenced by I[offset .. offset+limit), with ids renumbered densely
    from zero"; scenario S1 numbers them in the order of first occurrence.
    The reserved null id of a nullable dictionary stays 0. *)
Definition cutAndCompact (column : ColumnWithDictionary) (offset limit : Z)
    : ColumnWithDictionary :=
  let u := getDictionary column in
  let shift := null_offset (is_nullable u) in
  let sub := take (Z.to_nat limit) (drop (Z.to_nat offset) (getData (getIndexes column))) in
  let used := first_occurrences (filter (λ id, Z.of_nat shift ≤ id) sub) in
  let holder :=
    (λ id, nth (Z.to_nat id - shift) (column_holder u) (getDefault keys_type)) <$> used in
  let renumber id :=
    if decide (id < Z.of_nat shift) then id
    else Z.of_nat (shift + position_of_id id used) in
  mkColumnWithDictionary (mkColumnUnique (is_nullable u) holder) Unshared
                         (ColumnUInt_of (renumber <$> sub)).

(** Modelled from the spec: [setSharedDictionary(dict)], "when the receiver
    is empty, replace its dictionary with dict (by shared ownership)". *)
Definition setSharedDictionary (column : ColumnWithDictionary)
    (identity : ObjectIdentity) (dict : ColumnUnique) : result ColumnWithDictionary :=
  if ColumnWithDictionary_empty column
  then Ok (mkColumnWithDictionary dict identity (getIndexes column))
  else Throw LOGICAL_ERROR.

(** Modelled from the spec: [insertRangeFromDictionaryEncodedColumn(keys,
    positions)], "logically append |positions| rows whose values are
    keys[positions[i]]".  The receiver's dictionary is copied before it is
    extended when it is shared (section 9, "snapshot (copy) before
    mutation"), so the result owns its dictionary. *)
Definition insertRangeFromDictionaryEncodedColumn (column : ColumnWithDictionary)
    (keys : IColumn) (positions : ColumnVector) : result ColumnWithDictionary :=
  if bool_decide (Forall (λ p, 0 ≤ p < Z.of_nat (IColumn_size keys)) (getData positions))
  then
    let '(dict, inserted_indexes) := uniqueInsertRangeFrom (getDictionary column) keys in
    Ok (mkColumnWithDictionary dict Unshared
          (ColumnUInt_of (getData (getIndexes column)
                          ++ ((λ p, nth (Z.to_nat p) inserted_indexes 0)
                              <$> getData positions))))
  else Throw POSITION_OUT_OF_BOUND.

(** Modelled from the spec: [insertRangeFrom(other, offset, count)], "when
    other shares the receiver's dictionary: append other.I[offset ..
    offset+count) directly"; otherwise the two are "merged through U's
    insert-range operation". *)
Definition insertRangeFrom (column other : ColumnWithDictionary) (offset count : Z)
    : result ColumnWithDictionary :=
  let range := take (Z.to_nat count) (drop (Z.to_nat offset) (getData (getIndexes other))) in
  if same_object (dictionary_identity column) (dictionary_identity other)
  then Ok (mkColumnWithDictionary (getDictionary column) (dictionary_identity column)
             (ColumnUInt_of (getData (getIndexes column) ++ range)))
  else insertRangeFromDictionaryEncodedColumn column
         (getNestedColumn (getDictionary other)) (ColumnUInt_of range).

End Columns.

Arguments IColumn V : clear implicits.
Arguments ColumnUnique V : clear implicits.
Arguments ColumnWithDictionary V : clear implicits.
Arguments IndexesWithOverflow V : clear implicits.

(** ** Substreams and settings (DataTypes/IDataType.h) *)

Inductive Substream : Set :=
  | DictionaryKeys
  | DictionaryIndexes
  | OtherSubstream (tag : nat).

Abbreviation SubstreamPath := (list Substream).

(** A stream the getter hands out is known by its address; the buffers
    behind the addresses are the memory a call works on. *)
Abbreviation StreamPtr := nat (only parsing).
Abbreviation Buffers := (gmap nat (list byte)).

Definition buffer_at (bufs : Buffers) (stream : StreamPtr) : list byte :=
  default [] (bufs !! stream).

(** Applying [f], which writes to or reads from a buffer, to the buffer
    of [stream]. *)
Definition on_stream (stream : StreamPtr) (f : list byte → list byte)
    (bufs : Buffers) : Buffers :=
  <[stream := f (buffer_at bufs stream)]> bufs.

Module SerializeBinaryBulkSettings.
Record t : Type := mk {
  getter : SubstreamPath → option StreamPtr;
  path : SubstreamPath;
  max_dictionary_size : Z;
  use_new_dictionary_on_overflow : bool
}.
End SerializeBinaryBulkSettings.

Module DeserializeBinaryBulkSettings.
Record t : Type := mk {
  getter : SubstreamPath → option StreamPtr;
  path : SubstreamPath
}.
End DeserializeBinaryBulkSettings.

(** What the decoder works on: the buffers behind the streams, and the next
    free address for a dictionary that it creates and shares. *)
Record Memory : Type := mkMemory {
  buffers : Buffers;
  next_address : nat
}.

(** ** The states *)

Module SerializeStateWithDictionary.
Record t (V : Type) : Type := mk {
  key_version : KeysSerializationVersion.t;
  global_dictionary : option (ColumnUnique V)
}.
Arguments mk {V} _ _.
Arguments key_version {V} _.
Arguments global_dictionary {V} _.
End SerializeStateWithDictionary.

Module DeserializeStateWithDictionary.
Record t (V : Type) : Type := mk {
  key_version : KeysSerializationVersion.t;
  (** the shared dictionary: its address and what it holds *)
  global_dictionary : option (nat * ColumnUnique V);
  index_type : IndexesSerializationType.t;
  additional_keys : option (list V);
  num_pending_rows : Z
}.
Arguments mk {V} _ _ _ _ _.
Arguments key_version {V} _.
Arguments global_dictionary {V} _.
Arguments index_type {V} _.
Arguments additional_keys {V} _.
Arguments num_pending_rows {V} _.

(** [explicit DeserializeStateWithDictionary(UInt64 key_version)]; the
    index type is not initialised by it and is written by the first header
    before anything reads it. *)
Definition create {V : Type} (key_version : Z) : result (t V) :=
  key_version ← KeysSerializationVersion.create key_version;
  Ok (mk key_version None (IndexesSerializationType.mk 0 false false) None 0).

Definition set_global_dictionary {V} (s : t V) (d : option (nat * ColumnUnique V)) : t V :=
  mk (key_version s) d (index_type s) (additional_keys s) (num_pending_rows s).
Definition set_index_type {V} (s : t V) (i : IndexesSerializationType.t) : t V :=
  mk (key_version s) (global_dictionary s) i (additional_keys s) (num_pending_rows s).
Definition set_additional_keys {V} (s : t V) (k : option (list V)) : t V :=
  mk (key_version s) (global_dictionary s) (index_type s) k (num_pending_rows s).
Definition set_num_pending_rows {V} (s : t V) (n : Z) : t V :=
  mk (key_version s) (global_dictionary s) (index_type s) (additional_keys s) n.
End DeserializeStateWithDictionary.

(** A [SerializeBinaryBulkStatePtr] is null, or points to the state of this
    type or to the state of some other type. *)
Inductive SerializeBinaryBulkState (V : Type) : Type :=
  | SerializeState (s : SerializeStateWithDictionary.t V)
  | OtherSerializeState.
Arguments SerializeState {V} s.
Arguments OtherSerializeState {V}.

Inductive DeserializeBinaryBulkState (V : Type) : Type :=
  | DeserializeState (s : DeserializeStateWithDictionary.t V)
  | OtherDeserializeState.
Arguments DeserializeState {V} s.
Arguments OtherDeserializeState {V}.

Definition checkAndGetWithDictionarySerializeState {V}
    (state : option (SerializeBinaryBulkState V))
    : result (SerializeStateWithDictionary.t V) :=
  match state with
  | None => Throw LOGICAL_ERROR
  | Some OtherSerializeState => Throw LOGICAL_ERROR
  | Some (SerializeState with_dictionary_state) => Ok with_dictionary_state
  end.

Definition checkAndGetWithDictionaryDeserializeState {V}
    (state : option (DeserializeBinaryBulkState V))
    : result (DeserializeStateWithDictionary.t V) :=
  match state with
  | None => Throw LOGICAL_ERROR
  | Some OtherDeserializeState => Throw LOGICAL_ERROR
  | Some (DeserializeState with_dictionary_state) => Ok with_dictionary_state
  end.

(** ** DataTypeWithDictionary *)

Section DataTypeWithDictionary.

Context {V : Type} `{EqDecision V}.

(** The member [dictionary_type] of the type object. *)
Variable dictionary_type : DataTypePtr V.

Let keys_type : IDataType V := removeNullable dictionary_type.

(** [createColumnUnique(keys_type)]: a fresh, empty dictionary.  The
    dispatch of [createColumnUniqueImpl] on the kind of element picks the
    representation of the values, which [V] leaves open. *)
Definition createColumnUnique : ColumnUnique V :=
  mkColumnUnique (isNullable dictionary_type) [].

(** [createColumnUnique(keys_type, std::move(keys))]: the dictionary whose
    non-null values are [keys]. *)
Definition createColumnUnique_from (keys : list V) : ColumnUnique V :=
  mkColumnUnique (isNullable dictionary_type) keys.

Definition serializeBinaryBulkStatePrefix
    (settings : SerializeBinaryBulkSettings.t)
    (state : option (SerializeBinaryBulkState V)) (bufs : Buffers)
    : result (option (SerializeBinaryBulkState V) * Buffers) :=
  let stream :=
    SerializeBinaryBulkSettings.getter settings
      (SerializeBinaryBulkSettings.path settings ++ [DictionaryKeys]) in
  match stream with
  | None => Throw LOGICAL_ERROR
  | Some stream =>
      let key_version :=
        KeysSerializationVersion.SingleDictionaryWithAdditionalKeysPerBlock in
      let bufs := on_stream stream (writeIntBinary key_version) bufs in
      let column_unique := createColumnUnique in
      key_version ← KeysSerializationVersion.create key_version;
      Ok (Some (SerializeState
                  (SerializeStateWithDictionary.mk key_version (Some column_unique))),
          bufs)
  end.

Definition serializeBinaryBulkStateSuffix
    (settings : SerializeBinaryBulkSettings.t)
    (state : option (SerializeBinaryBulkState V)) (bufs : Buffers)
    : result (option (SerializeBinaryBulkState V) * Buffers) :=
  state_with_dictionary ← checkAndGetWithDictionarySerializeState state;
  _ ← KeysSerializationVersion.checkVersion
        (KeysSerializationVersion.value
           (SerializeStateWithDictionary.key_version state_with_dictionary));
  match SerializeStateWithDictionary.global_dictionary state_with_dictionary with
  | Some global_dictionary =>
      if decide (SerializeBinaryBulkSettings.max_dictionary_size settings ≠ 0)
      then
        let nested_column := getNestedNotNullableColumn global_dictionary in
        let stream :=
          SerializeBinaryBulkSettings.getter settings
            (SerializeBinaryBulkSettings.path settings ++ [DictionaryKeys]) in
        match stream with
        | None => Throw LOGICAL_ERROR
        | Some stream =>
            let num_keys := Z.of_nat (length nested_column) in
            let bufs := on_stream stream (writeIntBinary num_keys) bufs in
            let bufs :=
              on_stream stream
                (λ ostr, serializeBinaryBulk keys_type nested_column ostr 0 num_keys)
                bufs in
            Ok (state, bufs)
        end
      else Ok (state, bufs)
  | None => Ok (state, bufs)
  end.

Definition deserializeBinaryBulkStatePrefix
    (settings : DeserializeBinaryBulkSettings.t)
    (state : option (DeserializeBinaryBulkState V)) (bufs : Buffers)
    : result (option (DeserializeBinaryBulkState V) * Buffers) :=
  let stream :=
    DeserializeBinaryBulkSettings.getter settings
      (DeserializeBinaryBulkSettings.path settings ++ [DictionaryKeys]) in
  match stream with
  | None => Throw LOGICAL_ERROR
  | Some stream =>
      '(keys_version, rest) ← readIntBinary (buffer_at bufs stream);
      let bufs := <[stream := rest]> bufs in
      state ← DeserializeStateWithDictionary.create keys_version;
      Ok (Some (DeserializeState state), bufs)
  end.

(** [limit = limit ? std::min(limit, max_limit) : max_limit] with
    [max_limit = column.size() - offset] in [size_t]. *)
Definition serialized_limit (column_size offset limit : Z) : Z :=
  let max_limit := (column_size - offset) mod UInt64_modulus in
  if decide (limit ≠ 0) then Z.min limit max_limit else max_limit.

(** Modelled from the spec: [indexes.index(positions, 0)] on index columns,
    "positions[i] ← mapping[positions[i]]" (section 4.4, step 4). *)
Definition ColumnVector_index (indexes positions : ColumnVector) : ColumnVector :=
  mkColumnVector (value_type indexes)
    ((λ p, nth (Z.to_nat p) (getData indexes) 0) <$> getData positions).

Definition serializeBinaryBulkWithMultipleStreams
    (column : ColumnWithDictionary V) (offset limit : Z)
    (settings : SerializeBinaryBulkSettings.t)
    (state : option (SerializeBinaryBulkState V)) (bufs : Buffers)
    : result (option (SerializeBinaryBulkState V) * Buffers) :=
  let max_dictionary_size := SerializeBinaryBulkSettings.max_dictionary_size settings in
  let keys_stream :=
    SerializeBinaryBulkSettings.getter settings
      (SerializeBinaryBulkSettings.path settings ++ [DictionaryKeys]) in
  let indexes_stream :=
    SerializeBinaryBulkSettings.getter settings
      (SerializeBinaryBulkSettings.path settings ++ [DictionaryIndexes]) in
  match keys_stream, indexes_stream with
  | None, None => Ok (state, bufs)
  | None, Some _ => Throw LOGICAL_ERROR
  | Some _, None => Throw LOGICAL_ERROR
  | Some keys_stream, Some indexes_stream =>
      state_with_dictionary ← checkAndGetWithDictionarySerializeState state;
      let global_dictionary :=
        SerializeStateWithDictionary.global_dictionary state_with_dictionary in
      let key_version := SerializeStateWithDictionary.key_version state_with_dictionary in
      _ ← KeysSerializationVersion.checkVersion (KeysSerializationVersion.value key_version);
      let limit := serialized_limit (ColumnWithDictionary_size column) offset limit in
      let sub_column := cutAndCompact keys_type column offset limit in
      let positions := getIndexes sub_column in
      let keys := getNestedColumn keys_type (getDictionary sub_column) in
      '(global_dictionary, positions, keys) ←
        (if decide (max_dictionary_size ≠ 0)
         then
           match global_dictionary with
           | None => Throw NULL_POINTER_DEREFERENCE
           | Some dictionary =>
               let '(dictionary, indexes_with_overflow) :=
                 uniqueInsertRangeWithOverflow dictionary keys max_dictionary_size in
               Ok (Some dictionary,
                   ColumnVector_index (indexes indexes_with_overflow) positions,
                   ColumnPlain (overflowed_keys indexes_with_overflow))
           end
         else Ok (global_dictionary, positions, keys));
      let keys := nested_values keys in
      let need_additional_keys := negb (bool_decide (keys = [])) in
      let need_dictionary := bool_decide (max_dictionary_size ≠ 0) in
      need_write_dictionary ←
        (if SerializeBinaryBulkSettings.use_new_dictionary_on_overflow settings
         then
           match global_dictionary with
           | None => Throw NULL_POINTER_DEREFERENCE
           | Some dictionary =>
               Ok (bool_decide (max_dictionary_size ≤ ColumnUnique_size dictionary))
           end
         else Ok false);
      let index_version :=
        IndexesSerializationType.create positions need_additional_keys need_dictionary in
      let bufs := on_stream indexes_stream (IndexesSerializationType.serialize index_version) bufs in
      '(global_dictionary, bufs) ←
        (if need_write_dictionary : bool
         then
           match global_dictionary with
           | None => Throw NULL_POINTER_DEREFERENCE
           | Some dictionary =>
               let nested_column := getNestedNotNullableColumn dictionary in
               let num_keys := Z.of_nat (length nested_column) in
               let bufs := on_stream keys_stream (writeIntBinary num_keys) bufs in
               let bufs :=
                 on_stream keys_stream
                   (λ ostr, serializeBinaryBulk keys_type nested_column ostr 0 num_keys)
                   bufs in
               Ok (Some createColumnUnique, bufs)
           end
         else Ok (global_dictionary, bufs));
      let bufs :=
        if need_additional_keys
        then
          let num_keys := Z.of_nat (length keys) in
          let bufs := on_stream indexes_stream (writeIntBinary num_keys) bufs in
          on_stream indexes_stream
            (λ ostr, serializeBinaryBulk keys_type keys ostr 0 num_keys) bufs
        else bufs in
      let num_rows := Z.of_nat (length (getData positions)) in
      let bufs := on_stream indexes_stream (writeIntBinary num_rows) bufs in
      indexes_type ← IndexesSerializationType.getDataType index_version;
      let bufs :=
        on_stream indexes_stream
          (λ ostr, serializeBinaryBulk (DataTypeNumber indexes_type)
                     (getData positions) ostr 0 num_rows)
          bufs in
      Ok (Some (SerializeState
                  (SerializeStateWithDictionary.mk key_version global_dictionary)),
          bufs)
  end.

(** The lambda [readDictionary]. *)
Definition readDictionary (keys_stream : StreamPtr)
    (state_with_dictionary : DeserializeStateWithDictionary.t V) (mem : Memory)
    : result (DeserializeStateWithDictionary.t V * Memory) :=
  '(num_keys, rest) ← readIntBinary (buffer_at (buffers mem) keys_stream);
  let bufs := <[keys_stream := rest]> (buffers mem) in
  let '(global_dict_keys, taken) :=
    deserializeBinaryBulk keys_type [] (buffer_at bufs keys_stream) num_keys in
  let bufs := on_stream keys_stream (drop taken) bufs in
  let column_unique := createColumnUnique_from global_dict_keys in
  Ok (DeserializeStateWithDictionary.set_global_dictionary state_with_dictionary
        (Some (next_address mem, column_unique)),
      mkMemory bufs (S (next_address mem))).

(** The lambda [readAdditionalKeys]. *)
Definition readAdditionalKeys (indexes_stream : StreamPtr)
    (state_with_dictionary : DeserializeStateWithDictionary.t V) (mem : Memory)
    : result (DeserializeStateWithDictionary.t V * Memory) :=
  '(num_keys, rest) ← readIntBinary (buffer_at (buffers mem) indexes_stream);
  let bufs := <[indexes_stream := rest]> (buffers mem) in
  let '(additional_keys, taken) :=
    deserializeBinaryBulk keys_type [] (buffer_at bufs indexes_stream) num_keys in
  let bufs := on_stream indexes_stream (drop taken) bufs in
  Ok (DeserializeStateWithDictionary.set_additional_keys state_with_dictionary
        (Some additional_keys),
      mkMemory bufs (next_address mem)).

(** The lambda [readIndexes]. *)
Definition readIndexes (indexes_stream : StreamPtr) (num_rows : Z)
    (column_with_dictionary : ColumnWithDictionary V)
    (state_with_dictionary : DeserializeStateWithDictionary.t V) (mem : Memory)
    : result (ColumnWithDictionary V * Memory) :=
  let index_type := DeserializeStateWithDictionary.index_type state_with_dictionary in
  indexes_type ← IndexesSerializationType.getDataType index_type;
  let '(indexes_data, taken) :=
    deserializeBinaryBulk (DataTypeNumber indexes_type) []
      (buffer_at (buffers mem) indexes_stream) num_rows in
  let mem := mkMemory (on_stream indexes_stream (drop taken) (buffers mem)) (next_address mem) in
  let indexes_column := mkColumnVector indexes_type indexes_data in
  let global_dictionary :=
    DeserializeStateWithDictionary.global_dictionary state_with_dictionary in
  let additional_keys :=
    DeserializeStateWithDictionary.additional_keys state_with_dictionary in
  let has_additional_keys := IndexesSerializationType.has_additional_keys index_type in
  let column_is_empty := ColumnWithDictionary_empty column_with_dictionary in
  let column_with_global_dictionary :=
    match global_dictionary with
    | Some (address, _) =>
        same_object (dictionary_identity column_with_dictionary) (SharedAt address)
    | None => false
    end in
  if negb has_additional_keys && (column_is_empty || column_with_global_dictionary)
  then
    match global_dictionary with
    | None => Throw NULL_POINTER_DEREFERENCE
    | Some (address, dictionary) =>
        column_with_dictionary ←
          (if column_is_empty
           then setSharedDictionary column_with_dictionary (SharedAt address) dictionary
           else Ok column_with_dictionary);
        let local_column :=
          mkColumnWithDictionary dictionary (SharedAt address) indexes_column in
        column_with_dictionary ←
          insertRangeFrom keys_type column_with_dictionary local_column 0 num_rows;
        Ok (column_with_dictionary, mem)
    end
  else if negb (IndexesSerializationType.need_global_dictionary index_type)
  then
    match additional_keys with
    | None => Throw NULL_POINTER_DEREFERENCE
    | Some additional_keys =>
        column_with_dictionary ←
          insertRangeFromDictionaryEncodedColumn column_with_dictionary
            (ColumnPlain additional_keys) indexes_column;
        Ok (column_with_dictionary, mem)
    end
  else
    match global_dictionary with
    | None => Throw NULL_POINTER_DEREFERENCE
    | Some (_, dictionary) =>
        let '(indexes_column, index_map) :=
          mapIndexWithOverflow indexes_column (ColumnUnique_size dictionary) in
        let keys :=
          IColumn_index keys_type (getNestedColumn keys_type dictionary) (getData index_map) in
        let keys :=
          match additional_keys with
          | Some additional_keys => IColumn_append keys additional_keys
          | None => keys
          end in
        column_with_dictionary ←
          insertRangeFromDictionaryEncodedColumn column_with_dictionary keys indexes_column;
        Ok (column_with_dictionary, mem)
    end.

(** What one turn of the [while (limit)] loop leaves. *)
Inductive LoopStep : Type :=
  | Break (state_with_dictionary : DeserializeStateWithDictionary.t V) (mem : Memory)
  | Continue (limit : Z) (column : ColumnWithDictionary V)
             (state_with_dictionary : DeserializeStateWithDictionary.t V) (mem : Memory).

(** The part of the loop body under [if (num_pending_rows == 0)]: the header
    of the next block, the dictionaries it announces and its number of rows;
    [None] is the [break] at the end of the indexes stream. *)
Definition read_block_header (keys_stream indexes_stream : StreamPtr)
    (state_with_dictionary : DeserializeStateWithDictionary.t V) (mem : Memory)
    : result (option (DeserializeStateWithDictionary.t V * Memory)) :=
  if eof (buffer_at (buffers mem) indexes_stream) then Ok None
  else
    '(index_type, rest) ←
      IndexesSerializationType.deserialize (buffer_at (buffers mem) indexes_stream);
    let mem := mkMemory (<[indexes_stream := rest]> (buffers mem)) (next_address mem) in
    let state_with_dictionary :=
      DeserializeStateWithDictionary.set_index_type state_with_dictionary index_type in
    '(state_with_dictionary, mem) ←
      (if IndexesSerializationType.need_global_dictionary index_type
          && negb (bool_decide
                     (is_Some (DeserializeStateWithDictionary.global_dictionary
                                 state_with_dictionary)))
       then readDictionary keys_stream state_with_dictionary mem
       else Ok (state_with_dictionary, mem));
    '(state_with_dictionary, mem) ←
      (if IndexesSerializationType.has_additional_keys index_type
       then readAdditionalKeys indexes_stream state_with_dictionary mem
       else Ok (DeserializeStateWithDictionary.set_additional_keys
                  state_with_dictionary None, mem));
    '(num_pending_rows, rest) ← readIntBinary (buffer_at (buffers mem) indexes_stream);
    Ok (Some (DeserializeStateWithDictionary.set_num_pending_rows
                state_with_dictionary num_pending_rows,
              mkMemory (<[indexes_stream := rest]> (buffers mem)) (next_address mem))).

(** The body of [while (limit)], entered with [limit ≠ 0]. *)
Definition loop_body (keys_stream indexes_stream : StreamPtr) (limit : Z)
    (column : ColumnWithDictionary V)
    (state_with_dictionary : DeserializeStateWithDictionary.t V) (mem : Memory)
    : result LoopStep :=
  header ←
    (if decide (DeserializeStateWithDictionary.num_pending_rows state_with_dictionary = 0)
     then read_block_header keys_stream indexes_stream state_with_dictionary mem
     else Ok (Some (state_with_dictionary, mem)));
  match header with
  | None => Ok (Break state_with_dictionary mem)
  | Some (state_with_dictionary, mem) =>
      let num_pending_rows :=
        DeserializeStateWithDictionary.num_pending_rows state_with_dictionary in
      let num_rows_to_read := Z.min limit num_pending_rows in
      '(column, mem) ←
        readIndexes indexes_stream num_rows_to_read column state_with_dictionary mem;
      Ok (Continue (limit - num_rows_to_read) column
            (DeserializeStateWithDictionary.set_num_pending_rows state_with_dictionary
               (num_pending_rows - num_rows_to_read))
            mem)
  end.

(** [while (limit) { ... }]; [None] when [fuel] turns did not end it. *)
Fixpoint deserialize_loop (fuel : nat) (keys_stream indexes_stream : StreamPtr)
    (limit : Z) (column : ColumnWithDictionary V)
    (state_with_dictionary : DeserializeStateWithDictionary.t V) (mem : Memory)
    : option (result (ColumnWithDictionary V * DeserializeStateWithDictionary.t V * Memory)) :=
  if decide (limit = 0) then Some (Ok (column, state_with_dictionary, mem))
  else
    match fuel with
    | O => None
    | S fuel =>
        match loop_body keys_stream indexes_stream limit column state_with_dictionary mem with
        | Throw e => Some (Throw e)
        | Ok (Break state_with_dictionary mem) =>
            Some (Ok (column, state_with_dictionary, mem))
        | Ok (Continue limit column state_with_dictionary mem) =>
            deserialize_loop fuel keys_stream indexes_stream limit column
              state_with_dictionary mem
        end
    end.

(** Turns that end the loop: every turn that goes on either delivers a row
    or takes a header from the indexes stream. *)
Definition loop_fuel (indexes_stream : StreamPtr) (limit : Z) (mem : Memory) : nat :=
  (Z.to_nat limit + length (buffer_at (buffers mem) indexes_stream))%nat.

Definition deserializeBinaryBulkWithMultipleStreams
    (column : ColumnWithDictionary V) (limit : Z)
    (settings : DeserializeBinaryBulkSettings.t)
    (state : option (DeserializeBinaryBulkState V)) (mem : Memory)
    : option (result (ColumnWithDictionary V * option (DeserializeBinaryBulkState V) * Memory)) :=
  match checkAndGetWithDictionaryDeserializeState state with
  | Throw e => Some (Throw e)
  | Ok state_with_dictionary =>
  match KeysSerializationVersion.checkVersion
          (KeysSerializationVersion.value
             (DeserializeStateWithDictionary.key_version state_with_dictionary)) with
  | Throw e => Some (Throw e)
  | Ok _ =>
  let keys_stream :=
    DeserializeBinaryBulkSettings.getter settings
      (DeserializeBinaryBulkSettings.path settings ++ [DictionaryKeys]) in
  let indexes_stream :=
    DeserializeBinaryBulkSettings.getter settings
      (DeserializeBinaryBulkSettings.path settings ++ [DictionaryIndexes]) in
  match keys_stream, indexes_stream with
  | None, None => Some (Ok (column, state, mem))
  | None, Some _ => Some (Throw LOGICAL_ERROR)
  | Some _, None => Some (Throw LOGICAL_ERROR)
  | Some keys_stream, Some indexes_stream =>
      match deserialize_loop (loop_fuel indexes_stream limit mem)
              keys_stream indexes_stream limit column state_with_dictionary mem with
      | None => None
      | Some (Throw e) => Some (Throw e)
      | Some (Ok (column, state_with_dictionary, mem)) =>
          Some (Ok (column, Some (DeserializeState state_with_dictionary), mem))
      end
  end
  end
  end.

End DataTypeWithDictionary.

(** ** Sessions and a concrete instance *)

Section Sessions.

Context {V : Type} `{EqDecision V}.
Variable dictionary_type : DataTypePtr V.

(** An encoding session as the host drives it: the prefix on empty streams,
    one [serializeBinaryBulkWithMultipleStreams] per [(offset, limit)] of
    [blocks], the suffix.  The result is the content of the streams. *)
Definition serialize_session (column : ColumnWithDictionary V) (blocks : list (Z * Z))
    (settings : SerializeBinaryBulkSettings.t) : result Buffers :=
  '(state, bufs) ← serializeBinaryBulkStatePrefix dictionary_type settings None ∅;
  '(state, bufs) ←
    foldl (λ session '(offset, limit),
             '(state, bufs) ← session;
             serializeBinaryBulkWithMultipleStreams dictionary_type column offset limit
               settings state bufs)
          (Ok (state, bufs)) blocks;
  '(_, bufs) ← serializeBinaryBulkStateSuffix dictionary_type settings state bufs;
  Ok bufs.

(** A decoding session: the prefix, then one
    [deserializeBinaryBulkWithMultipleStreams] of [limit] rows into an empty
    column.  The result is the rows of the column read. *)
Definition deserialize_session (bufs : Buffers) (limit : Z)
    (settings : DeserializeBinaryBulkSettings.t) : option (result (list (option V))) :=
  match deserializeBinaryBulkStatePrefix settings None bufs with
  | Throw e => Some (Throw e)
  | Ok (state, bufs) =>
      let column :=
        mkColumnWithDictionary (createColumnUnique dictionary_type) Unshared
          (mkColumnVector UInt8 []) in
      match deserializeBinaryBulkWithMultipleStreams dictionary_type column limit
              settings state (mkMemory bufs 0) with
      | None => None
      | Some (Throw e) => Some (Throw e)
      | Some (Ok (column, _, _)) =>
          Some (Ok (column_values (removeNullable dictionary_type) column))
      end
  end.

End Sessions.

(** [WithDictionary(UInt8)], its keys stream at address 0 and its indexes
    stream at address 1. *)
Definition UInt8_dictionary_type : DataTypePtr Z :=
  mkDataTypePtr Z false (DataTypeNumber UInt8).

Definition two_streams (path : SubstreamPath) : option StreamPtr :=
  match path with
  | [DictionaryKeys] => Some 0%nat
  | [DictionaryIndexes] => Some 1%nat
  | _ => None
  end.

Definition keys_stream_only (path : SubstreamPath) : option StreamPtr :=
  match path with
  | [DictionaryKeys] => Some 0%nat
  | _ => None
  end.

Definition serialize_settings (max_dictionary_size : Z)
    (use_new_dictionary_on_overflow : bool) : SerializeBinaryBulkSettings.t :=
  SerializeBinaryBulkSettings.mk two_streams [] max_dictionary_size
    use_new_dictionary_on_overflow.

Definition deserialize_settings : DeserializeBinaryBulkSettings.t :=
  DeserializeBinaryBulkSettings.mk two_streams [].

(** The column of the values [1, 2, 3, 4], each its own dictionary entry. *)
Definition column_1234 : ColumnWithDictionary Z :=
  mkColumnWithDictionary (mkColumnUnique false [1; 2; 3; 4]) Unshared
    (mkColumnVector UInt8 [0; 1; 2; 3]).

(** The encoder's state as the prefix leaves it. *)
Definition state_after_prefix : option (SerializeBinaryBulkState Z) :=
  Some (SerializeState
          (SerializeStateWithDictionary.mk (KeysSerializationVersion.mk 1)
             (Some (mkColumnUnique false [])))).

(** The two streams after the prefix: the version word on the keys stream. *)
Definition buffers_after_prefix : Buffers := {[ 0%nat := le_split 8 1 ]}.

(** The streams of the session that writes [column_1234] as the two blocks
    [(0, 2)] and [(2, 2)] with [max_dictionary_size = 2] and
    [use_new_dictionary_on_overflow]: on the keys stream the version, the
    dictionary [1, 2] of the first block, the dictionary [3, 4] of the
    second, and the empty dictionary of the suffix; on the indexes stream two
    blocks of two rows, each with the need-global-dictionary bit and the
    indexes [0, 1]. *)
Definition two_dictionaries_keys : list byte :=
  le_split 8 1 ++ le_split 8 2 ++ [Byte.x01; Byte.x02]
  ++ le_split 8 2 ++ [Byte.x03; Byte.x04] ++ le_split 8 0.

Definition two_dictionaries_indexes : list byte :=
  le_split 8 256 ++ le_split 8 2 ++ [Byte.x00; Byte.x01]
  ++ le_split 8 256 ++ le_split 8 2 ++ [Byte.x00; Byte.x01].

(** The decoder of that session after its first block: the dictionary
    [1, 2] installed at address 0, the first two rows in the column, and the
    second block and the second dictionary still on the streams. *)
Definition decoder_state_after_first_block : DeserializeStateWithDictionary.t Z :=
  DeserializeStateWithDictionary.mk (KeysSerializationVersion.mk 1)
    (Some (0%nat, mkColumnUnique false [1; 2]))
    (IndexesSerializationType.mk 0 false true) None 0.

Definition column_after_first_block : ColumnWithDictionary Z :=
  mkColumnWithDictionary (mkColumnUnique false [1; 2]) (SharedAt 0)
    (mkColumnVector UInt8 [0; 1]).

Definition memory_after_first_block : Memory :=
  mkMemory {[ 0%nat := le_split 8 2 ++ [Byte.x03; Byte.x04] ++ le_split 8 0;
              1%nat := le_split 8 256 ++ le_split 8 2 ++ [Byte.x00; Byte.x01] ]} 1.

(** ** The vocabulary of the properties *)

(** A header word that has nothing outside the width byte and bits 8 and 9,
    and whose width byte is one of the four codes. *)
Definition header_well_formed (word : Z) : Prop :=
  0 ≤ word < UInt64_modulus ∧ Z.shiftr word 10 = 0 ∧ Z.land word 255 ≤ 3.

(** The claim as the specification words it: the suffix appends the global
    dictionary to the keys stream when that dictionary is non-empty and
    [max_dictionary_size > 0], and leaves the keys stream as it is in every
    other case. *)
Definition suffix_writes_iff_dictionary_nonempty {V : Type}
    (dictionary_type : DataTypePtr V) (settings : SerializeBinaryBulkSettings.t)
    (s : SerializeStateWithDictionary.t V) (bufs : Buffers) (keys_stream : StreamPtr)
    : Prop :=
  ∀ state' bufs',
    serializeBinaryBulkStateSuffix dictionary_type settings (Some (SerializeState s)) bufs
    = Ok (state', bufs') →
    let nonempty :=
      ∃ d, SerializeStateWithDictionary.global_dictionary s = Some d
           ∧ column_holder d ≠ [] in
    let enabled := SerializeBinaryBulkSettings.max_dictionary_size settings ≠ 0 in
    (nonempty ∧ enabled → buffer_at bufs' keys_stream ≠ buffer_at bufs keys_stream)
    ∧ (¬ (nonempty ∧ enabled) → buffer_at bufs' keys_stream = buffer_at bufs keys_stream).



(** The distinct values of [index] below [max], in the order of their first
    occurrence. *)
Definition below_max_distinct (max : Z) (index : list Z) : list Z :=
  first_occurrences (filter (λ v, v < max) index).

(** No buffer got longer. *)
Definition shrinks (mem mem' : Memory) : Prop :=
  ∀ stream : StreamPtr,
    (length (buffer_at (buffers mem') stream)
     ≤ length (buffer_at (buffers mem) stream))%nat.

(** Nothing happened but reads from [stream]. *)
Definition reads_only (stream : StreamPtr) (mem mem' : Memory) : Prop :=
  next_address mem' = next_address mem
  ∧ ∀ other : StreamPtr, other ≠ stream →
      buffer_at (buffers mem') other = buffer_at (buffers mem) other.

(** ** enumerateStreams *)

(** [path.back() = x] and [path.pop_back()] on a path that has a last
    element. *)
Definition set_back (path : SubstreamPath) (x : Substream) : SubstreamPath :=
  <[pred (length path) := x]> path.

Definition pop_back (path : SubstreamPath) : SubstreamPath :=
  take (pred (length path)) path.

(** [DataTypeWithDictionary::enumerateStreams(callback, path)].  The calls
    of [callback] are the list of the paths it is handed, in order; the
    element type's [enumerateStreams] is the host's, and is given as the
    function from the path it receives to the paths it hands to the callback
    and the path as it leaves it. *)
Definition enumerateStreams
    (dictionary_type_enumerateStreams : SubstreamPath → list SubstreamPath * SubstreamPath)
    (path : SubstreamPath) : list SubstreamPath * SubstreamPath :=
  let path := path ++ [DictionaryKeys] in
  let '(announced, path) := dictionary_type_enumerateStreams path in
  let path := set_back path DictionaryIndexes in
  let announced := announced ++ [path] in
  (announced, pop_back path).

(** ** Blocks *)

(** The codec of a type appends to the buffer it is given... *)
Definition codec_appends {V : Type} (type : IDataType V) : Prop :=
  ∀ column ostr offset limit,
    serializeBinaryBulk type column ostr offset limit
    = ostr ++ serializeBinaryBulk type column [] offset limit.

(** ... and reads back the columns of [valid] values that it wrote,
    leaving what follows them. *)
Definition codec_round_trip {V : Type} (type : IDataType V) (valid : V → Prop) : Prop :=
  ∀ column rest,
    Forall valid column →
    deserializeBinaryBulk type []
      (serializeBinaryBulk type column [] 0 (Z.of_nat (length column)) ++ rest)
      (Z.of_nat (length column))
    = (column, length (serializeBinaryBulk type column [] 0 (Z.of_nat (length column)))).

Section Blocks.

Context {V : Type} `{EqDecision V}.
Variable dictionary_type : DataTypePtr V.

(** What one call of the serializer computes before it writes: the global
    dictionary after the insertion of the block's keys, the positions and the
    additional keys. *)
Record Block : Type := mkBlock {
  block_dictionary : ColumnUnique V;
  block_positions : ColumnVector;
  block_keys : list V
}.

Definition block_of (column : ColumnWithDictionary V) (offset limit : Z)
    (max_dictionary_size : Z) (global_dictionary : ColumnUnique V) : Block :=
  let keys_type := removeNullable dictionary_type in
  let sub_column :=
    cutAndCompact keys_type column offset
      (serialized_limit (ColumnWithDictionary_size column) offset limit) in
  let keys := getNestedColumn keys_type (getDictionary sub_column) in
  if decide (max_dictionary_size ≠ 0)
  then
    let '(dictionary, indexes_with_overflow) :=
      uniqueInsertRangeWithOverflow global_dictionary keys max_dictionary_size in
    mkBlock dictionary
      (ColumnVector_index (indexes indexes_with_overflow) (getIndexes sub_column))
      (overflowed_keys indexes_with_overflow)
  else mkBlock global_dictionary (getIndexes sub_column) (nested_values keys).

(** Whether the call flushes the global dictionary to the keys stream. *)
Definition block_flushes (settings : SerializeBinaryBulkSettings.t) (block : Block) : bool :=
  SerializeBinaryBulkSettings.use_new_dictionary_on_overflow settings
  && bool_decide (SerializeBinaryBulkSettings.max_dictionary_size settings
                  ≤ ColumnUnique_size (block_dictionary block)).

(** The bytes of a block, as [serializeBinaryBulkWithMultipleStreams]
    appends them to the indexes stream: the header; with additional keys,
    their number and their bulk form; the number of rows; the packed
    positions. *)
Definition block_bytes (max_dictionary_size : Z) (block : Block) : list byte :=
  let keys_type := removeNullable dictionary_type in
  let positions := block_positions block in
  let keys := block_keys block in
  le_split 8
    (IndexesSerializationType.serialized_word
       (IndexesSerializationType.create positions
          (negb (bool_decide (keys = []))) (bool_decide (max_dictionary_size ≠ 0))))
  ++ (if bool_decide (keys = []) then []
      else le_split 8 (Z.of_nat (length keys))
           ++ serializeBinaryBulk keys_type keys [] 0 (Z.of_nat (length keys)))
  ++ le_split 8 (Z.of_nat (length (getData positions)))
  ++ serializeBinaryBulk (DataTypeNumber (value_type positions)) (getData positions) []
       0 (Z.of_nat (length (getData positions))).

(** The bytes of a dictionary, as the serializer and the suffix append
    them to the keys stream: the number of its nested keys and their bulk
    form. *)
Definition dictionary_bytes (dictionary : ColumnUnique V) : list byte :=
  let nested_column := getNestedNotNullableColumn dictionary in
  le_split 8 (Z.of_nat (length nested_column))
  ++ serializeBinaryBulk (removeNullable dictionary_type) nested_column []
       0 (Z.of_nat (length nested_column)).

End Blocks.

Arguments Block V : clear implicits.

(** ** The values behind the ids *)

Section Values.

Context {V : Type} `{EqDecision V}.
Variable keys_type : IDataType V.

(** The value of a row of a column of keys as a dictionary that is, or is
    not, nullable takes it in: [None] is NULL. *)
Definition IColumn_field (nullable : bool) (keys : IColumn V) (row : nat) : option V :=
  if is_null_at keys row && nullable then None
  else Some (nth row (nested_values keys) (getDefault keys_type)).

(** The value that an id of a block stands for, as the decoder's
    [readIndexes] takes it: an id below the size of the global dictionary is
    the dictionary's; the others count on into the additional keys. *)
Definition block_value (dictionary : ColumnUnique V) (additional_keys : list V) (id : Z)
    : option V :=
  if decide (id < ColumnUnique_size dictionary) then ColumnUnique_at keys_type dictionary id
  else Some (nth (Z.to_nat (id - ColumnUnique_size dictionary)) additional_keys
                 (getDefault keys_type)).

(** What the rows inserted so far have come to. *)
Definition inserted_well (max_dictionary_size : option Z) (u : ColumnUnique V)
    (is_null : nat → bool) (rows : list V)
    (acc : ColumnUnique V * list V * list Z) : Prop :=
  let '(u', overflowed, ids) := acc in
  is_nullable u' = is_nullable u
  ∧ (∃ added, column_holder u' = column_holder u ++ added
              ∧ (length added + length overflowed ≤ length rows)%nat)
  ∧ length ids = length rows
  ∧ (overflowed ≠ [] →
     ∀ max, max_dictionary_size = Some max → max ≤ ColumnUnique_size u')
  ∧ (max_dictionary_size = None → overflowed = [])
  ∧ (∀ max, max_dictionary_size = Some max →
       ColumnUnique_size u' ≤ Z.max max (ColumnUnique_size u))
  ∧ ∀ (row : nat) (id : Z) (v : V),
      ids !! row = Some id → rows !! row = Some v →
      0 ≤ id < ColumnUnique_size u' + Z.of_nat (length overflowed)
      ∧ block_value u' overflowed id
        = if is_null row && is_nullable u then None else Some v.

End Values.

(** ** Reading blocks *)

Section Decoding.

Context {V : Type} `{EqDecision V}.
Variable dictionary_type : DataTypePtr V.

(** The rows that a block stands for, [global] being the global dictionary
    the decoder holds: with [max_dictionary_size ≠ 0] the positions count
    through the global dictionary and on into the block's keys, with
    [max_dictionary_size = 0] through the block's keys alone. *)
Definition block_rows (max_dictionary_size : Z) (global : ColumnUnique V)
    (block : Block V) : list (option V) :=
  (λ p, if decide (max_dictionary_size ≠ 0)
        then block_value (removeNullable dictionary_type) global (block_keys block) p
        else Some (nth (Z.to_nat p) (block_keys block)
                       (getDefault (removeNullable dictionary_type))))
  <$> getData (block_positions block).

(** A block that can be written and read: its positions fit their type and
    point into the dictionary and the keys, its keys are values the codec can
    carry, its counts fit a 64-bit word, and without a global dictionary it
    has keys. *)
Definition block_well_formed (valid : V → Prop) (max_dictionary_size : Z)
    (global : ColumnUnique V) (block : Block V) : Prop :=
  Forall (λ p, 0 ≤ p < modulus (value_type (block_positions block)))
         (getData (block_positions block))
  ∧ Forall (λ p, 0 ≤ p < (if decide (max_dictionary_size ≠ 0)
                          then ColumnUnique_size global else 0)
                         + Z.of_nat (length (block_keys block)))
           (getData (block_positions block))
  ∧ Forall valid (block_keys block)
  ∧ Z.of_nat (length (block_keys block)) < UInt64_modulus
  ∧ Z.of_nat (length (getData (block_positions block))) < UInt64_modulus
  ∧ (max_dictionary_size = 0 → block_keys block ≠ []).

(** The column that the decoder fills, as it stands with the state: its
    indexes are ids of its dictionary, which has the nullability of the type
    and is its own or else the global dictionary of the state. *)
Definition column_ok (s : DeserializeStateWithDictionary.t V)
    (column : ColumnWithDictionary V) : Prop :=
  valid_column column
  ∧ is_nullable (getDictionary column) = isNullable dictionary_type
  ∧ (dictionary_identity column = Unshared
     ∨ ∃ address,
         dictionary_identity column = SharedAt address
         ∧ DeserializeStateWithDictionary.global_dictionary s
           = Some (address, getDictionary column)).

(** The global dictionary [global] is at hand for a session that has one:
    the state holds it, or it is the next thing on the keys stream. *)
Definition dictionary_ready (valid : V → Prop) (max_dictionary_size : Z)
    (global : ColumnUnique V) (keys_stream : StreamPtr)
    (s : DeserializeStateWithDictionary.t V) (mem : Memory) : Prop :=
  max_dictionary_size ≠ 0 →
  is_nullable global = isNullable dictionary_type
  ∧ ((∃ address,
        DeserializeStateWithDictionary.global_dictionary s = Some (address, global))
     ∨ (DeserializeStateWithDictionary.global_dictionary s = None
        ∧ Forall valid (column_holder global)
        ∧ Z.of_nat (length (column_holder global)) < UInt64_modulus
        ∧ ∃ rest,
            buffer_at (buffers mem) keys_stream
            = dictionary_bytes dictionary_type global ++ rest)).

(** The dictionary at the front of the keys stream of [mem] has become the
    global dictionary of [s'], a new object, and [mem'] holds what followed
    it on the keys stream. *)
Definition dictionary_installed (global : ColumnUnique V) (keys_stream : StreamPtr)
    (mem : Memory) (s' : DeserializeStateWithDictionary.t V) (mem' : Memory) : Prop :=
  ∀ rest,
    buffer_at (buffers mem) keys_stream = dictionary_bytes dictionary_type global ++ rest →
    DeserializeStateWithDictionary.global_dictionary s' = Some (next_address mem, global)
    ∧ buffer_at (buffers mem') keys_stream = rest
    ∧ next_address mem' = S (next_address mem).

(** A block without its first [n] rows, and its first [n] rows. *)
Definition block_drop (n : nat) (block : Block V) : Block V :=
  mkBlock (block_dictionary block)
    (mkColumnVector (value_type (block_positions block))
       (drop n (getData (block_positions block))))
    (block_keys block).

Definition block_take (n : nat) (block : Block V) : Block V :=
  mkBlock (block_dictionary block)
    (mkColumnVector (value_type (block_positions block))
       (take n (getData (block_positions block))))
    (block_keys block).

(** The state holds what the header of [block] announced. *)
Definition header_read (max_dictionary_size : Z) (global : ColumnUnique V)
    (s : DeserializeStateWithDictionary.t V) (block : Block V) : Prop :=
  DeserializeStateWithDictionary.index_type s
  = IndexesSerializationType.create (block_positions block)
      (negb (bool_decide (block_keys block = [])))
      (bool_decide (max_dictionary_size ≠ 0))
  ∧ DeserializeStateWithDictionary.additional_keys s
    = (if bool_decide (block_keys block = []) then None else Some (block_keys block))
  ∧ (max_dictionary_size ≠ 0 →
     is_nullable global = isNullable dictionary_type
     ∧ ∃ address,
         DeserializeStateWithDictionary.global_dictionary s = Some (address, global)).

(** Where the decoder stands between two calls: in a block whose header it
    has read, before the rows of [current] that are still pending, with
    [blocks] after them on the indexes stream and nothing else. *)
Definition decoder_at (valid : V → Prop) (max_dictionary_size : Z)
    (global : ColumnUnique V) (keys_stream indexes_stream : StreamPtr)
    (s : DeserializeStateWithDictionary.t V) (mem : Memory)
    (current : Block V) (blocks : list (Block V)) : Prop :=
  KeysSerializationVersion.value (DeserializeStateWithDictionary.key_version s) = 1
  ∧ DeserializeStateWithDictionary.num_pending_rows s
    = Z.of_nat (length (getData (block_positions current)))
  ∧ dictionary_ready valid max_dictionary_size global keys_stream s mem
  ∧ (getData (block_positions current) ≠ [] →
     block_well_formed valid max_dictionary_size global current
     ∧ header_read max_dictionary_size global s current)
  ∧ Forall (block_well_formed valid max_dictionary_size global) blocks
  ∧ buffer_at (buffers mem) indexes_stream
    = serializeBinaryBulk (DataTypeNumber (value_type (block_positions current)))
        (getData (block_positions current)) []
        0 (Z.of_nat (length (getData (block_positions current))))
      ++ concat (block_bytes dictionary_type max_dictionary_size <$> blocks).

(** The rows the decoder has still to deliver. *)
Definition rows_left (max_dictionary_size : Z) (global : ColumnUnique V)
    (current : Block V) (blocks : list (Block V)) : list (option V) :=
  block_rows max_dictionary_size global current
  ++ concat (block_rows max_dictionary_size global <$> blocks).

End Decoding.

(** ** The blocks of a session *)

Section SessionBlocks.

Context {V : Type} `{EqDecision V}.
Variable dictionary_type : DataTypePtr V.
Variable column : ColumnWithDictionary V.
Variable settings : SerializeBinaryBulkSettings.t.

(** The global dictionary that a call leaves in the state: a fresh one
    after a flush. *)
Definition dictionary_after (block : Block V) : ColumnUnique V :=
  if block_flushes settings block then createColumnUnique dictionary_type
  else block_dictionary block.

(** The blocks of the calls for [ranges], one [(offset, limit)] per call,
    from a state that holds [global]. *)
Fixpoint session_blocks (global : ColumnUnique V) (ranges : list (Z * Z))
    : list (Block V) :=
  match ranges with
  | [] => []
  | (offset, limit) :: ranges =>
      let block :=
        block_of dictionary_type column offset limit
          (SerializeBinaryBulkSettings.max_dictionary_size settings) global in
      block :: session_blocks (dictionary_after block) ranges
  end.

(** The global dictionary that the state holds after these calls. *)
Fixpoint session_dictionary (global : ColumnUnique V) (ranges : list (Z * Z))
    : ColumnUnique V :=
  match ranges with
  | [] => global
  | (offset, limit) :: ranges =>
      session_dictionary
        (dictionary_after
           (block_of dictionary_type column offset limit
              (SerializeBinaryBulkSettings.max_dictionary_size settings) global))
        ranges
  end.

(** The dictionaries that the calls flush to the keys stream. *)
Definition flushed_bytes (blocks : list (Block V)) : list byte :=
  concat ((λ block,
             if block_flushes settings block
             then dictionary_bytes dictionary_type (block_dictionary block)
             else []) <$> blocks).

(** The rows of the column that a call for [(offset, limit)] is to write. *)
Definition range_rows (range : Z * Z) : list (option V) :=
  take (Z.to_nat (serialized_limit (ColumnWithDictionary_size column) range.1 range.2))
    (drop (Z.to_nat range.1) (column_values (removeNullable dictionary_type) column)).

End SessionBlocks.

(** ** Proof steps *)

(** Replaces the call of a codec in the goal by the result that [H] gives
    for it. *)
Ltac rewrite_counted H :=
  match goal with
  | |- context [deserializeBinaryBulk ?type ?column ?buffer ?limit] =>
      replace (deserializeBinaryBulk type column buffer limit) with
        (ltac:(match type of H with _ = ?r => exact r end))
        by (symmetry; exact H)
  end.

(** * Properties *)

(** ** Words on a buffer *)

Lemma readIntBinary_le_split (x : Z) (rest : ReadBuffer) :
  0 ≤ x < UInt64_modulus →
  readIntBinary (le_split 8 x ++ rest) = Ok (x, rest).
Proof.
  intros Hx. unfold readIntBinary.
  assert (Hlen : length (le_split 8 x) = 8%nat) by apply length_le_split.
  destruct (decide _) as [Hshort|_].
  - rewrite length_app, Hlen in Hshort. lia.
  - rewrite <- Hlen at 1. rewrite take_app_length.
    rewrite <- Hlen at 2. rewrite drop_app_length.
    rewrite le_combine_split. f_equal. f_equal.
    apply Z.mod_small. exact Hx.
Qed.

Lemma readIntBinary_inv (buf rest : ReadBuffer) (x : Z) :
  readIntBinary buf = Ok (x, rest) →
  0 ≤ x < UInt64_modulus ∧ buf = le_split 8 x ++ rest.
Proof.
  unfold readIntBinary. destruct (decide _) as [|Hlen]; [discriminate|].
  intros [= <- <-].
  assert (Hlen8 : length (take 8 buf) = 8%nat) by (rewrite length_take; lia).
  split.
  - pose proof (le_combine_bound (take 8 buf)) as Hb.
    rewrite Hlen8 in Hb. exact Hb.
  - rewrite <- Hlen8 at 1. rewrite split_le_combine. symmetry. apply take_drop.
Qed.

Lemma readIntBinary_length (buf rest : ReadBuffer) (x : Z) :
  readIntBinary buf = Ok (x, rest) → (length buf = 8 + length rest)%nat.
Proof.
  unfold readIntBinary. destruct (decide _) as [|Hlen]; [discriminate|].
  intros [= <- <-]. rewrite length_drop. lia.
Qed.

(** ** The index-type header *)

Lemma header_well_formed_cases (word : Z) :
  header_well_formed word →
  ∃ code flags, word = code + 256 * flags ∧ 0 ≤ code ≤ 3 ∧ 0 ≤ flags ≤ 3.
Proof.
  intros ([Hlo Hhi] & Hshift & Hwidth).
  rewrite Z.shiftr_div_pow2 in Hshift by lia.
  change 255 with (Z.ones 8) in Hwidth. rewrite Z.land_ones in Hwidth by lia.
  change (2 ^ 10) with 1024 in Hshift. change (2 ^ 8) with 256 in Hwidth.
  exists (word mod 256), (word / 256).
  pose proof (Z.mod_pos_bound word 256 ltac:(lia)).
  pose proof (Z.div_mod word 256 ltac:(lia)).
  assert (word < 1024).
  { apply Z.div_small_iff in Hshift; lia. }
  assert (word / 256 < 4) by (apply Z.div_lt_upper_bound; lia).
  assert (0 ≤ word / 256) by (apply Z.div_pos; lia).
  lia.
Qed.

Lemma resetFlags_testbit (val i : Z) :
  0 ≤ val < UInt64_modulus → 0 ≤ i →
  Z.testbit (IndexesSerializationType.resetFlags val) i
  = Z.testbit val i && negb (i =? 8) && negb (i =? 9).
Proof.
  intros Hval Hi. unfold IndexesSerializationType.resetFlags.
  rewrite Z.land_spec.
  destruct (Z.testbit val i) eqn:Hbit; [|reflexivity]. cbn [andb].
  assert (Hi64 : i < 64).
  { destruct (Z_lt_le_dec i 64) as [|Hge]; [assumption|exfalso].
    assert (Hnone : Z.testbit val i = false); [|congruence].
    destruct (Z.eq_dec val 0) as [->|Hnz]; [apply Z.bits_0|].
    apply Z.bits_above_log2; [lia|].
    apply Z.lt_le_trans with 64; [|assumption].
    apply Z.log2_lt_pow2; unfold UInt64_modulus in Hval; lia. }
  unfold UInt64_modulus. rewrite Z.mod_pow2_bits_low by lia.
  rewrite Z.lnot_spec, Z.lor_spec by lia.
  unfold IndexesSerializationType.HasAdditionalKeysBit,
    IndexesSerializationType.NeedGlobalDictionaryBit.
  rewrite !Z.shiftl_1_l, !Z.pow2_bits_eqb by lia.
  rewrite negb_orb, andb_comm. f_equal; f_equal; apply Z.eqb_sym.
Qed.

(** ** Reading only shortens a buffer *)

Lemma on_stream_drop_length (stream other : StreamPtr) (n : nat) (bufs : Buffers) :
  (length (buffer_at (on_stream stream (drop n) bufs) other)
   ≤ length (buffer_at bufs other))%nat.
Proof.
  unfold on_stream, buffer_at. destruct (decide (stream = other)) as [->|Hne].
  - rewrite lookup_insert_eq. cbn. rewrite length_drop. lia.
  - rewrite lookup_insert_ne by done. lia.
Qed.

Lemma insert_rest_length (stream other : StreamPtr) (buf rest : list byte)
    (bufs : Buffers) (k : nat) :
  buffer_at bufs stream = buf → (length buf = k + length rest)%nat →
  (length (buffer_at (<[stream := rest]> bufs) other)
   ≤ length (buffer_at bufs other))%nat.
Proof.
  intros Hbuf Hlen. unfold buffer_at in *.
  destruct (decide (stream = other)) as [->|Hne].
  - rewrite lookup_insert_eq. cbn. rewrite Hbuf. lia.
  - rewrite lookup_insert_ne by done. lia.
Qed.

(** ** C5, C6: the header word *)

Lemma serialized_word_create (column : ColumnVector) (a g : bool) :
  ∃ code flags,
    IndexesSerializationType.serialized_word (IndexesSerializationType.create column a g)
    = code + 256 * flags ∧ 0 ≤ code ≤ 3 ∧ 0 ≤ flags ≤ 3.
Proof.
  destruct column as [[] data], a, g; vm_compute;
    first [ by exists 0, 0 | by exists 0, 1 | by exists 0, 2 | by exists 0, 3
          | by exists 1, 0 | by exists 1, 1 | by exists 1, 2 | by exists 1, 3
          | by exists 2, 0 | by exists 2, 1 | by exists 2, 2 | by exists 2, 3
          | by exists 3, 0 | by exists 3, 1 | by exists 3, 2 | by exists 3, 3 ].
Qed.

Lemma header_well_formed_of_cases (code flags : Z) :
  0 ≤ code ≤ 3 → 0 ≤ flags ≤ 3 → header_well_formed (code + 256 * flags).
Proof.
  intros Hc Hf.
  assert (Hcases : (code = 0 ∨ code = 1 ∨ code = 2 ∨ code = 3)
                   ∧ (flags = 0 ∨ flags = 1 ∨ flags = 2 ∨ flags = 3)) by lia.
  destruct Hcases as [[->|[->|[->| ->]]] [->|[->|[->| ->]]]];
    (split; [|split]); vm_compute; try split; congruence.
Qed.

Lemma deserialize_serialize_cases (code flags : Z) (rest : ReadBuffer) :
  0 ≤ code ≤ 3 → 0 ≤ flags ≤ 3 →
  ∃ descriptor,
    IndexesSerializationType.deserialize (le_split 8 (code + 256 * flags) ++ rest)
    = Ok (descriptor, rest)
    ∧ IndexesSerializationType.serialized_word descriptor = code + 256 * flags.
Proof.
  intros Hc Hf.
  assert (Hcases : (code = 0 ∨ code = 1 ∨ code = 2 ∨ code = 3)
                   ∧ (flags = 0 ∨ flags = 1 ∨ flags = 2 ∨ flags = 3)) by lia.
  unfold IndexesSerializationType.deserialize.
  rewrite readIntBinary_le_split by (unfold UInt64_modulus; lia).
  destruct Hcases as [[->|[->|[->| ->]]] [->|[->|[->| ->]]]];
    (eexists; split; [reflexivity|vm_compute; reflexivity]).
Qed.

(** C5.  Every header word that [IndexesSerializationType::serialize]
    writes for a descriptor built from an indexes column has only its width
    byte and bits 8 and 9 in use, with a width code among 0..3; and a word of
    that shape, once deserialized, is serialized again to the same eight
    bytes. *)
Theorem header_serialize_well_formed_and_round_trip
    (column : ColumnVector) (has_additional_keys need_global_dictionary : bool)
    (word : Z) (buffer rest : list byte) :
  (header_well_formed
     (IndexesSerializationType.serialized_word
        (IndexesSerializationType.create column has_additional_keys need_global_dictionary))
   ∧ IndexesSerializationType.serialize
       (IndexesSerializationType.create column has_additional_keys need_global_dictionary)
       buffer
     = buffer ++ le_split 8
         (IndexesSerializationType.serialized_word
            (IndexesSerializationType.create column has_additional_keys
               need_global_dictionary)))
  ∧ (header_well_formed word →
     ∃ descriptor,
       IndexesSerializationType.deserialize (le_split 8 word ++ rest)
       = Ok (descriptor, rest)
       ∧ IndexesSerializationType.serialized_word descriptor = word
       ∧ IndexesSerializationType.serialize descriptor [] = le_split 8 word).
Proof.
  split; [split|].
  - destruct (serialized_word_create column has_additional_keys need_global_dictionary)
      as (code & flags & -> & Hc & Hf).
    by apply header_well_formed_of_cases.
  - reflexivity.
  - intros Hwf. apply header_well_formed_cases in Hwf as (code & flags & -> & Hc & Hf).
    destruct (deserialize_serialize_cases code flags rest Hc Hf) as (d & Hd & Hw).
    exists d. split; [exact Hd|]. split; [exact Hw|].
    unfold IndexesSerializationType.serialize, writeIntBinary. by rewrite Hw.
Qed.

Lemma header_serialize_well_formed_and_round_trip_witness :
  header_well_formed 769
  ∧ ∃ descriptor,
      IndexesSerializationType.deserialize (le_split 8 769 ++ [])
      = Ok (descriptor, [])
      ∧ IndexesSerializationType.serialized_word descriptor = 769
      ∧ IndexesSerializationType.serialize descriptor [] = le_split 8 769.
Proof.
  assert (Hwf : header_well_formed 769).
  { split; [|split]; vm_compute; try split; congruence. }
  split; [exact Hwf|].
  exact (proj2 (header_serialize_well_formed_and_round_trip
                  (mkColumnVector UInt16 [0; 300]) true true 769 [] []) Hwf).
Defined.

(** C6.  [IndexesSerializationType::deserialize] takes one 64-bit word from
    the buffer; what it checks is that word with bits 8 and 9 cleared, and
    it throws LOGICAL_ERROR exactly when that exceeds 3 (otherwise it returns
    the descriptor and the rest of the buffer); the word 0x400 is refused. *)
Theorem header_deserialize_fails_iff (buffer rest : ReadBuffer) (val : Z) :
  readIntBinary buffer = Ok (val, rest) →
  (∀ i, 0 ≤ i →
     Z.testbit (IndexesSerializationType.resetFlags val) i
     = Z.testbit val i && negb (i =? 8) && negb (i =? 9))
  ∧ (IndexesSerializationType.deserialize buffer = Throw LOGICAL_ERROR
     ↔ 3 < IndexesSerializationType.resetFlags val)
  ∧ (IndexesSerializationType.resetFlags val ≤ 3 →
     IndexesSerializationType.deserialize buffer
     = Ok (IndexesSerializationType.mk (IndexesSerializationType.resetFlags val)
             (Z.testbit val 9) (Z.testbit val 8), rest))
  ∧ IndexesSerializationType.deserialize (le_split 8 1024 ++ rest) = Throw LOGICAL_ERROR.
Proof.
  intros Hread. pose proof (readIntBinary_inv _ _ _ Hread) as [Hval _].
  split; [intros i Hi; by apply resetFlags_testbit|].
  assert (Hbit : ∀ n, 0 ≤ n → negb (Z.land val (Z.shiftl 1 n) =? 0) = Z.testbit val n).
  { intros n Hn. rewrite Z.shiftl_1_l.
    destruct (Z.testbit val n) eqn:Hb.
    - apply negb_true_iff, Z.eqb_neq. intros Hz.
      apply (f_equal (λ x, Z.testbit x n)) in Hz.
      rewrite Z.land_spec, Z.pow2_bits_true, Hb, Z.bits_0 in Hz by lia. discriminate.
    - apply negb_false_iff, Z.eqb_eq. apply Z.bits_inj'. intros m Hm.
      rewrite Z.land_spec, Z.bits_0, Z.pow2_bits_eqb by lia.
      destruct (Z.eqb_spec n m) as [->|]; [by rewrite Hb|by rewrite andb_false_r]. }
  unfold IndexesSerializationType.deserialize. rewrite Hread. cbn.
  unfold IndexesSerializationType.checkType, IndexesSerializationType.TUInt64.
  split; [|split].
  - destruct (decide _) as [Hle|Hgt]; cbn; split; intros; try discriminate; try lia; done.
  - intros Hle. destruct (decide _) as [_|]; [|lia]. cbn.
    unfold IndexesSerializationType.HasAdditionalKeysBit,
      IndexesSerializationType.NeedGlobalDictionaryBit.
    by rewrite !Hbit by lia.
  - rewrite readIntBinary_le_split by (unfold UInt64_modulus; lia). reflexivity.
Qed.

Lemma header_deserialize_fails_iff_witness :
  readIntBinary (le_split 8 1024) = Ok (1024, [])
  ∧ (IndexesSerializationType.deserialize (le_split 8 1024) = Throw LOGICAL_ERROR
     ↔ 3 < IndexesSerializationType.resetFlags 1024).
Proof.
  assert (Hread : readIntBinary (le_split 8 1024) = Ok (1024, [])) by reflexivity.
  split; [exact Hread|].
  exact (proj1 (proj2 (header_deserialize_fails_iff (le_split 8 1024) [] 1024 Hread))).
Defined.

(** ** C9: the version gate of the decoder's prefix *)

(** C9.  With a keys stream to read from, [deserializeBinaryBulkStatePrefix]
    takes one 64-bit word from it and throws LOGICAL_ERROR exactly when the
    word is not 1; when it is 1 the call succeeds, leaves the rest of the
    stream, and installs a state that has no global dictionary and no
    pending rows. *)
Theorem deserialize_prefix_version_gate {V : Type}
    (settings : DeserializeBinaryBulkSettings.t)
    (state : option (DeserializeBinaryBulkState V)) (bufs : Buffers)
    (stream : StreamPtr) (version : Z) (rest : ReadBuffer) :
  DeserializeBinaryBulkSettings.getter settings
    (DeserializeBinaryBulkSettings.path settings ++ [DictionaryKeys]) = Some stream →
  readIntBinary (buffer_at bufs stream) = Ok (version, rest) →
  (deserializeBinaryBulkStatePrefix settings state bufs = Throw LOGICAL_ERROR
   ↔ version ≠ 1)
  ∧ (version = 1 →
     ∃ installed,
       deserializeBinaryBulkStatePrefix settings state bufs
       = Ok (Some (DeserializeState installed), <[stream := rest]> bufs)
       ∧ KeysSerializationVersion.value
           (DeserializeStateWithDictionary.key_version installed) = 1
       ∧ DeserializeStateWithDictionary.global_dictionary installed = None
       ∧ DeserializeStateWithDictionary.additional_keys installed = None
       ∧ DeserializeStateWithDictionary.num_pending_rows installed = 0).
Proof.
  intros Hstream Hread. unfold deserializeBinaryBulkStatePrefix.
  rewrite Hstream, Hread. cbn.
  unfold DeserializeStateWithDictionary.create, KeysSerializationVersion.create,
    KeysSerializationVersion.checkVersion,
    KeysSerializationVersion.SingleDictionaryWithAdditionalKeysPerBlock.
  destruct (decide (version ≠ 1)) as [Hne|Heq]; cbn.
  - split; [done|]. intros ->. by destruct Hne.
  - split; [split; [discriminate|done]|]. intros _. eexists. split; [reflexivity|]. cbn.
    repeat split. by destruct (decide (version = 1)).
Qed.

Lemma deserialize_prefix_version_gate_witness :
  DeserializeBinaryBulkSettings.getter deserialize_settings
    (DeserializeBinaryBulkSettings.path deserialize_settings ++ [DictionaryKeys])
  = Some 0%nat
  ∧ readIntBinary (buffer_at {[ 0%nat := le_split 8 2 ]} 0%nat) = Ok (2, [])
  ∧ (deserializeBinaryBulkStatePrefix (V := Z) deserialize_settings None
       {[ 0%nat := le_split 8 2 ]} = Throw LOGICAL_ERROR
     ↔ 2 ≠ 1).
Proof.
  assert (Hstream : DeserializeBinaryBulkSettings.getter deserialize_settings
            (DeserializeBinaryBulkSettings.path deserialize_settings ++ [DictionaryKeys])
            = Some 0%nat)
    by reflexivity.
  assert (Hread : readIntBinary (buffer_at {[ 0%nat := le_split 8 2 ]} 0%nat) = Ok (2, []))
    by reflexivity.
  split; [exact Hstream|]. split; [exact Hread|].
  exact (proj1 (deserialize_prefix_version_gate deserialize_settings None
                  {[ 0%nat := le_split 8 2 ]} 0%nat 2 [] Hstream Hread)).
Defined.

(** ** C8: streams that the getter does not give *)

Section StreamAbsence.

Context {V : Type} `{EqDecision V}.
Variable dictionary_type : DataTypePtr V.

(** C8.  [serializeBinaryBulkWithMultipleStreams] first asks the getter for
    the keys and the indexes stream.  With neither, the call returns and
    leaves the state and every buffer as they were (whatever the state, even
    a null one); with exactly one of them it throws LOGICAL_ERROR. *)
Theorem serialize_stream_absence
    (column : ColumnWithDictionary V) (offset limit : Z)
    (settings : SerializeBinaryBulkSettings.t)
    (state : option (SerializeBinaryBulkState V)) (bufs : Buffers) :
  let keys_stream :=
    SerializeBinaryBulkSettings.getter settings
      (SerializeBinaryBulkSettings.path settings ++ [DictionaryKeys]) in
  let indexes_stream :=
    SerializeBinaryBulkSettings.getter settings
      (SerializeBinaryBulkSettings.path settings ++ [DictionaryIndexes]) in
  (keys_stream = None → indexes_stream = None →
   serializeBinaryBulkWithMultipleStreams dictionary_type column offset limit
     settings state bufs = Ok (state, bufs))
  ∧ (keys_stream = None → is_Some indexes_stream →
     serializeBinaryBulkWithMultipleStreams dictionary_type column offset limit
       settings state bufs = Throw LOGICAL_ERROR)
  ∧ (is_Some keys_stream → indexes_stream = None →
     serializeBinaryBulkWithMultipleStreams dictionary_type column offset limit
       settings state bufs = Throw LOGICAL_ERROR).
Proof.
  intros keys_stream indexes_stream. unfold serializeBinaryBulkWithMultipleStreams.
  fold keys_stream indexes_stream.
  split; [|split].
  - by intros -> ->.
  - by intros -> [? ->].
  - by intros [? ->] ->.
Qed.

End StreamAbsence.

Lemma serialize_stream_absence_witness :
  SerializeBinaryBulkSettings.getter
    (SerializeBinaryBulkSettings.mk keys_stream_only [] 16 false) [DictionaryKeys]
  = Some 0%nat
  ∧ SerializeBinaryBulkSettings.getter
      (SerializeBinaryBulkSettings.mk keys_stream_only [] 16 false) [DictionaryIndexes]
    = None
  ∧ serializeBinaryBulkWithMultipleStreams UInt8_dictionary_type column_1234 0 4
      (SerializeBinaryBulkSettings.mk keys_stream_only [] 16 false)
      state_after_prefix buffers_after_prefix
    = Throw LOGICAL_ERROR.
Proof.
  split; [reflexivity|]. split; [reflexivity|].
  exact (proj2 (proj2 (serialize_stream_absence UInt8_dictionary_type column_1234 0 4
                         (SerializeBinaryBulkSettings.mk keys_stream_only [] 16 false)
                         state_after_prefix buffers_after_prefix))
           (mk_is_Some _ _ eq_refl) eq_refl).
Defined.

(** ** C3: what the suffix writes *)

Section Suffix.

Context {V : Type} `{EqDecision V}.
Variable dictionary_type : DataTypePtr V.

(** C3, as the code has it.  The suffix looks at whether the state holds a
    dictionary at all (the pointer is not null), not at whether that
    dictionary has entries.  With a dictionary and [max_dictionary_size ≠ 0]
    it appends to the keys stream the number of nested keys and their bulk
    form (for an empty dictionary: the count 0 and the bulk form of no keys),
    or throws LOGICAL_ERROR when the getter gives no keys stream; without a
    dictionary or with [max_dictionary_size = 0] it writes nothing.  No
    buffer other than the keys stream's is touched, and the state stays. *)
Theorem suffix_writes_iff_dictionary_present
    (settings : SerializeBinaryBulkSettings.t)
    (s : SerializeStateWithDictionary.t V) (bufs : Buffers) :
  KeysSerializationVersion.value (SerializeStateWithDictionary.key_version s) = 1 →
  let state := Some (SerializeState s) in
  let keys_stream :=
    SerializeBinaryBulkSettings.getter settings
      (SerializeBinaryBulkSettings.path settings ++ [DictionaryKeys]) in
  let max_dictionary_size := SerializeBinaryBulkSettings.max_dictionary_size settings in
  (∀ d stream,
     SerializeStateWithDictionary.global_dictionary s = Some d →
     max_dictionary_size ≠ 0 → keys_stream = Some stream →
     ∃ bufs',
       serializeBinaryBulkStateSuffix dictionary_type settings state bufs
       = Ok (state, bufs')
       ∧ buffer_at bufs' stream
         = serializeBinaryBulk (removeNullable dictionary_type)
             (getNestedNotNullableColumn d)
             (buffer_at bufs stream
              ++ le_split 8 (Z.of_nat (length (getNestedNotNullableColumn d))))
             0 (Z.of_nat (length (getNestedNotNullableColumn d)))
       ∧ ∀ other : StreamPtr, other ≠ stream → bufs' !! other = bufs !! other)
  ∧ (∀ d,
       SerializeStateWithDictionary.global_dictionary s = Some d →
       max_dictionary_size ≠ 0 → keys_stream = None →
       serializeBinaryBulkStateSuffix dictionary_type settings state bufs
       = Throw LOGICAL_ERROR)
  ∧ (SerializeStateWithDictionary.global_dictionary s = None ∨ max_dictionary_size = 0 →
     serializeBinaryBulkStateSuffix dictionary_type settings state bufs
     = Ok (state, bufs)).
Proof.
  intros Hversion state keys_stream max_dictionary_size.
  unfold serializeBinaryBulkStateSuffix. cbn. rewrite Hversion. cbn.
  fold keys_stream max_dictionary_size.
  split; [|split].
  - intros d stream -> Hmax ->. destruct (decide _) as [_|]; [|done].
    eexists. split; [reflexivity|]. split.
    + unfold on_stream, buffer_at, writeIntBinary.
      by rewrite !lookup_insert_eq.
    + intros other Hother. unfold on_stream. by rewrite !lookup_insert_ne.
  - intros d -> Hmax ->. by destruct (decide _).
  - intros [-> | Hmax]; [done|].
    destruct (SerializeStateWithDictionary.global_dictionary s); [|done].
    by destruct (decide _).
Qed.

End Suffix.

Lemma suffix_writes_iff_dictionary_present_witness :
  KeysSerializationVersion.value
    (SerializeStateWithDictionary.key_version
       (SerializeStateWithDictionary.mk (KeysSerializationVersion.mk 1)
          (Some (mkColumnUnique false ([] : list Z))))) = 1
  ∧ ∃ bufs',
      serializeBinaryBulkStateSuffix UInt8_dictionary_type (serialize_settings 16 false)
        state_after_prefix buffers_after_prefix
      = Ok (state_after_prefix, bufs')
      ∧ buffer_at bufs' 0%nat = le_split 8 1 ++ le_split 8 0.
Proof.
  split; [reflexivity|].
  destruct (proj1 (suffix_writes_iff_dictionary_present UInt8_dictionary_type
                     (serialize_settings 16 false)
                     (SerializeStateWithDictionary.mk (KeysSerializationVersion.mk 1)
                        (Some (mkColumnUnique false [])))
                     buffers_after_prefix eq_refl)
                  (mkColumnUnique false []) 0%nat eq_refl ltac:(discriminate) eq_refl)
    as (bufs' & Hcall & Hkeys & _).
  exists bufs'. split; [exact Hcall|]. rewrite Hkeys. reflexivity.
Defined.

(** The specification's wording of C3 fails where the dictionary exists and
    is empty: after the prefix alone, with [max_dictionary_size = 16], the
    suffix appends the count word 0 to the keys stream. *)
Lemma suffix_writes_for_empty_dictionary :
  ¬ suffix_writes_iff_dictionary_nonempty UInt8_dictionary_type
      (serialize_settings 16 false)
      (SerializeStateWithDictionary.mk (KeysSerializationVersion.mk 1)
         (Some (mkColumnUnique false [])))
      buffers_after_prefix 0%nat.
Proof.
  intros Hclaim.
  destruct (Hclaim state_after_prefix
              (on_stream 0%nat (λ ostr, ostr ++ [])
                 (on_stream 0%nat (writeIntBinary 0) buffers_after_prefix))
              eq_refl) as [_ Hkeeps].
  assert (Hne : buffer_at
                  (on_stream 0%nat (λ ostr, ostr ++ [])
                     (on_stream 0%nat (writeIntBinary 0) buffers_after_prefix)) 0%nat
                ≠ buffer_at buffers_after_prefix 0%nat).
  { vm_compute. discriminate. }
  apply Hne, Hkeeps. intros [(d & [= <-] & Hnonempty) _]. by apply Hnonempty.
Qed.

(** ** First occurrences *)

Lemma first_occurrences_elem_of (l : list Z) (x : Z) :
  x ∈ first_occurrences l ↔ x ∈ l.
Proof.
  induction l as [|a l IH]; cbn; [done|].
  rewrite !elem_of_cons, list_elem_of_filter, IH.
  destruct (decide (x = a)) as [->|Hne]; [by split; left|].
  split; [intros [?|[_ ?]]; [done|by right]|intros [?|?]; [done|by right]].
Qed.

Lemma first_occurrences_NoDup (l : list Z) : NoDup (first_occurrences l).
Proof.
  induction l as [|a l IH]; cbn; constructor.
  - rewrite list_elem_of_filter. by intros [Hne _].
  - by apply NoDup_filter.
Qed.

Lemma first_occurrences_snoc (l : list Z) (x : Z) :
  first_occurrences (l ++ [x])
  = if decide (x ∈ l) then first_occurrences l else first_occurrences l ++ [x].
Proof.
  induction l as [|a l IH]; cbn.
  - destruct (decide (x ∈ [])) as [Hin|]; [by apply elem_of_nil in Hin|done].
  - rewrite IH. destruct (decide (x ∈ l)) as [Hin|Hnin].
    + destruct (decide (x ∈ a :: l)) as [|Hn]; [done|].
      destruct Hn. by right.
    + rewrite filter_app. destruct (decide (x = a)) as [->|Hne].
      * destruct (decide (a ∈ a :: l)) as [|Hn]; [|destruct Hn; by left].
        rewrite filter_cons. destruct (decide (a ≠ a)); [done|]. by rewrite app_nil_r.
      * destruct (decide (x ∈ a :: l)) as [Hin|_].
        { apply elem_of_cons in Hin as [?|?]; done. }
        rewrite filter_cons. by destruct (decide (x ≠ a)).
Qed.

Lemma position_of_id_lookup (l : list Z) (x : Z) :
  x ∈ l → l !! position_of_id x l = Some x.
Proof.
  induction l as [|a l IH]; intros Hin; [by apply elem_of_nil in Hin|].
  cbn. destruct (decide (a = x)) as [->|Hne]; [done|].
  apply elem_of_cons in Hin as [->|Hin]; [done|]. by apply IH.
Qed.

Lemma position_of_id_lt (l : list Z) (x : Z) :
  x ∈ l → (position_of_id x l < length l)%nat.
Proof.
  intros Hin. eapply lookup_lt_Some. by apply position_of_id_lookup.
Qed.

Lemma position_of_id_snoc (l : list Z) (x y : Z) :
  position_of_id x (l ++ [y])
  = if decide (x ∈ l) then position_of_id x l
    else if decide (y = x) then length l else S (length l).
Proof.
  induction l as [|a l IH]; cbn.
  - destruct (decide (x ∈ [])) as [Hin|]; [by apply elem_of_nil in Hin|done].
  - destruct (decide (a = x)) as [->|Hne].
    + destruct (decide (x ∈ x :: l)) as [|Hn]; [done|]. destruct Hn. by left.
    + rewrite IH. destruct (decide (x ∈ l)) as [Hin|Hnin].
      * destruct (decide (x ∈ a :: l)) as [|Hn]; [done|]. destruct Hn. by right.
      * destruct (decide (x ∈ a :: l)) as [Hin|_].
        { apply elem_of_cons in Hin as [?|?]; done. }
        by destruct (decide (y = x)).
Qed.

(** Distinct values of a range are no more than the range holds. *)
Lemma NoDup_bounded_length (l : list Z) (n : Z) :
  NoDup l → Forall (λ x, 0 ≤ x < n) l → Z.of_nat (length l) ≤ Z.max 0 n.
Proof.
  intros Hnodup Hrange.
  assert (Hsub : l ⊆+ seqZ 0 n).
  { apply NoDup_submseteq; [done|]. intros x Hx.
    rewrite Forall_forall in Hrange. apply elem_of_seqZ. specialize (Hrange x Hx). lia. }
  apply submseteq_length in Hsub. rewrite length_seqZ in Hsub. lia.
Qed.

(** ** C4: the rows one call serializes *)

Section Limit.

Context {V : Type} `{EqDecision V}.
Variable dictionary_type : DataTypePtr V.

Lemma cutAndCompact_values (column : ColumnWithDictionary V) (offset limit : Z) :
  valid_column column →
  column_values (removeNullable dictionary_type)
    (cutAndCompact (removeNullable dictionary_type) column offset limit)
  = take (Z.to_nat limit)
      (drop (Z.to_nat offset) (column_values (removeNullable dictionary_type) column)).
Proof.
  intros Hvalid. unfold column_values, cutAndCompact. cbn.
  rewrite <- fmap_drop, <- fmap_take, <- list_fmap_compose.
  apply Forall_fmap_ext.
  assert (Hsub : Forall (λ id, 0 ≤ id < ColumnUnique_size (getDictionary column))
                   (take (Z.to_nat limit)
                      (drop (Z.to_nat offset) (getData (getIndexes column))))).
  { by apply Forall_take, Forall_drop. }
  set (sub := take _ _) in *.
  rewrite Forall_forall in Hsub |- *. intros id Hid. specialize (Hsub id Hid).
  cbn. unfold ColumnUnique_at. cbn.
  set (shift := null_offset (is_nullable (getDictionary column))).
  destruct (decide (id < Z.of_nat shift)) as [Hnull|Hvalue].
  - destruct (decide (Z.to_nat id < shift)%nat); [done|lia].
  - destruct (decide (Z.to_nat (Z.of_nat (shift + _)) < shift)%nat); [lia|].
    destruct (decide (Z.to_nat id < shift)%nat); [lia|].
    f_equal. rewrite Nat2Z.id.
    replace (shift + _ - shift)%nat
      with (position_of_id id
              (first_occurrences (filter (λ id, Z.of_nat shift ≤ id) sub))) by lia.
    assert (Hin : id ∈ first_occurrences (filter (λ id, Z.of_nat shift ≤ id) sub)).
    { apply first_occurrences_elem_of, list_elem_of_filter. split; [lia|done]. }
    apply nth_lookup_Some. rewrite list_lookup_fmap.
    by rewrite (position_of_id_lookup _ _ Hin).
Qed.


Lemma serialized_limit_spec (column_size offset limit : Z) :
  0 ≤ offset ≤ column_size → column_size < UInt64_modulus → 0 ≤ limit →
  serialized_limit column_size offset limit
  = if decide (limit = 0) then column_size - offset
    else Z.min limit (column_size - offset).
Proof.
  intros Ho Hs Hl. unfold serialized_limit.
  rewrite Z.mod_small by lia.
  destruct (decide (limit ≠ 0)), (decide (limit = 0)); done.
Qed.

Lemma buffer_at_on_stream (stream : StreamPtr) (f : list byte → list byte)
    (bufs : Buffers) :
  buffer_at (on_stream stream f bufs) stream = f (buffer_at bufs stream).
Proof. unfold on_stream, buffer_at at 1. by rewrite lookup_insert_eq. Qed.



End Limit.


(** ** C7: mapIndexWithOverflow *)

Lemma position_of_id_NoDup (l : list Z) (i : nat) (x : Z) :
  NoDup l → l !! i = Some x → position_of_id x l = i.
Proof.
  intros Hnodup. revert i. induction Hnodup as [|a l Hnotin Hnodup IH]; intros i Hi.
  - by rewrite lookup_nil in Hi.
  - cbn. destruct i as [|i]; cbn in Hi.
    + injection Hi as ->. by destruct (decide (x = x)).
    + destruct (decide (a = x)) as [->|Hne].
      * destruct Hnotin. by eapply list_elem_of_lookup_2.
      * f_equal. by apply IH.
Qed.

Lemma below_max_distinct_range (T : UIntType) (max : Z) (index : list Z) :
  Forall (λ v, 0 ≤ v < modulus T) index →
  Forall (λ v, 0 ≤ v < Z.min max (modulus T)) (below_max_distinct max index).
Proof.
  intros Hrange. rewrite Forall_forall in Hrange |- *. intros v Hv.
  apply first_occurrences_elem_of, list_elem_of_filter in Hv as [Hlt Hin].
  specialize (Hrange v Hin). lia.
Qed.

Lemma below_max_distinct_length (T : UIntType) (max : Z) (index : list Z) :
  Forall (λ v, 0 ≤ v < modulus T) index →
  Z.of_nat (length (below_max_distinct max index)) ≤ Z.max 0 (Z.min max (modulus T)).
Proof.
  intros Hrange. apply NoDup_bounded_length.
  - apply first_occurrences_NoDup.
  - by apply below_max_distinct_range.
Qed.

Lemma below_max_distinct_snoc (max : Z) (index : list Z) (x : Z) :
  below_max_distinct max (index ++ [x])
  = if decide (x < max)
    then if decide (x ∈ below_max_distinct max index)
         then below_max_distinct max index
         else below_max_distinct max index ++ [x]
    else below_max_distinct max index.
Proof.
  unfold below_max_distinct. rewrite filter_app, filter_cons, filter_nil.
  destruct (decide (x < max)) as [Hlt|Hge]; [|by rewrite app_nil_r].
  rewrite first_occurrences_snoc.
  destruct (decide (x ∈ filter _ index)) as [Hin|Hnin];
    destruct (decide (x ∈ first_occurrences _)) as [Hin'|Hnin']; try done.
  - destruct Hnin'. by apply first_occurrences_elem_of.
  - destruct Hnin. by apply first_occurrences_elem_of.
Qed.

Lemma modulus_pos (T : UIntType) : 0 < modulus T.
Proof. by destruct T. Qed.

(** The hash map of the first loop: each distinct value below [max] under
    its rank. *)
Lemma mapIndex_hash_map_spec (T : UIntType) (max : Z) (index : list Z) :
  Forall (λ v, 0 ≤ v < modulus T) index →
  size (mapIndex_hash_map T index max) = length (below_max_distinct max index)
  ∧ ∀ k, mapIndex_hash_map T index max !! k
         = if decide (k ∈ below_max_distinct max index)
           then Some (Z.of_nat (position_of_id k (below_max_distinct max index)))
           else None.
Proof.
  induction index as [|x index IH] using rev_ind; intros Hrange.
  - split; [done|]. intros k. unfold mapIndex_hash_map, below_max_distinct. cbn.
    rewrite lookup_empty. destruct (decide (k ∈ [])) as [Hin|]; [|done].
    by apply elem_of_nil in Hin.
  - apply Forall_app in Hrange as [Hrange Hx].
    destruct (IH Hrange) as [Hsize Hlookup].
    pose proof (below_max_distinct_length T max (index ++ [x])
                  ltac:(apply Forall_app; by split)) as Hbound.
    apply Forall_singleton in Hx.
    unfold mapIndex_hash_map in *. rewrite foldl_snoc.
    rewrite below_max_distinct_snoc in Hbound |- *.
    set (hash_map := foldl _ ∅ index) in *.
    set (distinct := below_max_distinct max index) in *.
    destruct (decide (x < max)) as [Hlt|Hge]; [|by split].
    unfold hash_map_insert. rewrite (Hlookup x).
    destruct (decide (x ∈ distinct)) as [Hin|Hnin]; [by split|].
    rewrite length_app in Hbound. cbn in Hbound.
    pose proof (modulus_pos T).
    assert (Hrank : to_UInt T (hash_map_size hash_map) = Z.of_nat (length distinct)).
    { unfold to_UInt, hash_map_size. rewrite Hsize. apply Z.mod_small. lia. }
    rewrite Hrank. split.
    + rewrite map_size_insert_None, length_app; [cbn; lia|].
      rewrite (Hlookup x). by destruct (decide (x ∈ distinct)).
    + intros k. rewrite position_of_id_snoc.
      destruct (decide (k = x)) as [->|Hne].
      * rewrite lookup_insert_eq.
        destruct (decide (x ∈ distinct ++ [x])) as [_|Hn].
        -- destruct (decide (x ∈ distinct)); [done|]. by destruct (decide (x = x)).
        -- destruct Hn. apply elem_of_app. right. by apply list_elem_of_singleton.
      * rewrite lookup_insert_ne by done. rewrite (Hlookup k).
        destruct (decide (k ∈ distinct)) as [Hk|Hk].
        -- destruct (decide (k ∈ distinct ++ [x])) as [_|Hn]; [done|].
           destruct Hn. apply elem_of_app. by left.
        -- destruct (decide (k ∈ distinct ++ [x])) as [Hk'|_]; [|done].
           apply elem_of_app in Hk' as [?|Hk']; [done|].
           by apply list_elem_of_singleton in Hk'.
Qed.

(** The second loop, over any map that sends keys to distinct places of the
    column: each key lands at its place. *)
Lemma map_fold_places (m : gmap Z Z) (init : list Z) :
  (∀ k r, m !! k = Some r → ∃ i : nat, r = Z.of_nat i ∧ (i < length init)%nat) →
  (∀ k1 k2 r, m !! k1 = Some r → m !! k2 = Some r → k1 = k2) →
  length (map_fold (λ first second data, <[Z.to_nat second := first]> data) init m)
  = length init
  ∧ ∀ k r, m !! k = Some r →
      map_fold (λ first second data, <[Z.to_nat second := first]> data) init m
        !! Z.to_nat r = Some k.
Proof.
  apply (map_fold_weak_ind (λ data (m : gmap Z Z),
    (∀ k r, m !! k = Some r → ∃ i : nat, r = Z.of_nat i ∧ (i < length init)%nat) →
    (∀ k1 k2 r, m !! k1 = Some r → m !! k2 = Some r → k1 = k2) →
    length data = length init ∧ ∀ k r, m !! k = Some r → data !! Z.to_nat r = Some k)).
  - intros _ _. split; [done|]. intros k r Hk. by rewrite lookup_empty in Hk.
  - intros key place m' data Hfresh IH Hplaces Hinj.
    assert (Hkeep : ∀ k r, m' !! k = Some r → <[key := place]> m' !! k = Some r).
    { intros k r Hk. rewrite lookup_insert_ne; [done|]. intros ->. congruence. }
    destruct IH as [Hlen Hdata].
    { intros k r Hk. eapply Hplaces. by apply Hkeep. }
    { intros k1 k2 r Hk1 Hk2. eapply Hinj; by apply Hkeep. }
    destruct (Hplaces key place) as (i & -> & Hi); [apply lookup_insert_eq|].
    split; [by rewrite length_insert|].
    intros k r Hk. destruct (decide (key = k)) as [->|Hne].
    + rewrite lookup_insert_eq in Hk. injection Hk as <-.
      apply list_lookup_insert_eq. lia.
    + rewrite lookup_insert_ne in Hk by done.
      destruct (Hplaces k r) as (j & -> & Hj); [by apply Hkeep|].
      rewrite list_lookup_insert_ne; [by apply Hdata|].
      rewrite !Nat2Z.id. intros ->. apply Hne.
      eapply Hinj; [apply lookup_insert_eq|by apply Hkeep].
Qed.

Lemma mapIndex_index_data_spec (T : UIntType) (max : Z) (index : list Z) :
  Forall (λ v, 0 ≤ v < modulus T) index →
  mapIndex_index_data (mapIndex_hash_map T index max) = below_max_distinct max index.
Proof.
  intros Hrange. destruct (mapIndex_hash_map_spec T max index Hrange) as [Hsize Hlookup].
  set (hash_map := mapIndex_hash_map T index max) in *.
  set (distinct := below_max_distinct max index) in *.
  assert (Hfound : ∀ k r, hash_map !! k = Some r →
            k ∈ distinct ∧ r = Z.of_nat (position_of_id k distinct)).
  { intros k r Hk. rewrite Hlookup in Hk.
    destruct (decide (k ∈ distinct)); [|done]. by injection Hk as <-. }
  destruct (map_fold_places hash_map (replicate (size hash_map) 0)) as [Hlen Hdata].
  - intros k r Hk. destruct (Hfound k r Hk) as [Hin ->].
    eexists. split; [done|]. rewrite length_replicate, Hsize.
    by apply position_of_id_lt.
  - intros k1 k2 r Hk1 Hk2.
    destruct (Hfound k1 r Hk1) as [Hin1 ->]. destruct (Hfound k2 _ Hk2) as [Hin2 Heq].
    apply Nat2Z.inj in Heq.
    pose proof (position_of_id_lookup _ _ Hin1) as H1.
    pose proof (position_of_id_lookup _ _ Hin2) as H2.
    rewrite Heq in H1. congruence.
  - unfold mapIndex_index_data. rewrite length_replicate in Hlen.
    apply list_eq. intros i.
    destruct (distinct !! i) as [k|] eqn:Hi.
    + assert (Hin : k ∈ distinct) by (by eapply list_elem_of_lookup_2).
      pose proof (position_of_id_NoDup _ _ _ (first_occurrences_NoDup _) Hi) as Hpos.
      specialize (Hdata k (Z.of_nat i)). rewrite Nat2Z.id in Hdata. apply Hdata.
      rewrite Hlookup. destruct (decide (k ∈ distinct)); [|done].
      unfold distinct, below_max_distinct in *. by rewrite Hpos.
    + apply lookup_ge_None. apply lookup_ge_None in Hi. lia.
Qed.

Lemma modulus_le_UInt64 (T : UIntType) : modulus T ≤ UInt64_modulus.
Proof. by destruct T. Qed.

(** C7.  For an indexes column of an unsigned type and a bound [max_size],
    [mapIndexWithOverflow] returns as map column the distinct values below
    the bound in the order of their first occurrence (so its length is their
    number N, and it sends each new id back to the index it stands for); it
    rewrites each index [v < max_size] to the rank of [v] in that order and
    each index [v ≥ max_size] to [v − max_size + N].  The column keeps its
    type and length. *)
Theorem mapIndexWithOverflow_spec (column : ColumnVector) (max_size : Z) :
  Forall (λ v, 0 ≤ v < modulus (value_type column)) (getData column) →
  0 ≤ max_size →
  value_type (mapIndexWithOverflow column max_size).1 = value_type column
  ∧ value_type (mapIndexWithOverflow column max_size).2 = value_type column
  ∧ getData (mapIndexWithOverflow column max_size).2
    = below_max_distinct max_size (getData column)
  ∧ length (getData (mapIndexWithOverflow column max_size).1)
    = length (getData column)
  ∧ ∀ (i : nat) (v : Z),
      getData column !! i = Some v →
      (v < max_size →
       ∃ rank : nat,
         getData (mapIndexWithOverflow column max_size).1 !! i = Some (Z.of_nat rank)
         ∧ below_max_distinct max_size (getData column) !! rank = Some v
         ∧ getData (mapIndexWithOverflow column max_size).2 !! rank = Some v)
      ∧ (max_size ≤ v →
         getData (mapIndexWithOverflow column max_size).1 !! i
         = Some (v - max_size
                 + Z.of_nat (length (below_max_distinct max_size (getData column))))).
Proof.
  intros Hrange Hmax. destruct column as [T index]. cbn in Hrange.
  unfold mapIndexWithOverflow, mapIndexWithOverflow_T.
  cbn [value_type getData fst snd].
  rewrite (mapIndex_index_data_spec T max_size index Hrange).
  destruct (mapIndex_hash_map_spec T max_size index Hrange) as [Hsize Hlookup].
  pose proof (below_max_distinct_length T max_size index Hrange) as Hbound.
  pose proof (modulus_pos T) as Hpos. pose proof (modulus_le_UInt64 T) as Hle.
  set (hash_map := mapIndex_hash_map T index max_size) in *.
  set (distinct := below_max_distinct max_size index) in *.
  split; [done|]. split; [done|]. split; [done|].
  split; [by rewrite length_fmap|].
  intros i v H. split.
  - intros Hlt.
    assert (Hin : v ∈ distinct).
    { apply first_occurrences_elem_of, list_elem_of_filter.
      split; [done|]. by eapply list_elem_of_lookup_2. }
    pose proof (position_of_id_lookup _ _ Hin) as Hrank.
    pose proof (position_of_id_lt _ _ Hin) as Hranklt.
    exists (position_of_id v distinct).
    rewrite list_lookup_fmap, H. cbn.
    destruct (decide (v < max_size)); [|done].
    rewrite (Hlookup v). destruct (decide (v ∈ distinct)); [|done]. cbn.
    repeat split; [|done..]. f_equal. apply Z.mod_small. lia.
  - intros Hge. rewrite list_lookup_fmap, H. cbn.
    destruct (decide (v < max_size)); [lia|]. f_equal.
    unfold hash_map_size. rewrite Hsize.
    rewrite Forall_forall in Hrange.
    specialize (Hrange v ltac:(by eapply list_elem_of_lookup_2)).
    unfold to_UInt. rewrite (Z.mod_small _ UInt64_modulus) by lia.
    apply Z.mod_small. lia.
Qed.

Lemma mapIndexWithOverflow_spec_witness :
  Forall (λ v, 0 ≤ v < modulus UInt8) [5; 1; 7; 1; 0; 9]
  ∧ 0 ≤ 6
  ∧ getData (mapIndexWithOverflow (mkColumnVector UInt8 [5; 1; 7; 1; 0; 9]) 6).2
    = below_max_distinct 6 [5; 1; 7; 1; 0; 9]
  ∧ getData (mapIndexWithOverflow (mkColumnVector UInt8 [5; 1; 7; 1; 0; 9]) 6).1
    = [0; 1; 4; 1; 2; 6].
Proof.
  assert (Hrange : Forall (λ v, 0 ≤ v < modulus (value_type (mkColumnVector UInt8 [5; 1; 7; 1; 0; 9])))
                     (getData (mkColumnVector UInt8 [5; 1; 7; 1; 0; 9]))).
  { repeat constructor; vm_compute; congruence. }
  assert (Hmax : 0 ≤ 6) by lia.
  split; [exact Hrange|]. split; [exact Hmax|]. split.
  - exact (proj1 (proj2 (proj2
             (mapIndexWithOverflow_spec (mkColumnVector UInt8 [5; 1; 7; 1; 0; 9]) 6
                Hrange Hmax)))).
  - vm_compute. reflexivity.
Defined.

(** ** What the decoder's readers do to the memory *)

Lemma bind_Ok_inv {A B : Type} (m : result A) (f : A → result B) (b : B) :
  m ≫= f = Ok b → ∃ a, m = Ok a ∧ f a = Ok b.
Proof. destruct m as [a|e]; [|discriminate]. intros Hf. by exists a. Qed.

Lemma buffer_at_insert_eq (stream : StreamPtr) (buf : list byte) (bufs : Buffers) :
  buffer_at (<[stream := buf]> bufs) stream = buf.
Proof. unfold buffer_at. by rewrite lookup_insert_eq. Qed.

Lemma buffer_at_insert_ne (stream other : StreamPtr) (buf : list byte) (bufs : Buffers) :
  stream ≠ other → buffer_at (<[stream := buf]> bufs) other = buffer_at bufs other.
Proof. intros Hne. unfold buffer_at. by rewrite lookup_insert_ne. Qed.

Lemma buffer_at_on_stream_ne (stream other : StreamPtr) (f : list byte → list byte)
    (bufs : Buffers) :
  stream ≠ other → buffer_at (on_stream stream f bufs) other = buffer_at bufs other.
Proof. intros Hne. unfold on_stream. by apply buffer_at_insert_ne. Qed.

Lemma shrinks_refl (mem : Memory) : shrinks mem mem.
Proof. by intros stream. Qed.

Lemma shrinks_trans (mem1 mem2 mem3 : Memory) :
  shrinks mem1 mem2 → shrinks mem2 mem3 → shrinks mem1 mem3.
Proof. intros H12 H23 stream. specialize (H12 stream). specialize (H23 stream). lia. Qed.

Lemma reads_only_refl (stream : StreamPtr) (mem : Memory) : reads_only stream mem mem.
Proof. by split. Qed.

Lemma reads_only_trans (stream : StreamPtr) (mem1 mem2 mem3 : Memory) :
  reads_only stream mem1 mem2 → reads_only stream mem2 mem3 → reads_only stream mem1 mem3.
Proof.
  intros [Ha12 Hb12] [Ha23 Hb23]. split; [congruence|].
  intros other Hne. rewrite Hb23, Hb12; done.
Qed.

(** Taking a word off the front of [stream]. *)
Lemma read_word_memory (stream : StreamPtr) (mem : Memory) (x : Z) (rest : ReadBuffer) :
  readIntBinary (buffer_at (buffers mem) stream) = Ok (x, rest) →
  0 ≤ x
  ∧ shrinks mem (mkMemory (<[stream := rest]> (buffers mem)) (next_address mem))
  ∧ reads_only stream mem (mkMemory (<[stream := rest]> (buffers mem)) (next_address mem))
  ∧ (length (buffer_at (<[stream := rest]> (buffers mem)) stream) + 8
     = length (buffer_at (buffers mem) stream))%nat.
Proof.
  intros Hread. pose proof (readIntBinary_length _ _ _ Hread) as Hlen.
  apply readIntBinary_inv in Hread as [Hx _].
  split; [lia|]. split; [|split].
  - intros other. cbn. by eapply insert_rest_length.
  - split; [done|]. intros other Hne. cbn. by apply buffer_at_insert_ne.
  - rewrite buffer_at_insert_eq. lia.
Qed.

(** Dropping bytes off the front of [stream]. *)
Lemma drop_memory (stream : StreamPtr) (n : nat) (bufs : Buffers) (address : nat) :
  shrinks (mkMemory bufs address) (mkMemory (on_stream stream (drop n) bufs) address)
  ∧ reads_only stream (mkMemory bufs address)
      (mkMemory (on_stream stream (drop n) bufs) address).
Proof.
  split.
  - intros other. cbn. apply on_stream_drop_length.
  - split; [done|]. intros other Hne. cbn. by apply buffer_at_on_stream_ne.
Qed.

Section Readers.

Context {V : Type} `{EqDecision V}.
Variable dictionary_type : DataTypePtr V.

Lemma readDictionary_memory (keys_stream : StreamPtr)
    (s s' : DeserializeStateWithDictionary.t V) (mem mem' : Memory) :
  readDictionary dictionary_type keys_stream s mem = Ok (s', mem') →
  shrinks mem mem'
  ∧ DeserializeStateWithDictionary.num_pending_rows s'
    = DeserializeStateWithDictionary.num_pending_rows s.
Proof.
  unfold readDictionary. intros Hcall.
  apply bind_Ok_inv in Hcall as ([num_keys rest] & Hread & Hcall).
  destruct (deserializeBinaryBulk _ _ _ _) as [keys taken].
  injection Hcall as <- <-. split; [|done].
  destruct (read_word_memory _ _ _ _ Hread) as (_ & Hshrinks & _).
  eapply shrinks_trans; [exact Hshrinks|].
  intros other. cbn. apply on_stream_drop_length.
Qed.

Lemma readAdditionalKeys_memory (indexes_stream : StreamPtr)
    (s s' : DeserializeStateWithDictionary.t V) (mem mem' : Memory) :
  readAdditionalKeys dictionary_type indexes_stream s mem = Ok (s', mem') →
  shrinks mem mem' ∧ reads_only indexes_stream mem mem'
  ∧ DeserializeStateWithDictionary.global_dictionary s'
    = DeserializeStateWithDictionary.global_dictionary s
  ∧ DeserializeStateWithDictionary.num_pending_rows s'
    = DeserializeStateWithDictionary.num_pending_rows s.
Proof.
  unfold readAdditionalKeys. intros Hcall.
  apply bind_Ok_inv in Hcall as ([num_keys rest] & Hread & Hcall).
  destruct (deserializeBinaryBulk _ _ _ _) as [keys taken].
  injection Hcall as <- <-.
  destruct (read_word_memory _ _ _ _ Hread) as (_ & Hshrinks & Hreads & _).
  destruct (drop_memory indexes_stream taken (<[indexes_stream := rest]> (buffers mem))
              (next_address mem)) as [Hshrinks' Hreads'].
  split; [by eapply shrinks_trans|]. split; [by eapply reads_only_trans|]. done.
Qed.

Lemma readIndexes_memory (indexes_stream : StreamPtr) (num_rows : Z)
    (column column' : ColumnWithDictionary V)
    (s : DeserializeStateWithDictionary.t V) (mem mem' : Memory) :
  readIndexes dictionary_type indexes_stream num_rows column s mem = Ok (column', mem') →
  shrinks mem mem' ∧ reads_only indexes_stream mem mem'.
Proof.
  unfold readIndexes. intros Hcall.
  apply bind_Ok_inv in Hcall as (indexes_type & _ & Hcall).
  destruct (deserializeBinaryBulk _ _ _ _) as [indexes_data taken].
  assert (Hmem : mem' = mkMemory (on_stream indexes_stream (drop taken) (buffers mem))
                          (next_address mem)).
  { repeat match type of Hcall with
      | (if ?c then _ else _) = _ => destruct c
      | match ?x with _ => _ end = _ => destruct x
      | mbind _ _ = Ok _ => apply bind_Ok_inv in Hcall as (? & _ & Hcall)
      | Throw _ = Ok _ => discriminate
      | Ok _ = Ok _ => injection Hcall as _ <-
      end; reflexivity. }
  subst mem'. destruct mem as [bufs address]. apply drop_memory.
Qed.

Lemma read_block_header_memory (keys_stream indexes_stream : StreamPtr)
    (s s' : DeserializeStateWithDictionary.t V) (mem mem' : Memory) :
  read_block_header dictionary_type keys_stream indexes_stream s mem = Ok (Some (s', mem')) →
  0 ≤ DeserializeStateWithDictionary.num_pending_rows s'
  ∧ (length (buffer_at (buffers mem') indexes_stream) + 8
     ≤ length (buffer_at (buffers mem) indexes_stream))%nat
  ∧ (is_Some (DeserializeStateWithDictionary.global_dictionary s) →
     DeserializeStateWithDictionary.global_dictionary s'
     = DeserializeStateWithDictionary.global_dictionary s
     ∧ reads_only indexes_stream mem mem').
Proof.
  unfold read_block_header. destruct (eof _); [discriminate|]. intros Hcall.
  apply bind_Ok_inv in Hcall as ([index_type rest] & Hheader & Hcall).
  unfold IndexesSerializationType.deserialize in Hheader.
  apply bind_Ok_inv in Hheader as ([val rest'] & Hread & Hheader).
  apply bind_Ok_inv in Hheader as (_ & _ & Hheader). injection Hheader as <- <-.
  destruct (read_word_memory _ _ _ _ Hread) as (_ & Hshrinks1 & Hreads1 & Hlen1).
  apply bind_Ok_inv in Hcall as ([s2 mem2] & Hdictionary & Hcall).
  apply bind_Ok_inv in Hcall as ([s3 mem3] & Hadditional & Hcall).
  apply bind_Ok_inv in Hcall as ([pending rest3] & Hread3 & Hcall).
  injection Hcall as <- <-.
  destruct (read_word_memory _ _ _ _ Hread3) as (Hpending & Hshrinks4 & Hreads4 & _).
  set (mem1 := mkMemory (<[indexes_stream := rest']> (buffers mem)) (next_address mem)) in *.
  set (s1 := DeserializeStateWithDictionary.set_index_type s _) in *.
  assert (Hstep2 : shrinks mem1 mem2
            ∧ (is_Some (DeserializeStateWithDictionary.global_dictionary s) →
               s2 = s1 ∧ mem2 = mem1)).
  { destruct (IndexesSerializationType.need_global_dictionary _ && _) eqn:Hneed.
    - split; [by eapply readDictionary_memory|]. intros Hsome.
      apply andb_true_iff in Hneed as [_ Hnone]. exfalso.
      apply negb_true_iff, bool_decide_eq_false in Hnone. by apply Hnone.
    - injection Hdictionary as <- <-. split; [apply shrinks_refl|done]. }
  destruct Hstep2 as [Hshrinks2 Hsame2].
  assert (Hstep3 : shrinks mem2 mem3 ∧ reads_only indexes_stream mem2 mem3
            ∧ DeserializeStateWithDictionary.global_dictionary s3
              = DeserializeStateWithDictionary.global_dictionary s2).
  { destruct (IndexesSerializationType.has_additional_keys _).
    - apply readAdditionalKeys_memory in Hadditional as (? & ? & ? & _). done.
    - injection Hadditional as <- <-.
      split; [apply shrinks_refl|]. split; [apply reads_only_refl|done]. }
  destruct Hstep3 as (Hshrinks3 & Hreads3 & Hglobal3).
  split; [exact Hpending|]. split.
  - specialize (Hshrinks2 indexes_stream). specialize (Hshrinks3 indexes_stream).
    specialize (Hshrinks4 indexes_stream). cbn in *. lia.
  - intros Hsome. destruct (Hsame2 Hsome) as [-> ->]. cbn. split; [done|].
    eapply reads_only_trans; [exact Hreads1|].
    eapply reads_only_trans; [exact Hreads3|exact Hreads4].
Qed.

End Readers.

(** ** The loop of the decoder: termination, and C10 *)

Section Loop.

Context {V : Type} `{EqDecision V}.
Variable dictionary_type : DataTypePtr V.

(** A turn of the loop that goes on has delivered a row or taken a header
    off the indexes stream; with a global dictionary in the state, it has
    kept that dictionary and read from the indexes stream only. *)
Lemma loop_body_continue (keys_stream indexes_stream : StreamPtr) (limit limit' : Z)
    (column column' : ColumnWithDictionary V)
    (s s' : DeserializeStateWithDictionary.t V) (mem mem' : Memory) :
  loop_body dictionary_type keys_stream indexes_stream limit column s mem
  = Ok (Continue limit' column' s' mem') →
  (0 < limit → 0 ≤ DeserializeStateWithDictionary.num_pending_rows s →
   0 ≤ limit' ∧ 0 ≤ DeserializeStateWithDictionary.num_pending_rows s'
   ∧ (Z.to_nat limit' + length (buffer_at (buffers mem') indexes_stream)
      < Z.to_nat limit + length (buffer_at (buffers mem) indexes_stream))%nat)
  ∧ (is_Some (DeserializeStateWithDictionary.global_dictionary s) →
     DeserializeStateWithDictionary.global_dictionary s'
     = DeserializeStateWithDictionary.global_dictionary s
     ∧ reads_only indexes_stream mem mem').
Proof.
  unfold loop_body. intros Hcall.
  apply bind_Ok_inv in Hcall as (header & Hheader & Hcall).
  destruct header as [[s1 mem1]|]; [|discriminate].
  apply bind_Ok_inv in Hcall as ([column1 mem2] & Hindexes & Hcall).
  injection Hcall as <- <- <- <-.
  apply readIndexes_memory in Hindexes as [Hshrinks Hreads].
  specialize (Hshrinks indexes_stream).
  destruct (decide (DeserializeStateWithDictionary.num_pending_rows s = 0)) as [Hzero|Hpending].
  - apply read_block_header_memory in Hheader as (Hpending1 & Hlen & Hkept).
    split.
    + intros Hlimit _. cbn. lia.
    + intros Hsome. destruct (Hkept Hsome) as [Hglobal Hreads1]. cbn.
      split; [done|]. by eapply reads_only_trans.
  - injection Hheader as <- <-. split.
    + intros Hlimit Hnonneg. cbn. lia.
    + intros _. by split.
Qed.

Lemma loop_body_break (keys_stream indexes_stream : StreamPtr) (limit : Z)
    (column : ColumnWithDictionary V)
    (s s' : DeserializeStateWithDictionary.t V) (mem mem' : Memory) :
  loop_body dictionary_type keys_stream indexes_stream limit column s mem
  = Ok (Break s' mem') →
  s' = s ∧ mem' = mem.
Proof.
  unfold loop_body. intros Hcall.
  apply bind_Ok_inv in Hcall as (header & Hheader & Hcall).
  destruct header as [[s1 mem1]|].
  - apply bind_Ok_inv in Hcall as ([column1 mem2] & _ & Hcall). discriminate.
  - by injection Hcall as <- <-.
Qed.

(** The loop ends within [limit] turns plus the length of the indexes
    stream. *)
Lemma deserialize_loop_terminates (fuel : nat) (keys_stream indexes_stream : StreamPtr)
    (limit : Z) (column : ColumnWithDictionary V)
    (s : DeserializeStateWithDictionary.t V) (mem : Memory) :
  0 ≤ limit → 0 ≤ DeserializeStateWithDictionary.num_pending_rows s →
  (Z.to_nat limit + length (buffer_at (buffers mem) indexes_stream) ≤ fuel)%nat →
  is_Some (deserialize_loop dictionary_type fuel keys_stream indexes_stream limit
             column s mem).
Proof.
  revert limit column s mem.
  induction fuel as [|fuel IH]; intros limit column s mem Hlimit Hpending Hfuel.
  - cbn. destruct (decide (limit = 0)); [done|lia].
  - cbn. destruct (decide (limit = 0)); [done|].
    destruct (loop_body _ _ _ _ _ _ _) as [[s' mem'|limit' column' s' mem']|e] eqn:Hbody;
      [done| |done].
    apply loop_body_continue in Hbody as [Hmeasure _].
    destruct Hmeasure as (Hlimit' & Hpending' & Hless); [lia|done|].
    apply IH; [done|done|lia].
Qed.

(** [deserializeBinaryBulkWithMultipleStreams] always comes to a result,
    an exception or a column. *)
Lemma deserialize_terminates (column : ColumnWithDictionary V) (limit : Z)
    (settings : DeserializeBinaryBulkSettings.t)
    (state : option (DeserializeBinaryBulkState V)) (mem : Memory) :
  0 ≤ limit →
  (∀ s, state = Some (DeserializeState s) →
        0 ≤ DeserializeStateWithDictionary.num_pending_rows s) →
  is_Some (deserializeBinaryBulkWithMultipleStreams dictionary_type column limit
             settings state mem).
Proof.
  intros Hlimit Hpending. unfold deserializeBinaryBulkWithMultipleStreams.
  destruct state as [[s|]|]; cbn; [|done..].
  destruct (KeysSerializationVersion.checkVersion _); [|done].
  destruct (DeserializeBinaryBulkSettings.getter settings (_ ++ [DictionaryKeys]))
    as [keys_stream|];
    destruct (DeserializeBinaryBulkSettings.getter settings (_ ++ [DictionaryIndexes]))
      as [indexes_stream|]; try done.
  destruct (deserialize_loop_terminates (loop_fuel indexes_stream limit mem)
              keys_stream indexes_stream limit column s mem Hlimit
              (Hpending s eq_refl)) as [r Hr]; [done|].
  rewrite Hr. by destruct r as [[[? ?] ?]|].
Qed.

Lemma deserialize_loop_keeps_dictionary (fuel : nat)
    (keys_stream indexes_stream : StreamPtr) (limit : Z)
    (column column' : ColumnWithDictionary V)
    (s s' : DeserializeStateWithDictionary.t V) (mem mem' : Memory) :
  is_Some (DeserializeStateWithDictionary.global_dictionary s) →
  deserialize_loop dictionary_type fuel keys_stream indexes_stream limit column s mem
  = Some (Ok (column', s', mem')) →
  DeserializeStateWithDictionary.global_dictionary s'
  = DeserializeStateWithDictionary.global_dictionary s
  ∧ reads_only indexes_stream mem mem'.
Proof.
  revert limit column s mem.
  induction fuel as [|fuel IH]; intros limit column s mem Hsome; cbn;
    (destruct (decide (limit = 0));
       [intros [= <- <- <-]; split; [done|apply reads_only_refl]|]);
    [discriminate|].
  destruct (loop_body _ _ _ _ _ _ _) as [[s1 mem1|limit1 column1 s1 mem1]|e] eqn:Hbody;
    [| |discriminate].
  - apply loop_body_break in Hbody as [-> ->].
    intros [= <- <- <-]. split; [done|apply reads_only_refl].
  - apply loop_body_continue in Hbody as [_ Hkept].
    destruct (Hkept Hsome) as [Hglobal Hreads]. intros Hloop.
    apply IH in Hloop as [Hglobal' Hreads']; [|by rewrite Hglobal].
    split; [congruence|]. by eapply reads_only_trans.
Qed.

(** Once the decoder's state holds a global dictionary, a call of
    [deserializeBinaryBulkWithMultipleStreams] that returns leaves that very
    dictionary (same object, same keys) in the state, creates no other
    dictionary, and reads from no stream but the indexes stream: whatever the
    headers of the blocks it reads say, and whatever the streams hold, nothing
    is taken from the keys stream. *)
Lemma deserialize_keeps_dictionary
    (column column' : ColumnWithDictionary V) (limit : Z)
    (settings : DeserializeBinaryBulkSettings.t)
    (s : DeserializeStateWithDictionary.t V)
    (state' : option (DeserializeBinaryBulkState V)) (mem mem' : Memory)
    (keys_stream indexes_stream : StreamPtr) (address : nat)
    (dictionary : ColumnUnique V) :
  DeserializeBinaryBulkSettings.getter settings
    (DeserializeBinaryBulkSettings.path settings ++ [DictionaryKeys]) = Some keys_stream →
  DeserializeBinaryBulkSettings.getter settings
    (DeserializeBinaryBulkSettings.path settings ++ [DictionaryIndexes])
  = Some indexes_stream →
  DeserializeStateWithDictionary.global_dictionary s = Some (address, dictionary) →
  deserializeBinaryBulkWithMultipleStreams dictionary_type column limit settings
    (Some (DeserializeState s)) mem = Some (Ok (column', state', mem')) →
  (∃ s', state' = Some (DeserializeState s')
         ∧ DeserializeStateWithDictionary.global_dictionary s'
           = Some (address, dictionary))
  ∧ next_address mem' = next_address mem
  ∧ (keys_stream ≠ indexes_stream →
     buffer_at (buffers mem') keys_stream = buffer_at (buffers mem) keys_stream).
Proof.
  intros Hkeys Hindexes Hglobal. unfold deserializeBinaryBulkWithMultipleStreams.
  cbn [checkAndGetWithDictionaryDeserializeState]. rewrite Hkeys, Hindexes.
  destruct (KeysSerializationVersion.checkVersion _); [|discriminate].
  destruct (deserialize_loop _ _ _ _ _ _ _ _) as [[[[column1 s1] mem1]|]|] eqn:Hloop;
    [|discriminate..].
  intros [= <- <- <-].
  apply deserialize_loop_keeps_dictionary in Hloop as [Hkept [Haddress Hframe]];
    [|by rewrite Hglobal].
  split; [|split].
  - exists s1. split; [done|]. by rewrite Hkept.
  - exact Haddress.
  - intros Hne. by apply Hframe.
Qed.

End Loop.

(** ** C2: a block under [max_dictionary_size = 0] *)

(** C2, at [max_dictionary_size = 0] with [use_new_dictionary_on_overflow]:
    the call on the first two rows of [column_1234] clears the
    need-global-dictionary bit (header 0x200) and sends the two values of the
    block as additional keys on the indexes stream, and it appends the count
    word of an empty dictionary to the keys stream, which afterwards holds
    sixteen bytes where it held eight.  The same call without
    [use_new_dictionary_on_overflow] leaves the keys stream as it was. *)
Theorem serialize_without_dictionary_writes_keys :
  serializeBinaryBulkWithMultipleStreams UInt8_dictionary_type column_1234 0 2
    (serialize_settings 0 true) state_after_prefix buffers_after_prefix
  = Ok (state_after_prefix,
        {[ 0%nat := le_split 8 1 ++ le_split 8 0;
           1%nat := le_split 8 512 ++ le_split 8 2 ++ [Byte.x01; Byte.x02]
                    ++ le_split 8 2 ++ [Byte.x00; Byte.x01] ]})
  ∧ buffer_at buffers_after_prefix 0%nat = le_split 8 1
  ∧ serializeBinaryBulkWithMultipleStreams UInt8_dictionary_type column_1234 0 2
      (serialize_settings 0 false) state_after_prefix buffers_after_prefix
    = Ok (state_after_prefix,
          {[ 0%nat := le_split 8 1;
             1%nat := le_split 8 512 ++ le_split 8 2 ++ [Byte.x01; Byte.x02]
                      ++ le_split 8 2 ++ [Byte.x00; Byte.x01] ]}).
Proof. split; [vm_compute; reflexivity|]. split; [reflexivity|vm_compute; reflexivity]. Qed.

(** ** C1: the round trip *)

(** C1, for [column_1234] written as the blocks [(0, 2)] and [(2, 2)] with
    [max_dictionary_size = 2] and [use_new_dictionary_on_overflow]: the
    encoder writes a second dictionary for the second block, the decoder
    keeps the first, and the column read back is [1, 2, 1, 2]. *)
Theorem round_trip_loses_second_dictionary :
  serialize_session UInt8_dictionary_type column_1234 [(0, 2); (2, 2)]
    (serialize_settings 2 true)
  = Ok {[ 0%nat := two_dictionaries_keys; 1%nat := two_dictionaries_indexes ]}
  ∧ deserialize_session UInt8_dictionary_type
      {[ 0%nat := two_dictionaries_keys; 1%nat := two_dictionaries_indexes ]}
      4 deserialize_settings
    = Some (Ok [Some 1; Some 2; Some 1; Some 2])
  ∧ column_values (DataTypeNumber UInt8) column_1234
    = [Some 1; Some 2; Some 3; Some 4].
Proof. repeat split; vm_compute; reflexivity. Qed.

(** The same session without [use_new_dictionary_on_overflow]: one
    dictionary, written by the suffix, and the column comes back. *)
Example round_trip_single_dictionary :
  ∃ bufs,
    serialize_session UInt8_dictionary_type column_1234 [(0, 2); (2, 2)]
      (serialize_settings 2 false) = Ok bufs
    ∧ deserialize_session UInt8_dictionary_type bufs 4 deserialize_settings
      = Some (Ok (column_values (DataTypeNumber UInt8) column_1234)).
Proof.
  exists {[ 0%nat := le_split 8 1 ++ le_split 8 2 ++ [Byte.x01; Byte.x02];
            1%nat := le_split 8 256 ++ le_split 8 2 ++ [Byte.x00; Byte.x01]
                     ++ le_split 8 768 ++ le_split 8 2 ++ [Byte.x03; Byte.x04]
                     ++ le_split 8 2 ++ [Byte.x02; Byte.x03] ]}.
  split; vm_compute; reflexivity.
Qed.

(** * More of the file *)

(** ** The prefixes *)

(** X1.  What [serializeBinaryBulkStatePrefix] appends to an empty keys
    stream, [deserializeBinaryBulkStatePrefix] accepts: whatever the states
    the two calls are handed, the first succeeds and installs an encoder state
    with version 1 and an empty dictionary, and the second takes exactly the
    version word back off the stream and installs a decoder state with no
    dictionary and no pending rows. *)
Theorem prefix_round_trip {V : Type} (dictionary_type : DataTypePtr V)
    (write_settings : SerializeBinaryBulkSettings.t)
    (read_settings : DeserializeBinaryBulkSettings.t)
    (write_state : option (SerializeBinaryBulkState V))
    (read_state : option (DeserializeBinaryBulkState V))
    (bufs : Buffers) (stream : StreamPtr) :
  SerializeBinaryBulkSettings.getter write_settings
    (SerializeBinaryBulkSettings.path write_settings ++ [DictionaryKeys]) = Some stream →
  DeserializeBinaryBulkSettings.getter read_settings
    (DeserializeBinaryBulkSettings.path read_settings ++ [DictionaryKeys]) = Some stream →
  buffer_at bufs stream = [] →
  ∃ bufs' installed,
    serializeBinaryBulkStatePrefix dictionary_type write_settings write_state bufs
    = Ok (Some (SerializeState
                  (SerializeStateWithDictionary.mk (KeysSerializationVersion.mk 1)
                     (Some (createColumnUnique dictionary_type)))),
          bufs')
    ∧ buffer_at bufs' stream = le_split 8 1
    ∧ (∀ other : StreamPtr, other ≠ stream → bufs' !! other = bufs !! other)
    ∧ deserializeBinaryBulkStatePrefix read_settings read_state bufs'
      = Ok (Some (DeserializeState installed), <[stream := []]> bufs')
    ∧ KeysSerializationVersion.value
        (DeserializeStateWithDictionary.key_version installed) = 1
    ∧ DeserializeStateWithDictionary.global_dictionary installed = None
    ∧ DeserializeStateWithDictionary.num_pending_rows installed = 0.
Proof.
  intros Hwrite Hread Hempty.
  unfold serializeBinaryBulkStatePrefix, deserializeBinaryBulkStatePrefix.
  rewrite Hwrite, Hread.
  eexists _, _. split; [reflexivity|].
  assert (Hbuffer : buffer_at (on_stream stream
             (writeIntBinary KeysSerializationVersion.SingleDictionaryWithAdditionalKeysPerBlock)
             bufs) stream = le_split 8 1 ++ []).
  { rewrite buffer_at_on_stream, Hempty. reflexivity. }
  split; [by rewrite Hbuffer, app_nil_r|].
  split; [intros other Hne; unfold on_stream; by rewrite lookup_insert_ne|].
  rewrite Hbuffer, readIntBinary_le_split by (unfold UInt64_modulus; lia).
  split; [reflexivity|]. by cbn.
Qed.

Lemma prefix_round_trip_witness :
  buffer_at (∅ : Buffers) 0%nat = []
  ∧ ∃ bufs' installed,
      serializeBinaryBulkStatePrefix UInt8_dictionary_type (serialize_settings 16 false)
        None ∅
      = Ok (state_after_prefix, bufs')
      ∧ deserializeBinaryBulkStatePrefix (V := Z) deserialize_settings None bufs'
        = Ok (Some (DeserializeState installed), <[0%nat := []]> bufs').
Proof.
  assert (Hempty : buffer_at (∅ : Buffers) 0%nat = []) by reflexivity.
  split; [exact Hempty|].
  destruct (prefix_round_trip UInt8_dictionary_type (serialize_settings 16 false)
              deserialize_settings None None ∅ 0%nat eq_refl eq_refl Hempty)
    as (bufs' & installed & Hwrite & _ & _ & Hread & _).
  exists bufs', installed. split; [exact Hwrite|exact Hread].
Defined.

(** ** The checks of the decoder, in their order *)

Section DecoderChecks.

Context {V : Type} `{EqDecision V}.
Variable dictionary_type : DataTypePtr V.

(** X2.  [deserializeBinaryBulkWithMultipleStreams] looks at its state
    before it looks at its streams: without a state of its own type, or with
    one whose version is not 1, it throws LOGICAL_ERROR whatever the getter
    gives (where the serializer, asked with no streams, returns).  With a good
    state it returns at once when the getter gives neither stream, leaving
    the column, the state and the memory as they were, and throws
    LOGICAL_ERROR when the getter gives exactly one of them. *)
Theorem deserialize_checks_state_then_streams
    (column : ColumnWithDictionary V) (limit : Z)
    (settings : DeserializeBinaryBulkSettings.t)
    (state : option (DeserializeBinaryBulkState V)) (mem : Memory) :
  let keys_stream :=
    DeserializeBinaryBulkSettings.getter settings
      (DeserializeBinaryBulkSettings.path settings ++ [DictionaryKeys]) in
  let indexes_stream :=
    DeserializeBinaryBulkSettings.getter settings
      (DeserializeBinaryBulkSettings.path settings ++ [DictionaryIndexes]) in
  let call :=
    deserializeBinaryBulkWithMultipleStreams dictionary_type column limit settings
      state mem in
  (state = None ∨ state = Some OtherDeserializeState → call = Some (Throw LOGICAL_ERROR))
  ∧ (∀ s, state = Some (DeserializeState s) →
       KeysSerializationVersion.value (DeserializeStateWithDictionary.key_version s) ≠ 1 →
       call = Some (Throw LOGICAL_ERROR))
  ∧ (∀ s, state = Some (DeserializeState s) →
       KeysSerializationVersion.value (DeserializeStateWithDictionary.key_version s) = 1 →
       (keys_stream = None → indexes_stream = None → call = Some (Ok (column, state, mem)))
       ∧ (keys_stream = None → is_Some indexes_stream → call = Some (Throw LOGICAL_ERROR))
       ∧ (is_Some keys_stream → indexes_stream = None →
          call = Some (Throw LOGICAL_ERROR))).
Proof.
  intros keys_stream indexes_stream call. subst call.
  unfold deserializeBinaryBulkWithMultipleStreams. fold keys_stream indexes_stream.
  split; [|split].
  - by intros [-> | ->].
  - intros s -> Hversion. cbn [checkAndGetWithDictionaryDeserializeState].
    unfold KeysSerializationVersion.checkVersion,
      KeysSerializationVersion.SingleDictionaryWithAdditionalKeysPerBlock.
    by destruct (decide _).
  - intros s -> Hversion. cbn [checkAndGetWithDictionaryDeserializeState].
    rewrite Hversion. cbn.
    split; [|split].
    + by intros -> ->.
    + by intros -> [? ->].
    + by intros [? ->] ->.
Qed.

(** X3.  With a good state and both streams, a call with [limit = 0] reads
    nothing, whatever the streams hold; and a call with any limit that finds
    no pending rows and the indexes stream at its end leaves the [while]
    loop at once.  In both cases the column, the state and the memory are
    returned as they were. *)
Theorem deserialize_nothing_to_read
    (column : ColumnWithDictionary V) (limit : Z)
    (settings : DeserializeBinaryBulkSettings.t)
    (s : DeserializeStateWithDictionary.t V) (mem : Memory)
    (keys_stream indexes_stream : StreamPtr) :
  KeysSerializationVersion.value (DeserializeStateWithDictionary.key_version s) = 1 →
  DeserializeBinaryBulkSettings.getter settings
    (DeserializeBinaryBulkSettings.path settings ++ [DictionaryKeys]) = Some keys_stream →
  DeserializeBinaryBulkSettings.getter settings
    (DeserializeBinaryBulkSettings.path settings ++ [DictionaryIndexes])
  = Some indexes_stream →
  limit = 0
  ∨ (0 < limit
     ∧ DeserializeStateWithDictionary.num_pending_rows s = 0
     ∧ buffer_at (buffers mem) indexes_stream = []) →
  deserializeBinaryBulkWithMultipleStreams dictionary_type column limit settings
    (Some (DeserializeState s)) mem
  = Some (Ok (column, Some (DeserializeState s), mem)).
Proof.
  intros Hversion Hkeys Hindexes Hnothing.
  unfold deserializeBinaryBulkWithMultipleStreams.
  cbn [checkAndGetWithDictionaryDeserializeState]. rewrite Hversion, Hkeys, Hindexes.
  cbn [KeysSerializationVersion.checkVersion]. cbn.
  destruct Hnothing as [-> | (Hlimit & Hpending & Heof)].
  - by destruct (loop_fuel indexes_stream 0 mem).
  - unfold loop_fuel. rewrite Heof. cbn [length].
    destruct (Z.to_nat limit + 0)%nat as [|fuel] eqn:Hfuel; [lia|].
    cbn [deserialize_loop]. destruct (decide (limit = 0)); [lia|].
    unfold loop_body, read_block_header. rewrite Hpending, Heof. reflexivity.
Qed.

End DecoderChecks.

Lemma deserialize_nothing_to_read_witness :
  deserializeBinaryBulkWithMultipleStreams UInt8_dictionary_type
    column_after_first_block 0 deserialize_settings
    (Some (DeserializeState decoder_state_after_first_block)) memory_after_first_block
  = Some (Ok (column_after_first_block,
              Some (DeserializeState decoder_state_after_first_block),
              memory_after_first_block)).
Proof.
  exact (deserialize_nothing_to_read UInt8_dictionary_type column_after_first_block 0
           deserialize_settings decoder_state_after_first_block memory_after_first_block
           0%nat 1%nat eq_refl eq_refl eq_refl (or_introl eq_refl)).
Defined.

Lemma deserialize_checks_state_then_streams_witness :
  deserializeBinaryBulkWithMultipleStreams UInt8_dictionary_type
    column_after_first_block 2 (DeserializeBinaryBulkSettings.mk (λ _, None) [])
    None memory_after_first_block
  = Some (Throw LOGICAL_ERROR).
Proof.
  exact (proj1 (deserialize_checks_state_then_streams UInt8_dictionary_type
                  column_after_first_block 2
                  (DeserializeBinaryBulkSettings.mk (λ _, None) []) None
                  memory_after_first_block)
           (or_introl eq_refl)).
Defined.

(** ** The header descriptor *)

Lemma deserialize_create (column : ColumnVector)
    (has_additional_keys need_global_dictionary : bool) (rest : ReadBuffer) :
  IndexesSerializationType.deserialize
    (le_split 8
       (IndexesSerializationType.serialized_word
          (IndexesSerializationType.create column has_additional_keys
             need_global_dictionary))
     ++ rest)
  = Ok (IndexesSerializationType.create column has_additional_keys need_global_dictionary,
        rest).
Proof.
  unfold IndexesSerializationType.deserialize.
  destruct column as [[] data], has_additional_keys, need_global_dictionary;
    (rewrite readIntBinary_le_split by (vm_compute; split; congruence));
    reflexivity.
Qed.

(** X5.  The header that the encoder writes for an indexes column comes
    back from [IndexesSerializationType::deserialize] as the same descriptor,
    both flags included, with the rest of the buffer untouched; and its
    [getDataType] is the unsigned type of that column. *)
Theorem header_descriptor_round_trip (column : ColumnVector)
    (has_additional_keys need_global_dictionary : bool) (rest : ReadBuffer) :
  IndexesSerializationType.deserialize
    (IndexesSerializationType.serialize
       (IndexesSerializationType.create column has_additional_keys need_global_dictionary)
       [] ++ rest)
  = Ok (IndexesSerializationType.create column has_additional_keys need_global_dictionary,
        rest)
  ∧ IndexesSerializationType.getDataType
      (IndexesSerializationType.create column has_additional_keys need_global_dictionary)
    = Ok (value_type column).
Proof.
  unfold IndexesSerializationType.serialize, writeIntBinary. rewrite app_nil_l.
  split; [apply deserialize_create|by destruct column as [[] data]].
Qed.

(** X6.  A header that [IndexesSerializationType::deserialize] accepts has
    one of the four type codes, so [getDataType] never reaches its throw on
    it: the decoder's [readIndexes] always finds the type of the indexes,
    which is [2 ^ type] bytes wide. *)
Theorem header_accepted_has_data_type (buffer rest : ReadBuffer)
    (descriptor : IndexesSerializationType.t) :
  IndexesSerializationType.deserialize buffer = Ok (descriptor, rest) →
  ∃ T, IndexesSerializationType.getDataType descriptor = Ok T
       ∧ Z.of_nat (sizeof T) = 2 ^ IndexesSerializationType.type descriptor.
Proof.
  unfold IndexesSerializationType.deserialize. intros Hcall.
  apply bind_Ok_inv in Hcall as ([val rest'] & Hread & Hcall).
  apply bind_Ok_inv in Hcall as (checked & Hcheck & Hcall). injection Hcall as <- <-.
  apply readIntBinary_inv in Hread as [[Hval _] _].
  unfold IndexesSerializationType.checkType, IndexesSerializationType.TUInt64 in Hcheck.
  destruct (decide (IndexesSerializationType.resetFlags val ≤ 3)) as [Hle|];
    [|discriminate].
  assert (Hnonneg : 0 ≤ IndexesSerializationType.resetFlags val).
  { unfold IndexesSerializationType.resetFlags. by apply Z.land_nonneg; left. }
  unfold IndexesSerializationType.getDataType. cbn [IndexesSerializationType.type].
  set (code := IndexesSerializationType.resetFlags val) in *.
  assert (Hcases : code = 0 ∨ code = 1 ∨ code = 2 ∨ code = 3) by lia.
  destruct Hcases as [-> | [-> | [-> | ->]]].
  - by exists UInt8.
  - by exists UInt16.
  - by exists UInt32.
  - by exists UInt64.
Qed.

Lemma header_accepted_has_data_type_witness :
  IndexesSerializationType.deserialize (le_split 8 770)
  = Ok (IndexesSerializationType.mk 2 true true, [])
  ∧ ∃ T, IndexesSerializationType.getDataType (IndexesSerializationType.mk 2 true true)
         = Ok T
         ∧ Z.of_nat (sizeof T)
           = 2 ^ IndexesSerializationType.type (IndexesSerializationType.mk 2 true true).
Proof.
  assert (Hcall : IndexesSerializationType.deserialize (le_split 8 770)
                  = Ok (IndexesSerializationType.mk 2 true true, [])) by reflexivity.
  split; [exact Hcall|].
  exact (header_accepted_has_data_type (le_split 8 770) []
           (IndexesSerializationType.mk 2 true true) Hcall).
Defined.

(** ** enumerateStreams *)

(** X8.  When the element type's [enumerateStreams] leaves the path as it
    found it, [DataTypeWithDictionary::enumerateStreams] hands the callback
    the element type's paths, found under [path/DictionaryKeys], and then
    [path/DictionaryIndexes], and leaves the path as it found it; for an
    element type that announces just its own path these are the two paths
    that the bulk calls give to their getter. *)
Theorem enumerateStreams_announces
    (dictionary_type_enumerateStreams : SubstreamPath → list SubstreamPath * SubstreamPath)
    (path : SubstreamPath) (announced : list SubstreamPath) :
  dictionary_type_enumerateStreams (path ++ [DictionaryKeys])
  = (announced, path ++ [DictionaryKeys]) →
  enumerateStreams dictionary_type_enumerateStreams path
  = (announced ++ [path ++ [DictionaryIndexes]], path)
  ∧ (announced = [path ++ [DictionaryKeys]] →
     enumerateStreams dictionary_type_enumerateStreams path
     = ([path ++ [DictionaryKeys]; path ++ [DictionaryIndexes]], path)).
Proof.
  intros Hnested. unfold enumerateStreams. rewrite Hnested.
  assert (Hset : set_back (path ++ [DictionaryKeys]) DictionaryIndexes
                 = path ++ [DictionaryIndexes]).
  { unfold set_back. rewrite length_app. cbn [length].
    replace (pred (length path + 1)) with (length path + 0)%nat by lia.
    by rewrite insert_app_r. }
  assert (Hpop : pop_back (path ++ [DictionaryIndexes]) = path).
  { unfold pop_back. rewrite length_app. cbn [length].
    replace (pred (length path + 1)) with (length path) by lia.
    by rewrite take_app_length. }
  rewrite Hset, Hpop. split; [done|]. by intros ->.
Qed.

Lemma enumerateStreams_announces_witness :
  (λ path : SubstreamPath, ([path], path)) ([OtherSubstream 7] ++ [DictionaryKeys])
  = ([[OtherSubstream 7; DictionaryKeys]], [OtherSubstream 7] ++ [DictionaryKeys])
  ∧ enumerateStreams (λ path, ([path], path)) [OtherSubstream 7]
    = ([[OtherSubstream 7; DictionaryKeys]; [OtherSubstream 7; DictionaryIndexes]],
       [OtherSubstream 7]).
Proof.
  split; [reflexivity|].
  exact (proj1 (enumerateStreams_announces (λ path, ([path], path)) [OtherSubstream 7]
                  [[OtherSubstream 7; DictionaryKeys]] eq_refl)).
Defined.

(** ** mapIndexWithOverflow, in closed form *)

Lemma mapIndexWithOverflow_T_closed_form (T : UIntType) (index : list Z) (max_val : Z) :
  Forall (λ v, 0 ≤ v < modulus T) index → 0 ≤ max_val →
  mapIndexWithOverflow_T T index max_val
  = ((λ v, if decide (v < max_val)
           then Z.of_nat (position_of_id v (below_max_distinct max_val index))
           else v - max_val + Z.of_nat (length (below_max_distinct max_val index)))
     <$> index,
     below_max_distinct max_val index).
Proof.
  intros Hrange Hmax. unfold mapIndexWithOverflow_T.
  rewrite (mapIndex_index_data_spec T max_val index Hrange).
  destruct (mapIndex_hash_map_spec T max_val index Hrange) as [Hsize Hlookup].
  pose proof (below_max_distinct_length T max_val index Hrange) as Hbound.
  pose proof (modulus_pos T) as Hpos. pose proof (modulus_le_UInt64 T) as Hle.
  f_equal. apply Forall_fmap_ext. rewrite Forall_forall in Hrange |- *.
  intros v Hv. specialize (Hrange v Hv). cbn beta.
  destruct (decide (v < max_val)) as [Hlt|Hge].
  - assert (Hin : v ∈ below_max_distinct max_val index).
    { apply first_occurrences_elem_of, list_elem_of_filter. by split. }
    pose proof (position_of_id_lt _ _ Hin).
    rewrite (Hlookup v). destruct (decide (v ∈ _)); [|done]. cbn.
    apply Z.mod_small. lia.
  - unfold hash_map_size. rewrite Hsize. unfold to_UInt.
    rewrite (Z.mod_small _ UInt64_modulus) by lia. apply Z.mod_small. lia.
Qed.

(** X7.  [mapIndexWithOverflow] loses nothing: after the call an index is
    below the length N of the returned map exactly when it was below
    [max_size] before, and the old index is [map[new]] in the first case and
    [new − N + max_size] in the second; with [max_size = 0] the map is empty
    and the column is left as it was. *)
Theorem mapIndexWithOverflow_can_be_undone (column : ColumnVector) (max_size : Z) :
  Forall (λ v, 0 ≤ v < modulus (value_type column)) (getData column) →
  0 ≤ max_size →
  (∀ (i : nat) (old new : Z),
     getData column !! i = Some old →
     getData (mapIndexWithOverflow column max_size).1 !! i = Some new →
     0 ≤ new
     ∧ (new < Z.of_nat (length (getData (mapIndexWithOverflow column max_size).2))
        ↔ old < max_size)
     ∧ old = if decide (new < Z.of_nat (length (getData (mapIndexWithOverflow column max_size).2)))
             then nth (Z.to_nat new) (getData (mapIndexWithOverflow column max_size).2) 0
             else new - Z.of_nat (length (getData (mapIndexWithOverflow column max_size).2))
                  + max_size)
  ∧ (max_size = 0 →
     mapIndexWithOverflow column max_size = (column, mkColumnVector (value_type column) [])).
Proof.
  intros Hrange Hmax. destruct column as [T index]. cbn [value_type getData] in *.
  unfold mapIndexWithOverflow. cbn [value_type getData].
  rewrite (mapIndexWithOverflow_T_closed_form T index max_size Hrange Hmax).
  cbn [fst snd getData].
  set (distinct := below_max_distinct max_size index).
  split.
  - intros i old new Hold Hnew. rewrite list_lookup_fmap, Hold in Hnew.
    injection Hnew as <-.
    assert (Hin : old ∈ index) by (by eapply list_elem_of_lookup_2).
    rewrite Forall_forall in Hrange. specialize (Hrange old Hin).
    destruct (decide (old < max_size)) as [Hlt|Hge].
    + assert (Hind : old ∈ distinct).
      { apply first_occurrences_elem_of, list_elem_of_filter. by split. }
      pose proof (position_of_id_lt _ _ Hind) as Hpos.
      pose proof (position_of_id_lookup _ _ Hind) as Hlookup.
      split; [lia|]. split; [split; [done|lia]|].
      destruct (decide _); [|lia].
      rewrite Nat2Z.id. symmetry. by apply nth_lookup_Some.
    + split; [lia|]. split; [split; lia|].
      destruct (decide _); lia.
  - intros ->.
    assert (Hempty : distinct = []).
    { apply elem_of_nil_inv. intros v Hv.
      apply first_occurrences_elem_of, list_elem_of_filter in Hv as [Hlt Hv].
      rewrite Forall_forall in Hrange. specialize (Hrange v Hv). lia. }
    rewrite Hempty. f_equal. f_equal.
    rewrite <- (list_fmap_id index) at 2. apply Forall_fmap_ext.
    rewrite Forall_forall in Hrange |- *. intros v Hv. specialize (Hrange v Hv).
    cbn. destruct (decide (v < 0)); lia.
Qed.

Lemma mapIndexWithOverflow_can_be_undone_witness :
  Forall (λ v, 0 ≤ v < modulus UInt8) [5; 1; 7; 1; 0; 9]
  ∧ 0 ≤ 6
  ∧ [5; 1; 7; 1; 0; 9] !! 2%nat = Some 7
  ∧ getData (mapIndexWithOverflow (mkColumnVector UInt8 [5; 1; 7; 1; 0; 9]) 6).1 !! 2%nat
    = Some 4
  ∧ (4 < Z.of_nat (length (getData
           (mapIndexWithOverflow (mkColumnVector UInt8 [5; 1; 7; 1; 0; 9]) 6).2))
     ↔ 7 < 6).
Proof.
  assert (Hrange : Forall (λ v, 0 ≤ v < modulus (value_type (mkColumnVector UInt8 [5; 1; 7; 1; 0; 9])))
                     (getData (mkColumnVector UInt8 [5; 1; 7; 1; 0; 9]))).
  { repeat constructor; vm_compute; congruence. }
  assert (Hmax : 0 ≤ 6) by lia.
  assert (Hold : getData (mkColumnVector UInt8 [5; 1; 7; 1; 0; 9]) !! 2%nat = Some 7)
    by reflexivity.
  assert (Hnew : getData (mapIndexWithOverflow (mkColumnVector UInt8 [5; 1; 7; 1; 0; 9]) 6).1
                   !! 2%nat = Some 4) by (vm_compute; reflexivity).
  split; [exact Hrange|]. split; [exact Hmax|]. split; [exact Hold|]. split; [exact Hnew|].
  exact (proj1 (proj2 (proj1 (mapIndexWithOverflow_can_be_undone
                                (mkColumnVector UInt8 [5; 1; 7; 1; 0; 9]) 6 Hrange Hmax)
                         2%nat 7 4 Hold Hnew))).
Defined.

(** ** How many rows a call of the decoder delivers *)

Lemma read_packed_length (T : UIntType) (fuel : nat) (limit : Z) (istr : ReadBuffer) :
  Z.of_nat (length (read_packed T fuel limit istr)) ≤ Z.max 0 limit.
Proof.
  revert limit istr. induction fuel as [|fuel IH]; intros limit istr; cbn; [lia|].
  destruct (decide (limit ≤ 0)); [cbn; lia|].
  destruct (decide (length istr < sizeof T)%nat); [cbn; lia|].
  cbn. specialize (IH (limit - 1) (drop (sizeof T) istr)). lia.
Qed.

Lemma mapIndexWithOverflow_length (column : ColumnVector) (max_size : Z) :
  length (getData (mapIndexWithOverflow column max_size).1) = length (getData column).
Proof.
  unfold mapIndexWithOverflow, mapIndexWithOverflow_T. cbn. by rewrite length_fmap.
Qed.

Section Rows.

Context {V : Type} `{EqDecision V}.
Variable dictionary_type : DataTypePtr V.

Lemma insertRangeFromDictionaryEncodedColumn_size
    (column column' : ColumnWithDictionary V) (keys : IColumn V) (positions : ColumnVector) :
  insertRangeFromDictionaryEncodedColumn column keys positions = Ok column' →
  ColumnWithDictionary_size column'
  = ColumnWithDictionary_size column + Z.of_nat (length (getData positions)).
Proof.
  unfold insertRangeFromDictionaryEncodedColumn.
  destruct (bool_decide _); [|discriminate].
  destruct (uniqueInsertRangeFrom _ _) as [dict inserted]. intros [= <-].
  unfold ColumnWithDictionary_size. cbn. rewrite length_app, length_fmap. lia.
Qed.

Lemma insertRangeFrom_size (column other column' : ColumnWithDictionary V) (count : Z) :
  insertRangeFrom (removeNullable dictionary_type) column other 0 count = Ok column' →
  ColumnWithDictionary_size column ≤ ColumnWithDictionary_size column'
  ∧ ColumnWithDictionary_size column'
    ≤ ColumnWithDictionary_size column + ColumnWithDictionary_size other.
Proof.
  unfold insertRangeFrom. destruct (same_object _ _).
  - intros [= <-]. unfold ColumnWithDictionary_size. cbn.
    rewrite length_app, length_take, drop_0. lia.
  - intros Hcall. apply insertRangeFromDictionaryEncodedColumn_size in Hcall.
    rewrite Hcall. unfold ColumnWithDictionary_size. cbn.
    rewrite length_take, drop_0. lia.
Qed.

Lemma readIndexes_rows (indexes_stream : StreamPtr) (num_rows : Z)
    (column column' : ColumnWithDictionary V)
    (s : DeserializeStateWithDictionary.t V) (mem mem' : Memory) :
  readIndexes dictionary_type indexes_stream num_rows column s mem = Ok (column', mem') →
  ColumnWithDictionary_size column ≤ ColumnWithDictionary_size column'
  ∧ ColumnWithDictionary_size column'
    ≤ ColumnWithDictionary_size column + Z.max 0 num_rows.
Proof.
  unfold readIndexes. intros Hcall.
  apply bind_Ok_inv in Hcall as (indexes_type & _ & Hcall).
  cbn [deserializeBinaryBulk DataTypeNumber] in Hcall.
  pose proof (read_packed_length indexes_type
                (length (buffer_at (buffers mem) indexes_stream)) num_rows
                (buffer_at (buffers mem) indexes_stream)) as Hread.
  rewrite app_nil_l in Hcall.
  set (indexes_data := read_packed _ _ _ _) in *.
  destruct (negb _ && _).
  - destruct (DeserializeStateWithDictionary.global_dictionary s) as [[address dictionary]|];
      [|discriminate].
    apply bind_Ok_inv in Hcall as (column1 & Hshared & Hcall).
    apply bind_Ok_inv in Hcall as (column2 & Hinsert & Hcall). injection Hcall as <- _.
    assert (Hsize1 : ColumnWithDictionary_size column1 = ColumnWithDictionary_size column).
    { destruct (ColumnWithDictionary_empty column); [|by injection Hshared as <-].
      unfold setSharedDictionary in Hshared.
      destruct (ColumnWithDictionary_empty column); [|discriminate].
      by injection Hshared as <-. }
    apply insertRangeFrom_size in Hinsert. unfold ColumnWithDictionary_size in *.
    cbn in Hinsert. lia.
  - destruct (negb _).
    + destruct (DeserializeStateWithDictionary.additional_keys s); [|discriminate].
      apply bind_Ok_inv in Hcall as (column1 & Hinsert & Hcall). injection Hcall as <- _.
      apply insertRangeFromDictionaryEncodedColumn_size in Hinsert. cbn in Hinsert. lia.
    + destruct (DeserializeStateWithDictionary.global_dictionary s) as [[address dictionary]|];
        [|discriminate].
      pose proof (mapIndexWithOverflow_length (mkColumnVector indexes_type indexes_data)
                    (ColumnUnique_size dictionary)) as Hlength.
      destruct (mapIndexWithOverflow _ _) as [indexes_column index_map].
      apply bind_Ok_inv in Hcall as (column1 & Hinsert & Hcall). injection Hcall as <- _.
      apply insertRangeFromDictionaryEncodedColumn_size in Hinsert.
      cbn in Hlength. lia.
Qed.

Lemma loop_body_rows (keys_stream indexes_stream : StreamPtr) (limit limit' : Z)
    (column column' : ColumnWithDictionary V)
    (s s' : DeserializeStateWithDictionary.t V) (mem mem' : Memory) :
  loop_body dictionary_type keys_stream indexes_stream limit column s mem
  = Ok (Continue limit' column' s' mem') →
  0 < limit → 0 ≤ DeserializeStateWithDictionary.num_pending_rows s →
  0 ≤ limit' ≤ limit
  ∧ 0 ≤ DeserializeStateWithDictionary.num_pending_rows s'
  ∧ ColumnWithDictionary_size column ≤ ColumnWithDictionary_size column'
  ∧ ColumnWithDictionary_size column'
    ≤ ColumnWithDictionary_size column + (limit - limit').
Proof.
  unfold loop_body. intros Hcall Hlimit Hpending.
  apply bind_Ok_inv in Hcall as (header & Hheader & Hcall).
  destruct header as [[s1 mem1]|]; [|discriminate].
  apply bind_Ok_inv in Hcall as ([column1 mem2] & Hindexes & Hcall).
  injection Hcall as <- <- <- <-.
  apply readIndexes_rows in Hindexes.
  assert (Hpending1 : 0 ≤ DeserializeStateWithDictionary.num_pending_rows s1).
  { destruct (decide _) in Hheader.
    - by apply read_block_header_memory in Hheader as (? & _).
    - by injection Hheader as <- <-. }
  cbn. lia.
Qed.

Lemma deserialize_loop_rows (fuel : nat) (keys_stream indexes_stream : StreamPtr)
    (limit : Z) (column column' : ColumnWithDictionary V)
    (s s' : DeserializeStateWithDictionary.t V) (mem mem' : Memory) :
  0 ≤ limit → 0 ≤ DeserializeStateWithDictionary.num_pending_rows s →
  deserialize_loop dictionary_type fuel keys_stream indexes_stream limit column s mem
  = Some (Ok (column', s', mem')) →
  0 ≤ DeserializeStateWithDictionary.num_pending_rows s'
  ∧ ColumnWithDictionary_size column ≤ ColumnWithDictionary_size column'
  ∧ ColumnWithDictionary_size column' ≤ ColumnWithDictionary_size column + limit.
Proof.
  revert limit column s mem.
  induction fuel as [|fuel IH]; intros limit column s mem Hlimit Hpending; cbn;
    (destruct (decide (limit = 0)); [intros [= <- <- <-]; lia|]);
    [discriminate|].
  destruct (loop_body _ _ _ _ _ _ _) as [[s1 mem1|limit1 column1 s1 mem1]|e] eqn:Hbody;
    [| |discriminate].
  - apply loop_body_break in Hbody as [-> ->]. intros [= <- <- <-]. lia.
  - apply loop_body_rows in Hbody as (Hlimit1 & Hpending1 & Hsize); [|lia|done].
    intros Hloop. apply IH in Hloop; [lia|lia|done].
Qed.

(** X4.  With a limit and a count of pending rows that are not negative,
    the [while (limit)] loop of [deserializeBinaryBulkWithMultipleStreams]
    ends, whatever the streams hold: the call comes to an exception or to a
    column.  When it returns, the column has grown by no more than [limit]
    rows, and the state it leaves is again one of its own with a count of
    pending rows that is not negative. *)
Theorem deserialize_returns_at_most_limit_rows
    (column : ColumnWithDictionary V) (limit : Z)
    (settings : DeserializeBinaryBulkSettings.t)
    (s : DeserializeStateWithDictionary.t V) (mem : Memory) :
  0 ≤ limit → 0 ≤ DeserializeStateWithDictionary.num_pending_rows s →
  is_Some (deserializeBinaryBulkWithMultipleStreams dictionary_type column limit
             settings (Some (DeserializeState s)) mem)
  ∧ ∀ column' state' mem',
      deserializeBinaryBulkWithMultipleStreams dictionary_type column limit
        settings (Some (DeserializeState s)) mem = Some (Ok (column', state', mem')) →
      ColumnWithDictionary_size column ≤ ColumnWithDictionary_size column'
      ∧ ColumnWithDictionary_size column' ≤ ColumnWithDictionary_size column + limit
      ∧ ∃ s', state' = Some (DeserializeState s')
              ∧ 0 ≤ DeserializeStateWithDictionary.num_pending_rows s'.
Proof.
  intros Hlimit Hpending. unfold deserializeBinaryBulkWithMultipleStreams.
  cbn [checkAndGetWithDictionaryDeserializeState].
  destruct (KeysSerializationVersion.checkVersion _); [|split; [done|discriminate]].
  destruct (DeserializeBinaryBulkSettings.getter settings (_ ++ [DictionaryKeys]))
    as [keys_stream|];
    destruct (DeserializeBinaryBulkSettings.getter settings (_ ++ [DictionaryIndexes]))
      as [indexes_stream|];
    try (split; [done|discriminate]).
  - destruct (deserialize_loop_terminates dictionary_type
                (loop_fuel indexes_stream limit mem) keys_stream indexes_stream limit
                column s mem Hlimit Hpending) as [r Hr]; [done|].
    rewrite Hr. destruct r as [[[column1 s1] mem1]|e]; [|split; [done|discriminate]].
    split; [done|]. intros column' state' mem' [= <- <- <-].
    apply deserialize_loop_rows in Hr as (Hpending1 & Hsize); [|done..].
    split; [lia|]. split; [lia|]. by exists s1.
  - split; [done|]. intros column' state' mem' [= <- <- <-].
    split; [lia|]. split; [lia|]. by exists s.
Qed.

End Rows.

Lemma deserialize_returns_at_most_limit_rows_witness :
  0 ≤ 2
  ∧ 0 ≤ DeserializeStateWithDictionary.num_pending_rows decoder_state_after_first_block
  ∧ is_Some (deserializeBinaryBulkWithMultipleStreams UInt8_dictionary_type
               column_after_first_block 2 deserialize_settings
               (Some (DeserializeState decoder_state_after_first_block))
               memory_after_first_block).
Proof.
  assert (Hlimit : 0 ≤ 2) by lia.
  assert (Hpending : 0 ≤ DeserializeStateWithDictionary.num_pending_rows
                           decoder_state_after_first_block) by (cbn; lia).
  split; [exact Hlimit|]. split; [exact Hpending|].
  exact (proj1 (deserialize_returns_at_most_limit_rows UInt8_dictionary_type
                  column_after_first_block 2 deserialize_settings
                  decoder_state_after_first_block memory_after_first_block
                  Hlimit Hpending)).
Defined.

(** ** What one call of the serializer writes *)

Lemma getDataType_create (column : ColumnVector) (a g : bool) :
  IndexesSerializationType.getDataType (IndexesSerializationType.create column a g)
  = Ok (value_type column).
Proof. by destruct column as [[] data]. Qed.

Lemma DataTypeNumber_appends (T : UIntType) : codec_appends (DataTypeNumber T).
Proof. intros column ostr offset limit. reflexivity. Qed.

Section BlockWritten.

Context {V : Type} `{EqDecision V}.
Variable dictionary_type : DataTypePtr V.

(** The call, for a state of the serializer with a dictionary and both
    streams: the state it leaves and the writes it makes, in their order. *)
Lemma serialize_unfold
    (column : ColumnWithDictionary V) (offset limit : Z)
    (settings : SerializeBinaryBulkSettings.t)
    (key_version : KeysSerializationVersion.t) (global_dictionary : ColumnUnique V)
    (bufs : Buffers) (keys_stream indexes_stream : StreamPtr) :
  SerializeBinaryBulkSettings.getter settings
    (SerializeBinaryBulkSettings.path settings ++ [DictionaryKeys]) = Some keys_stream →
  SerializeBinaryBulkSettings.getter settings
    (SerializeBinaryBulkSettings.path settings ++ [DictionaryIndexes])
  = Some indexes_stream →
  KeysSerializationVersion.value key_version = 1 →
  let max_dictionary_size := SerializeBinaryBulkSettings.max_dictionary_size settings in
  let block := block_of dictionary_type column offset limit max_dictionary_size
                 global_dictionary in
  let keys_type := removeNullable dictionary_type in
  let positions := block_positions block in
  let keys := block_keys block in
  let index_version :=
    IndexesSerializationType.create positions (negb (bool_decide (keys = [])))
      (bool_decide (max_dictionary_size ≠ 0)) in
  let bufs1 :=
    on_stream indexes_stream (IndexesSerializationType.serialize index_version) bufs in
  let bufs2 :=
    if block_flushes settings block
    then on_stream keys_stream
           (λ ostr, serializeBinaryBulk keys_type
                      (getNestedNotNullableColumn (block_dictionary block)) ostr 0
                      (Z.of_nat (length (getNestedNotNullableColumn (block_dictionary block)))))
           (on_stream keys_stream
              (writeIntBinary
                 (Z.of_nat (length (getNestedNotNullableColumn (block_dictionary block)))))
              bufs1)
    else bufs1 in
  let bufs3 :=
    if negb (bool_decide (keys = []))
    then on_stream indexes_stream
           (λ ostr, serializeBinaryBulk keys_type keys ostr 0 (Z.of_nat (length keys)))
           (on_stream indexes_stream (writeIntBinary (Z.of_nat (length keys))) bufs2)
    else bufs2 in
  serializeBinaryBulkWithMultipleStreams dictionary_type column offset limit settings
    (Some (SerializeState
             (SerializeStateWithDictionary.mk key_version (Some global_dictionary))))
    bufs
  = Ok (Some (SerializeState
                (SerializeStateWithDictionary.mk key_version
                   (Some (if block_flushes settings block
                          then createColumnUnique dictionary_type
                          else block_dictionary block)))),
        on_stream indexes_stream
          (λ ostr, serializeBinaryBulk (DataTypeNumber (value_type positions))
                     (getData positions) ostr 0 (Z.of_nat (length (getData positions))))
          (on_stream indexes_stream
             (writeIntBinary (Z.of_nat (length (getData positions)))) bufs3)).
Proof.
  intros Hkeys Hindexes Hversion. cbn zeta.
  unfold serializeBinaryBulkWithMultipleStreams, block_flushes, block_of.
  rewrite Hkeys, Hindexes.
  cbn [checkAndGetWithDictionarySerializeState mbind result_bind
       SerializeStateWithDictionary.global_dictionary
       SerializeStateWithDictionary.key_version].
  rewrite Hversion. cbn [KeysSerializationVersion.checkVersion].
  unfold KeysSerializationVersion.checkVersion,
    KeysSerializationVersion.SingleDictionaryWithAdditionalKeysPerBlock.
  destruct (decide (1 ≠ 1)) as [|_]; [done|]. cbn [mbind result_bind].
  destruct (decide (SerializeBinaryBulkSettings.max_dictionary_size settings ≠ 0))
    as [Hmax|Hmax].
  - destruct (uniqueInsertRangeWithOverflow _ _ _) as [dictionary iwo].
    cbn [mbind result_bind block_dictionary block_positions block_keys nested_values].
    destruct (SerializeBinaryBulkSettings.use_new_dictionary_on_overflow settings);
      cbn [mbind result_bind andb];
      [destruct (bool_decide (_ ≤ ColumnUnique_size dictionary))|];
      cbn [mbind result_bind]; rewrite getDataType_create; cbn [mbind result_bind];
      reflexivity.
  - cbn [mbind result_bind block_dictionary block_positions block_keys].
    destruct (SerializeBinaryBulkSettings.use_new_dictionary_on_overflow settings);
      cbn [mbind result_bind andb];
      [destruct (bool_decide (_ ≤ ColumnUnique_size global_dictionary))|];
      cbn [mbind result_bind]; rewrite getDataType_create; cbn [mbind result_bind];
      reflexivity.
Qed.

End BlockWritten.

Section BlockBytes.

Context {V : Type} `{EqDecision V}.
Variable dictionary_type : DataTypePtr V.

Lemma buffer_at_on_stream_other (stream other : StreamPtr) (f : list byte → list byte)
    (bufs : Buffers) :
  stream ≠ other → on_stream stream f bufs !! other = bufs !! other.
Proof. intros Hne. unfold on_stream. by rewrite lookup_insert_ne. Qed.

(** The writes of [serialize_unfold], read off the buffers. *)
Lemma serialize_written
    (column : ColumnWithDictionary V) (offset limit : Z)
    (settings : SerializeBinaryBulkSettings.t)
    (key_version : KeysSerializationVersion.t) (global_dictionary : ColumnUnique V)
    (bufs : Buffers) (keys_stream indexes_stream : StreamPtr) :
  SerializeBinaryBulkSettings.getter settings
    (SerializeBinaryBulkSettings.path settings ++ [DictionaryKeys]) = Some keys_stream →
  SerializeBinaryBulkSettings.getter settings
    (SerializeBinaryBulkSettings.path settings ++ [DictionaryIndexes])
  = Some indexes_stream →
  keys_stream ≠ indexes_stream →
  KeysSerializationVersion.value key_version = 1 →
  codec_appends (removeNullable dictionary_type) →
  let max_dictionary_size := SerializeBinaryBulkSettings.max_dictionary_size settings in
  let block := block_of dictionary_type column offset limit max_dictionary_size
                 global_dictionary in
  ∃ bufs',
    serializeBinaryBulkWithMultipleStreams dictionary_type column offset limit settings
      (Some (SerializeState
               (SerializeStateWithDictionary.mk key_version (Some global_dictionary))))
      bufs
    = Ok (Some (SerializeState
                  (SerializeStateWithDictionary.mk key_version
                     (Some (if block_flushes settings block
                            then createColumnUnique dictionary_type
                            else block_dictionary block)))),
          bufs')
    ∧ buffer_at bufs' indexes_stream
      = buffer_at bufs indexes_stream ++ block_bytes dictionary_type max_dictionary_size block
    ∧ buffer_at bufs' keys_stream
      = buffer_at bufs keys_stream
        ++ (if block_flushes settings block
            then dictionary_bytes dictionary_type (block_dictionary block)
            else [])
    ∧ ∀ other : StreamPtr, other ≠ keys_stream → other ≠ indexes_stream →
        bufs' !! other = bufs !! other.
Proof.
  intros Hkeys Hindexes Hne Hversion Happends max_dictionary_size block.
  eexists. split; [by apply serialize_unfold|].
  fold max_dictionary_size block.
  assert (Hne' : indexes_stream ≠ keys_stream) by done.
  split; [|split].
  - rewrite !buffer_at_on_stream. unfold block_bytes.
    cbn [serializeBinaryBulk DataTypeNumber]. rewrite app_nil_l.
    unfold writeIntBinary. rewrite <- !app_assoc. 
    destruct (bool_decide (block_keys block = [])); cbn [negb].
    + destruct (block_flushes settings block).
      * rewrite !(buffer_at_on_stream_ne keys_stream indexes_stream) by done.
        rewrite buffer_at_on_stream. unfold IndexesSerializationType.serialize, writeIntBinary.
        by rewrite <- !app_assoc.
      * rewrite buffer_at_on_stream. unfold IndexesSerializationType.serialize, writeIntBinary.
        by rewrite <- !app_assoc.
    + rewrite !buffer_at_on_stream, Happends. unfold writeIntBinary.
      destruct (block_flushes settings block).
      * rewrite !(buffer_at_on_stream_ne keys_stream indexes_stream) by done.
        rewrite buffer_at_on_stream. unfold IndexesSerializationType.serialize, writeIntBinary.
        by rewrite <- !app_assoc.
      * rewrite buffer_at_on_stream. unfold IndexesSerializationType.serialize, writeIntBinary.
        by rewrite <- !app_assoc.
  - rewrite !(buffer_at_on_stream_ne indexes_stream keys_stream) by done.
    destruct (negb (bool_decide (block_keys block = [])));
      rewrite ?(buffer_at_on_stream_ne indexes_stream keys_stream) by done;
      (destruct (block_flushes settings block);
       [rewrite !buffer_at_on_stream, Happends,
          (buffer_at_on_stream_ne indexes_stream keys_stream) by done;
        unfold dictionary_bytes, writeIntBinary; by rewrite <- app_assoc
       |rewrite (buffer_at_on_stream_ne indexes_stream keys_stream) by done;
        by rewrite app_nil_r]).
  - intros other Hk Hi. rewrite !(buffer_at_on_stream_other indexes_stream other) by done.
    destruct (negb (bool_decide (block_keys block = [])));
      rewrite ?(buffer_at_on_stream_other indexes_stream other) by done;
      (destruct (block_flushes settings block);
       [rewrite !(buffer_at_on_stream_other keys_stream other) by done|]);
      by rewrite (buffer_at_on_stream_other indexes_stream other).
Qed.

End BlockBytes.

(** ** Inserting keys into a dictionary *)

Section Insert.

Context {V : Type} `{EqDecision V}.
Variable keys_type : IDataType V.

Lemma position_of_Some (v : V) (l : list V) (p : nat) :
  position_of v l = Some p → l !! p = Some v.
Proof.
  revert p. induction l as [|x l IH]; intros p; cbn; [discriminate|].
  destruct (decide (x = v)) as [->|Hne]; [by intros [= <-]|].
  destruct (position_of v l) as [q|]; [|discriminate].
  intros [= <-]. by apply IH.
Qed.

Lemma ColumnUnique_at_holder (u : ColumnUnique V) (p : nat) (v : V) :
  column_holder u !! p = Some v →
  ColumnUnique_at keys_type u (Z.of_nat (null_offset (is_nullable u) + p)) = Some v.
Proof.
  intros Hp. unfold ColumnUnique_at. rewrite Nat2Z.id.
  destruct (decide _); [lia|]. f_equal.
  replace (null_offset (is_nullable u) + p - null_offset (is_nullable u))%nat with p by lia.
  by apply nth_lookup_Some.
Qed.

Lemma ColumnUnique_at_grown (u : ColumnUnique V) (added : list V) (id : Z) :
  0 ≤ id < ColumnUnique_size u →
  ColumnUnique_at keys_type (mkColumnUnique (is_nullable u) (column_holder u ++ added)) id
  = ColumnUnique_at keys_type u id.
Proof.
  unfold ColumnUnique_at, ColumnUnique_size. cbn. intros Hid.
  destruct (decide _); [done|]. f_equal. apply app_nth1. lia.
Qed.

Lemma unique_insert_well (max_dictionary_size : option Z) (u : ColumnUnique V)
    (is_null : nat → bool) (rows : list V) (v : V)
    (acc : ColumnUnique V * list V * list Z) :
  inserted_well keys_type max_dictionary_size u is_null rows acc →
  inserted_well keys_type max_dictionary_size u is_null (rows ++ [v])
    (unique_insert max_dictionary_size acc (is_null (length rows)) v).
Proof.
  destruct acc as [[u' overflowed] ids].
  intros (Hnullable & (added & Hadded & Hcount) & Hlength & Hfull & Hnone & Hbudget & Hrows).
  assert (Hold : ∀ u'' overflowed'' id'',
    (∀ row id w, ids !! row = Some id → rows !! row = Some w →
       0 ≤ id < ColumnUnique_size u'' + Z.of_nat (length overflowed'')
       ∧ block_value keys_type u'' overflowed'' id
         = if is_null row && is_nullable u then None else Some w) →
    (0 ≤ id'' < ColumnUnique_size u'' + Z.of_nat (length overflowed'')
     ∧ block_value keys_type u'' overflowed'' id''
       = if is_null (length rows) && is_nullable u then None else Some v) →
    ∀ row id w, (ids ++ [id'']) !! row = Some id → (rows ++ [v]) !! row = Some w →
      0 ≤ id < ColumnUnique_size u'' + Z.of_nat (length overflowed'')
      ∧ block_value keys_type u'' overflowed'' id
        = if is_null row && is_nullable u then None else Some w).
  { intros u'' overflowed'' id'' Hprevious Hnew row id w Hid Hw.
    destruct (decide (row < length rows)%nat) as [Hlt|Hge].
    - rewrite lookup_app_l in Hid by lia. rewrite lookup_app_l in Hw by lia.
      by eapply Hprevious.
    - assert (row = length rows) as ->.
      { apply lookup_lt_Some in Hw. rewrite length_app in Hw. cbn in Hw. lia. }
      rewrite <- Hlength in Hid at 1. rewrite list_lookup_middle in Hid by done.
      rewrite list_lookup_middle in Hw by done.
      injection Hid as <-. injection Hw as <-. exact Hnew. }
  assert (Hsize : ColumnUnique_size u' = Z.of_nat (null_offset (is_nullable u')
                                                  + length (column_holder u')))
    by reflexivity.
  unfold unique_insert.
  destruct (is_null (length rows) && is_nullable u') eqn:Hnull.
  - (* a NULL of a nullable dictionary: the reserved id 0 *)
    apply andb_true_iff in Hnull as [Hisnull Hisnullable].
    split; [|split; [|split; [|split; [|split; [|split]]]]]; try done.
    + exists added. split; [done|]. rewrite length_app. cbn. lia.
    + rewrite !length_app. cbn. lia.
    + apply Hold; [done|]. rewrite Hisnullable in Hsize. cbn in Hsize.
      split; [lia|]. unfold block_value. destruct (decide _); [|lia].
      unfold ColumnUnique_at. rewrite Hisnullable. cbn.
      by rewrite Hisnull, <- Hnullable, Hisnullable.
  - assert (Hexpected : (if is_null (length rows) && is_nullable u then None else Some v)
                        = Some v) by (by rewrite <- Hnullable, Hnull).
    destruct (position_of v (column_holder u')) as [p|] eqn:Hposition.
    + (* a key of the dictionary *)
      apply position_of_Some in Hposition.
      pose proof (lookup_lt_Some _ _ _ Hposition) as Hp.
      split; [|split; [|split; [|split; [|split; [|split]]]]]; try done.
      * exists added. split; [done|]. rewrite length_app. cbn. lia.
      * rewrite !length_app. cbn. lia.
      * apply Hold; [done|]. rewrite Hexpected. split; [lia|].
        unfold block_value. destruct (decide _); [|lia].
        by apply ColumnUnique_at_holder.
    + destruct (match max_dictionary_size with
                | Some max => bool_decide (ColumnUnique_size u' < max)
                | None => true
                end) eqn:Hroom.
      * (* a new key, and room for it *)
        assert (Hempty : overflowed = []).
        { destruct max_dictionary_size as [max|]; [|by apply Hnone].
          apply bool_decide_eq_true in Hroom.
          destruct overflowed as [|w overflowed]; [done|].
          specialize (Hfull ltac:(done) max eq_refl). lia. }
        subst overflowed.
        assert (Hsize' : ColumnUnique_size
                           (mkColumnUnique (is_nullable u') (column_holder u' ++ [v]))
                         = ColumnUnique_size u' + 1).
        { unfold ColumnUnique_size. cbn. rewrite length_app. cbn. lia. }
        split; [|split; [|split; [|split; [|split; [|split]]]]]; try done.
        -- exists (added ++ [v]). cbn. rewrite Hadded, app_assoc.
           split; [done|]. rewrite !length_app. cbn in *. lia.
        -- rewrite !length_app. cbn. lia.
        -- intros max ->. apply bool_decide_eq_true in Hroom.
           rewrite Hsize'. specialize (Hbudget max eq_refl). lia.
        -- apply Hold.
           ++ intros row id w Hid Hw. destruct (Hrows row id w Hid Hw) as [Hrange Hvalue].
              cbn [length] in Hrange. rewrite Hsize'. cbn [length].
              split; [lia|]. rewrite <- Hvalue. unfold block_value. rewrite Hsize'.
              destruct (decide _); [|lia]. destruct (decide _); [|lia].
              apply ColumnUnique_at_grown. lia.
           ++ rewrite Hexpected, Hsize'. cbn [length].
              split; [lia|]. unfold block_value. rewrite Hsize'.
              destruct (decide _); [|lia].
              rewrite Hsize.
              apply (ColumnUnique_at_holder
                       (mkColumnUnique (is_nullable u') (column_holder u' ++ [v]))
                       (length (column_holder u')) v).
              cbn. by apply list_lookup_middle.
      * (* a new key, and no room: into the overflowed keys *)
        destruct max_dictionary_size as [max|]; [|discriminate].
        apply bool_decide_eq_false in Hroom.
        destruct (position_of v overflowed) as [q|] eqn:Hoverflowed.
        -- apply position_of_Some in Hoverflowed.
           pose proof (lookup_lt_Some _ _ _ Hoverflowed) as Hq.
           split; [|split; [|split; [|split; [|split; [|split]]]]]; try done.
           ++ exists added. split; [done|]. rewrite length_app. cbn. lia.
           ++ rewrite !length_app. cbn. lia.
           ++ apply Hold; [done|]. rewrite Hexpected. split; [lia|].
              unfold block_value. destruct (decide _); [lia|]. f_equal.
              replace (Z.to_nat (ColumnUnique_size u' + Z.of_nat q - ColumnUnique_size u'))
                with q by lia.
              by apply nth_lookup_Some.
        -- split; [|split; [|split; [|split; [|split; [|split]]]]]; try done.
           ++ exists added. split; [done|]. rewrite !length_app. cbn. lia.
           ++ rewrite !length_app. cbn. lia.
           ++ intros _ max' [= <-]. lia.
           ++ apply Hold.
              ** intros row id w Hid Hw. destruct (Hrows row id w Hid Hw) as [Hrange Hvalue].
                 rewrite length_app. cbn. split; [lia|]. rewrite <- Hvalue.
                 unfold block_value. destruct (decide _); [done|]. f_equal.
                 apply app_nth1. lia.
              ** rewrite Hexpected, length_app. cbn. split; [lia|].
                 unfold block_value. destruct (decide _); [lia|]. f_equal.
                 replace (Z.to_nat (ColumnUnique_size u' + Z.of_nat (length overflowed)
                                    - ColumnUnique_size u'))
                   with (length overflowed) by lia.
                 apply nth_lookup_Some. by apply list_lookup_middle.
Qed.

Lemma unique_insert_range_well (max_dictionary_size : option Z) (u : ColumnUnique V)
    (keys : IColumn V) :
  inserted_well keys_type max_dictionary_size u (is_null_at keys) (nested_values keys)
    (unique_insert_range max_dictionary_size u keys).
Proof.
  unfold unique_insert_range.
  induction (nested_values keys) as [|v rows IH] using rev_ind.
  - cbn. split; [done|]. split; [by exists []; rewrite app_nil_r|].
    split; [done|]. split; [done|]. split; [done|]. split; [intros max _; lia|].
    intros row id v Hid. by rewrite lookup_nil in Hid.
  - rewrite imap_app, foldl_app. cbn [imap foldl]. rewrite Nat.add_0_r.
    by apply unique_insert_well.
Qed.

(** [uniqueInsertRangeWithOverflow]: the dictionary only grows, at its end
    and within its budget; every key gets an id, and the id stands for the
    key in the dictionary followed by the overflowed keys. *)
Lemma uniqueInsertRangeWithOverflow_spec (u : ColumnUnique V) (keys : IColumn V)
    (max_dictionary_size : Z) :
  let result := uniqueInsertRangeWithOverflow u keys max_dictionary_size in
  let u' := result.1 in
  let ids := getData (indexes result.2) in
  let overflowed := overflowed_keys result.2 in
  is_nullable u' = is_nullable u
  ∧ (∃ added, column_holder u' = column_holder u ++ added
              ∧ (length added + length overflowed ≤ IColumn_size keys)%nat)
  ∧ length ids = IColumn_size keys
  ∧ ColumnUnique_size u' ≤ Z.max max_dictionary_size (ColumnUnique_size u)
  ∧ (overflowed ≠ [] → max_dictionary_size ≤ ColumnUnique_size u')
  ∧ ∀ (row : nat) (id : Z),
      ids !! row = Some id →
      0 ≤ id < ColumnUnique_size u' + Z.of_nat (length overflowed)
      ∧ block_value keys_type u' overflowed id
        = IColumn_field keys_type (is_nullable u) keys row.
Proof.
  pose proof (unique_insert_range_well (Some max_dictionary_size) u keys) as Hwell.
  unfold uniqueInsertRangeWithOverflow.
  destruct (unique_insert_range _ u keys) as [[u' overflowed] ids].
  destruct Hwell as (Hnullable & Hadded & Hlength & Hfull & _ & Hbudget & Hrows).
  cbn. assert (Hsize : length (nested_values keys) = IColumn_size keys) by (by destruct keys).
  rewrite <- Hsize.
  split; [done|]. split; [done|]. split; [done|]. split; [by apply Hbudget|].
  split; [intros Hne; by apply Hfull|].
  intros row id Hid.
  assert (Hrow : (row < length (nested_values keys))%nat).
  { rewrite <- Hlength. by eapply lookup_lt_Some. }
  destruct (lookup_lt_is_Some_2 _ _ Hrow) as [v Hv].
  unfold IColumn_field. rewrite (nth_lookup_Some _ _ _ _ Hv). by eapply Hrows.
Qed.

Lemma uniqueInsertRangeFrom_spec (u : ColumnUnique V) (keys : IColumn V) :
  let result := uniqueInsertRangeFrom u keys in
  is_nullable result.1 = is_nullable u
  ∧ (∃ added, column_holder result.1 = column_holder u ++ added)
  ∧ length result.2 = IColumn_size keys
  ∧ ∀ (row : nat) (id : Z),
      result.2 !! row = Some id →
      0 ≤ id < ColumnUnique_size result.1
      ∧ ColumnUnique_at keys_type result.1 id
        = IColumn_field keys_type (is_nullable u) keys row.
Proof.
  pose proof (unique_insert_range_well None u keys) as Hwell.
  unfold uniqueInsertRangeFrom.
  destruct (unique_insert_range _ u keys) as [[u' overflowed] ids].
  destruct Hwell as (Hnullable & (added & Hadded & _) & Hlength & _ & Hnone & _ & Hrows).
  rewrite (Hnone eq_refl) in Hrows. cbn.
  assert (Hsize : length (nested_values keys) = IColumn_size keys) by (by destruct keys).
  rewrite <- Hsize.
  split; [done|]. split; [by exists added|]. split; [done|].
  intros row id Hid.
  assert (Hrow : (row < length (nested_values keys))%nat).
  { rewrite <- Hlength. by eapply lookup_lt_Some. }
  destruct (lookup_lt_is_Some_2 _ _ Hrow) as [v Hv].
  destruct (Hrows row id v Hid Hv) as [Hrange Hvalue]. cbn in Hrange.
  split; [lia|]. unfold IColumn_field. rewrite (nth_lookup_Some _ _ _ _ Hv).
  rewrite <- Hvalue. unfold block_value. by destruct (decide _); [|lia].
Qed.

End Insert.

(** ** Packed indexes, read back *)

Lemma le_combine_le_split_small (n : nat) (x : Z) (rest : list byte) :
  0 ≤ x < 2 ^ (8 * Z.of_nat n) →
  le_combine (take n (le_split n x ++ rest)) = x.
Proof.
  intros Hx. rewrite <- (length_le_split n x) at 1. rewrite take_app_length.
  rewrite le_combine_split. apply Z.mod_small. by rewrite Z.mul_comm.
Qed.

Lemma sizeof_pos (T : UIntType) : (0 < sizeof T)%nat.
Proof. destruct T; cbn; lia. Qed.

Lemma read_packed_written (T : UIntType) (positions : list Z) (fuel : nat)
    (rest : ReadBuffer) :
  Forall (λ p, 0 ≤ p < modulus T) positions →
  (length positions ≤ fuel)%nat →
  read_packed T fuel (Z.of_nat (length positions))
    (concat (le_split (sizeof T) <$> positions) ++ rest)
  = positions.
Proof.
  revert fuel. induction positions as [|p positions IH]; intros fuel Hrange Hfuel.
  - destruct fuel; [done|]. cbn. by destruct (decide (0 ≤ 0)); [|lia].
  - destruct fuel as [|fuel]; [cbn in Hfuel; lia|].
    apply Forall_cons in Hrange as [Hp Hrange].
    cbn [read_packed length fmap list_fmap concat].
    destruct (decide (Z.of_nat (S (length positions)) ≤ 0)); [lia|].
    rewrite <- app_assoc.
    destruct (decide _) as [Hshort|_].
    { rewrite length_app, length_le_split in Hshort. lia. }
    rewrite le_combine_le_split_small by exact Hp.
    assert (Hdrop : ∀ tail : list byte,
              drop (sizeof T) (le_split (sizeof T) p ++ tail) = tail).
    { intros tail. rewrite <- (length_le_split (sizeof T) p) at 1.
      apply drop_app_length. }
    rewrite Hdrop.
    replace (Z.of_nat (S (length positions)) - 1) with (Z.of_nat (length positions)) by lia.
    f_equal. apply IH; [done|cbn in Hfuel; lia].
Qed.

Lemma packed_length (T : UIntType) (positions : list Z) :
  length (concat (le_split (sizeof T) <$> positions))
  = (sizeof T * length positions)%nat.
Proof.
  induction positions as [|p positions IH]; cbn; [lia|].
  rewrite length_app, length_le_split, IH. lia.
Qed.

(** The codec of the unsigned types reads back what it packed. *)
Lemma DataTypeNumber_round_trip (T : UIntType) :
  codec_round_trip (DataTypeNumber T) (λ p, 0 ≤ p < modulus T).
Proof.
  intros column rest Hrange. cbn [deserializeBinaryBulk serializeBinaryBulk DataTypeNumber].
  rewrite !app_nil_l, Nat2Z.id, drop_0, firstn_all.
  rewrite read_packed_written.
  - by rewrite packed_length.
  - done.
  - rewrite length_app, packed_length. pose proof (sizeof_pos T). nia.
Qed.

(** ** The rows a column gains *)

Section Gain.

Context {V : Type} `{EqDecision V}.
Variable keys_type : IDataType V.

Lemma valid_column_app (u : ColumnUnique V) (identity : ObjectIdentity)
    (old new : list Z) :
  Forall (λ id, 0 ≤ id < ColumnUnique_size u) old →
  Forall (λ id, 0 ≤ id < ColumnUnique_size u) new →
  valid_column (mkColumnWithDictionary u identity (ColumnUInt_of (old ++ new))).
Proof. intros Hold Hnew. unfold valid_column. cbn. by apply Forall_app. Qed.

(** [insertRangeFromDictionaryEncodedColumn]: the column keeps its rows and
    gains, for each position, the value of the key at that position. *)
Lemma insertRangeFromDictionaryEncodedColumn_values
    (column : ColumnWithDictionary V) (keys : IColumn V) (positions : ColumnVector) :
  valid_column column →
  Forall (λ p, 0 ≤ p < Z.of_nat (IColumn_size keys)) (getData positions) →
  ∃ column',
    insertRangeFromDictionaryEncodedColumn column keys positions = Ok column'
    ∧ valid_column column'
    ∧ is_nullable (getDictionary column') = is_nullable (getDictionary column)
    ∧ dictionary_identity column' = Unshared
    ∧ column_values keys_type column'
      = column_values keys_type column
        ++ ((λ p, IColumn_field keys_type (is_nullable (getDictionary column)) keys
                    (Z.to_nat p))
            <$> getData positions).
Proof.
  intros Hvalid Hpositions. unfold insertRangeFromDictionaryEncodedColumn.
  rewrite bool_decide_eq_true_2 by done.
  pose proof (uniqueInsertRangeFrom_spec keys_type (getDictionary column) keys) as Hspec.
  destruct (uniqueInsertRangeFrom (getDictionary column) keys) as [dict inserted].
  cbn [fst snd] in Hspec.
  destruct Hspec as (Hnullable & (added & Hadded) & Hlength & Hrows).
  assert (Hdict : dict = mkColumnUnique (is_nullable (getDictionary column))
                           (column_holder (getDictionary column) ++ added)).
  { destruct dict as [nullable holder]. cbn in *. by subst. }
  assert (Hsize : ColumnUnique_size (getDictionary column) ≤ ColumnUnique_size dict).
  { rewrite Hdict. unfold ColumnUnique_size. cbn. rewrite length_app. lia. }
  assert (Hinserted : ∀ p, p ∈ getData positions →
            0 ≤ nth (Z.to_nat p) inserted 0 < ColumnUnique_size dict
            ∧ ColumnUnique_at keys_type dict (nth (Z.to_nat p) inserted 0)
              = IColumn_field keys_type (is_nullable (getDictionary column)) keys
                  (Z.to_nat p)).
  { intros p Hp. rewrite Forall_forall in Hpositions. specialize (Hpositions p Hp).
    assert (Hlt : (Z.to_nat p < length inserted)%nat) by lia.
    destruct (lookup_lt_is_Some_2 _ _ Hlt) as [id Hid].
    rewrite (nth_lookup_Some _ _ _ _ Hid). by apply Hrows. }
  eexists. split; [reflexivity|]. split; [|split; [done|split; [done|]]].
  - apply valid_column_app.
    + eapply Forall_impl; [exact Hvalid|]. intros id Hid. cbn in Hid. lia.
    + apply Forall_fmap, Forall_forall. intros p Hp. cbn. by apply Hinserted.
  - unfold column_values. cbn [getDictionary getIndexes getData ColumnUInt_of].
    rewrite fmap_app. f_equal.
    + apply Forall_fmap_ext. eapply Forall_impl; [exact Hvalid|]. intros id Hid.
      cbn in Hid. rewrite Hdict. by apply ColumnUnique_at_grown.
    + rewrite <- list_fmap_compose. apply Forall_fmap_ext, Forall_forall.
      intros p Hp. cbn. by apply Hinserted.
Qed.

Lemma getNestedColumn_size (u : ColumnUnique V) :
  Z.of_nat (IColumn_size (getNestedColumn keys_type u)) = ColumnUnique_size u.
Proof.
  unfold getNestedColumn, ColumnUnique_size. by destruct (is_nullable u); cbn; lia.
Qed.

(** A row of the nested column of a dictionary is the value of its id. *)
Lemma getNestedColumn_field (u : ColumnUnique V) (id : Z) :
  0 ≤ id < ColumnUnique_size u →
  IColumn_field keys_type (is_nullable u) (getNestedColumn keys_type u) (Z.to_nat id)
  = ColumnUnique_at keys_type u id.
Proof.
  unfold IColumn_field, getNestedColumn, ColumnUnique_at, ColumnUnique_size.
  destruct (is_nullable u) eqn:Hnullable; intros Hid.
  - unfold is_null_at, nested_values, null_offset in *.
    destruct (Z.to_nat id) as [|row] eqn:Hrow.
    + by destruct (decide (0 < 1)%nat); [|lia].
    + destruct (decide (S row < 1)%nat); [lia|].
      assert (Hflag : (true :: replicate (length (column_holder u)) false) !! S row
                      = Some false).
      { apply (lookup_replicate_2 (length (column_holder u)) false row). lia. }
      rewrite Hflag. cbn [default andb nth Nat.sub]. by rewrite Nat.sub_0_r.
  - unfold is_null_at, nested_values, null_offset.
    destruct (decide (Z.to_nat id < 0)%nat); [lia|]. cbn [andb]. by rewrite Nat.sub_0_r.
Qed.

Lemma IColumn_index_append_size (c : IColumn V) (picked : list Z) (additional : list V) :
  IColumn_size (IColumn_append (IColumn_index keys_type c picked) additional)
  = (length picked + length additional)%nat.
Proof. destruct c; cbn; by rewrite length_app, length_fmap. Qed.

Lemma field_index_append_l (c : IColumn V) (picked : list Z) (additional : list V)
    (nullable : bool) (row : nat) (p : Z) :
  picked !! row = Some p →
  IColumn_field keys_type nullable
    (IColumn_append (IColumn_index keys_type c picked) additional) row
  = IColumn_field keys_type nullable c (Z.to_nat p).
Proof.
  intros Hrow. pose proof (lookup_lt_Some _ _ _ Hrow) as Hlt.
  assert (Hpick : ∀ {A} (d : A) (l tail : list A),
            nth row (((λ q, nth (Z.to_nat q) l d) <$> picked) ++ tail) d
            = nth (Z.to_nat p) l d).
  { intros A d l tail. apply nth_lookup_Some. rewrite lookup_app_l.
    - by rewrite list_lookup_fmap, Hrow.
    - by rewrite length_fmap. }
  unfold IColumn_field. destruct c as [data|nested null_map];
    cbn [IColumn_index IColumn_append nested_values is_null_at].
  - by rewrite Hpick.
  - rewrite Hpick. rewrite <- !nth_lookup. by rewrite Hpick.
Qed.

Lemma field_index_append_r (c : IColumn V) (picked : list Z) (additional : list V)
    (nullable : bool) (row : nat) :
  (row < length additional)%nat →
  IColumn_field keys_type nullable
    (IColumn_append (IColumn_index keys_type c picked) additional) (length picked + row)
  = Some (nth row additional (getDefault keys_type)).
Proof.
  intros Hrow.
  unfold IColumn_field. destruct c as [data|nested null_map];
    cbn [IColumn_index IColumn_append nested_values is_null_at andb].
  - f_equal. rewrite app_nth2; rewrite length_fmap; [|lia]. f_equal. lia.
  - assert (Hflag : (((λ q, nth (Z.to_nat q) null_map false) <$> picked)
                     ++ replicate (length additional) false) !! (length picked + row)%nat
                    = Some false).
    { rewrite lookup_app_r; rewrite length_fmap; [|lia].
      apply lookup_replicate_2. lia. }
    rewrite Hflag. cbn [default andb]. f_equal.
    rewrite app_nth2; rewrite length_fmap; [|lia]. f_equal. lia.
Qed.

(** The keys that [readIndexes] puts together where a block counts into
    the global dictionary and on into its additional keys: the remapped
    positions find in them the values the positions stand for. *)
Lemma remapped_keys_field (T : UIntType) (positions : list Z) (global : ColumnUnique V)
    (additional : list V) :
  Forall (λ p, 0 ≤ p < modulus T) positions →
  Forall (λ p, 0 ≤ p < ColumnUnique_size global + Z.of_nat (length additional)) positions →
  let remapped := mapIndexWithOverflow (mkColumnVector T positions) (ColumnUnique_size global) in
  let keys :=
    IColumn_append
      (IColumn_index keys_type (getNestedColumn keys_type global) (getData remapped.2))
      additional in
  Forall (λ p, 0 ≤ p < Z.of_nat (IColumn_size keys)) (getData remapped.1)
  ∧ (λ p, IColumn_field keys_type (is_nullable global) keys (Z.to_nat p))
    <$> getData remapped.1
    = block_value keys_type global additional <$> positions.
Proof.
  intros Htype Hrange.
  assert (Hsize : 0 ≤ ColumnUnique_size global) by (unfold ColumnUnique_size; lia).
  unfold mapIndexWithOverflow. cbn [value_type getData].
  rewrite (mapIndexWithOverflow_T_closed_form T positions _ Htype Hsize).
  cbn [fst snd getData].
  set (distinct := below_max_distinct (ColumnUnique_size global) positions).
  rewrite IColumn_index_append_size.
  assert (Hrow : ∀ p, p ∈ positions →
    let p' := if decide (p < ColumnUnique_size global)
              then Z.of_nat (position_of_id p distinct)
              else p - ColumnUnique_size global + Z.of_nat (length distinct) in
    0 ≤ p' < Z.of_nat (length distinct + length additional)
    ∧ IColumn_field keys_type (is_nullable global)
        (IColumn_append
           (IColumn_index keys_type (getNestedColumn keys_type global) distinct)
           additional)
        (Z.to_nat p')
      = block_value keys_type global additional p).
  { intros p Hp. rewrite Forall_forall in Hrange. specialize (Hrange p Hp).
    unfold block_value. cbn zeta.
    destruct (decide (p < ColumnUnique_size global)) as [Hlt|Hge].
    - assert (Hin : p ∈ distinct).
      { apply first_occurrences_elem_of, list_elem_of_filter. by split. }
      pose proof (position_of_id_lt _ _ Hin) as Hpos.
      pose proof (position_of_id_lookup _ _ Hin) as Hlookup.
      split; [lia|]. rewrite Nat2Z.id.
      rewrite (field_index_append_l _ _ _ _ _ _ Hlookup).
      apply getNestedColumn_field. lia.
    - split; [lia|].
      replace (Z.to_nat (p - ColumnUnique_size global + Z.of_nat (length distinct)))
        with (length distinct + Z.to_nat (p - ColumnUnique_size global))%nat by lia.
      apply field_index_append_r. lia. }
  split.
  - apply Forall_fmap, Forall_forall. intros p Hp. cbn. by apply Hrow.
  - rewrite <- list_fmap_compose. apply Forall_fmap_ext, Forall_forall.
    intros p Hp. cbn. by apply Hrow.
Qed.

End Gain.

(** ** Reading the rows of a block *)

Section ReadBlock.

Context {V : Type} `{EqDecision V}.
Variable dictionary_type : DataTypePtr V.

Lemma IColumn_append_nil (c : IColumn V) : IColumn_append c [] = c.
Proof. destruct c; cbn; by rewrite !app_nil_r. Qed.

Lemma same_object_SharedAt (identity : ObjectIdentity) (address : nat) :
  same_object identity (SharedAt address) = true → identity = SharedAt address.
Proof.
  destruct identity as [|a]; cbn; [discriminate|].
  intros Hsame. apply bool_decide_eq_true in Hsame. by subst.
Qed.

Lemma same_object_refl (address : nat) :
  same_object (SharedAt address) (SharedAt address) = true.
Proof. cbn. by apply bool_decide_eq_true. Qed.

Lemma readIndexes_block (valid : V → Prop) (max_dictionary_size : Z)
    (global : ColumnUnique V) (block : Block V) (indexes_stream : StreamPtr)
    (column : ColumnWithDictionary V) (s : DeserializeStateWithDictionary.t V)
    (mem : Memory) (rest : ReadBuffer) :
  block_well_formed valid max_dictionary_size global block →
  DeserializeStateWithDictionary.index_type s
  = IndexesSerializationType.create (block_positions block)
      (negb (bool_decide (block_keys block = [])))
      (bool_decide (max_dictionary_size ≠ 0)) →
  DeserializeStateWithDictionary.additional_keys s
  = (if bool_decide (block_keys block = []) then None else Some (block_keys block)) →
  (max_dictionary_size ≠ 0 →
   is_nullable global = isNullable dictionary_type
   ∧ ∃ address,
       DeserializeStateWithDictionary.global_dictionary s = Some (address, global)) →
  column_ok dictionary_type s column →
  buffer_at (buffers mem) indexes_stream
  = serializeBinaryBulk (DataTypeNumber (value_type (block_positions block)))
      (getData (block_positions block)) []
      0 (Z.of_nat (length (getData (block_positions block))))
    ++ rest →
  ∃ column' mem',
    readIndexes dictionary_type indexes_stream
      (Z.of_nat (length (getData (block_positions block)))) column s mem
    = Ok (column', mem')
    ∧ buffer_at (buffers mem') indexes_stream = rest
    ∧ reads_only indexes_stream mem mem'
    ∧ column_ok dictionary_type s column'
    ∧ column_values (removeNullable dictionary_type) column'
      = column_values (removeNullable dictionary_type) column
        ++ block_rows dictionary_type max_dictionary_size global block.
Proof.
  intros (Htype & Hrange & _ & _ & _ & Hkeys) Hindex Hadditional Hglobal
    (Hvalid & Hnullable & Hidentity) Hbuffer.
  destruct block as [block_dict [T positions] keys].
  cbn [block_positions block_keys value_type getData] in *.
  unfold readIndexes. rewrite Hindex, getDataType_create.
  cbn [mbind result_bind value_type]. rewrite Hbuffer.
  rewrite (DataTypeNumber_round_trip T positions rest Htype).
  set (mem' := mkMemory (on_stream indexes_stream (drop _) (buffers mem)) (next_address mem)).
  assert (Hrest : buffer_at (buffers mem') indexes_stream = rest).
  { subst mem'. cbn [buffers]. rewrite buffer_at_on_stream, Hbuffer.
    apply drop_app_length. }
  assert (Hreads : reads_only indexes_stream mem mem').
  { subst mem'. destruct mem as [bufs address]. apply drop_memory. }
  clearbody mem'.
  cbn [IndexesSerializationType.has_additional_keys
       IndexesSerializationType.need_global_dictionary IndexesSerializationType.create].
  rewrite negb_involutive, Hadditional.
  unfold block_rows. cbn [block_positions block_keys getData].
  destruct (decide (max_dictionary_size ≠ 0)) as [Hmax|Hmax].
  - (* a block of a session with a global dictionary *)
    destruct (Hglobal Hmax) as (Hnullable_global & address & Hstate).
    rewrite Hstate, (bool_decide_eq_true_2 _ Hmax). cbn [negb].
    assert (Hcase_C :
      ∃ column',
        (let '(indexes_column, index_map) :=
           mapIndexWithOverflow (mkColumnVector T positions) (ColumnUnique_size global) in
         column_with_dictionary ←
           insertRangeFromDictionaryEncodedColumn column
             (IColumn_append
                (IColumn_index (removeNullable dictionary_type)
                   (getNestedColumn (removeNullable dictionary_type) global)
                   (getData index_map))
                keys)
             indexes_column;
         Ok (column_with_dictionary, mem'))
        = Ok (column', mem')
        ∧ column_ok dictionary_type s column'
        ∧ column_values (removeNullable dictionary_type) column'
          = column_values (removeNullable dictionary_type) column
            ++ (block_value (removeNullable dictionary_type) global keys <$> positions)).
    { destruct (remapped_keys_field (removeNullable dictionary_type) T positions global
                  keys Htype Hrange) as [Hremapped Hfields].
      destruct (mapIndexWithOverflow (mkColumnVector T positions) (ColumnUnique_size global))
        as [indexes_column index_map].
      cbn [fst snd] in Hremapped, Hfields.
      destruct (insertRangeFromDictionaryEncodedColumn_values
                  (removeNullable dictionary_type) column _ indexes_column Hvalid Hremapped)
        as (column' & Hcall & Hvalid' & Hnullable' & Hidentity' & Hvalues).
      exists column'. rewrite Hcall. split; [done|]. split.
      - split; [done|]. split; [congruence|by left].
      - rewrite Hvalues, Hnullable, <- Hnullable_global. by rewrite Hfields. }
    destruct (bool_decide (keys = [])) eqn:Hempty; cbn [negb andb].
    + apply bool_decide_eq_true in Hempty. subst keys.
      destruct (ColumnWithDictionary_empty column || same_object _ _) eqn:Hcase_A.
      * (* the indexes go into the column as they are *)
        assert (Hids : Forall (λ id, 0 ≤ id < ColumnUnique_size global) positions).
        { eapply Forall_impl; [exact Hrange|]. intros p Hp. cbn in Hp. cbn [length] in Hp. lia. }
        assert (Hrows : ColumnUnique_at (removeNullable dictionary_type) global <$> positions
                        = block_value (removeNullable dictionary_type) global [] <$> positions).
        { apply Forall_fmap_ext. eapply Forall_impl; [exact Hids|]. intros p Hp. cbn in Hp.
          unfold block_value. by destruct (decide _); [|lia]. }
        destruct (ColumnWithDictionary_empty column) eqn:Hcolumn_empty.
        -- unfold setSharedDictionary. rewrite Hcolumn_empty. cbn [mbind result_bind].
           unfold insertRangeFrom.
           cbn [dictionary_identity getDictionary getIndexes getData].
           rewrite same_object_refl. cbn [mbind result_bind].
           apply bool_decide_eq_true in Hcolumn_empty.
           rewrite Hcolumn_empty, app_nil_l, Nat2Z.id, drop_0, firstn_all.
           eexists _, mem'. split; [reflexivity|]. split; [done|]. split; [done|]. split.
           ++ split; [|split; [done|right; by exists address]].
              by apply (valid_column_app global (SharedAt address) [] positions).
           ++ unfold column_values. cbn [getDictionary getIndexes getData ColumnUInt_of].
              by rewrite Hcolumn_empty, Hrows.
        -- cbn [orb] in Hcase_A. apply same_object_SharedAt in Hcase_A.
           destruct Hidentity as [Hunshared|(address' & Hshared & Hsame)]; [congruence|].
           assert (Hdictionary : getDictionary column = global) by congruence.
           cbn [mbind result_bind]. unfold insertRangeFrom.
           cbn [dictionary_identity getDictionary getIndexes getData].
           rewrite Hcase_A, same_object_refl. cbn [mbind result_bind].
           rewrite Nat2Z.id, drop_0, firstn_all.
           eexists _, mem'. split; [reflexivity|]. split; [done|]. split; [done|]. split.
           ++ split; [|split; [done|right; exists address; cbn; split; [done|]]].
              { apply valid_column_app; [exact Hvalid|by rewrite Hdictionary]. }
              congruence.
           ++ unfold column_values. cbn [getDictionary getIndexes getData ColumnUInt_of].
              by rewrite fmap_app, Hdictionary, Hrows.
      * (* the column has a dictionary of its own *)
        destruct Hcase_C as (column' & Hcall & Hok & Hvalues).
        exists column', mem'. split; [|done].
        rewrite <- Hcall.
        destruct (mapIndexWithOverflow _ _) as [indexes_column index_map].
        by rewrite IColumn_append_nil.
    + destruct Hcase_C as (column' & Hcall & Hok & Hvalues).
      exists column', mem'. split; [|done]. exact Hcall.
  - (* a block of a session without one: its keys are all it counts into *)
    assert (Hzero : max_dictionary_size = 0)
      by (by destruct (decide (max_dictionary_size = 0)); [|done]).
    specialize (Hkeys Hzero). rewrite (bool_decide_eq_false_2 _ Hkeys).
    rewrite (bool_decide_eq_false_2 _ Hmax). cbn [negb andb].
    destruct (insertRangeFromDictionaryEncodedColumn_values
                (removeNullable dictionary_type) column (ColumnPlain keys)
                (mkColumnVector T positions) Hvalid)
      as (column' & Hcall & Hvalid' & Hnullable' & Hidentity' & Hvalues).
    { eapply Forall_impl; [exact Hrange|]. intros p Hp. cbn in Hp |- *. lia. }
    rewrite Hcall. cbn [mbind result_bind].
    exists column', mem'. split; [done|]. split; [done|]. split; [done|]. split.
    + split; [done|]. split; [congruence|by left].
    + rewrite Hvalues. done.
Qed.

End ReadBlock.

(** ** Reading a block *)

Section DecodeBlock.

Context {V : Type} `{EqDecision V}.
Variable dictionary_type : DataTypePtr V.
Variable valid : V → Prop.
Hypothesis keys_round_trip : codec_round_trip (removeNullable dictionary_type) valid.

(** A number of keys and the keys, taken off the front of a stream. *)
Lemma read_counted_keys (stream : StreamPtr) (bufs : Buffers) (keys : list V)
    (rest : ReadBuffer) :
  Forall valid keys →
  Z.of_nat (length keys) < UInt64_modulus →
  let written :=
    serializeBinaryBulk (removeNullable dictionary_type) keys [] 0
      (Z.of_nat (length keys)) in
  buffer_at bufs stream = le_split 8 (Z.of_nat (length keys)) ++ written ++ rest →
  readIntBinary (buffer_at bufs stream) = Ok (Z.of_nat (length keys), written ++ rest)
  ∧ deserializeBinaryBulk (removeNullable dictionary_type) []
      (buffer_at (<[stream := written ++ rest]> bufs) stream) (Z.of_nat (length keys))
    = (keys, length written)
  ∧ buffer_at (on_stream stream (drop (length written)) (<[stream := written ++ rest]> bufs))
      stream
    = rest
  ∧ ∀ other, other ≠ stream →
      buffer_at (on_stream stream (drop (length written)) (<[stream := written ++ rest]> bufs))
        other
      = buffer_at bufs other.
Proof.
  intros Hvalid Hlength written Hbuffer.
  split; [|split; [|split]].
  - rewrite Hbuffer. apply readIntBinary_le_split. lia.
  - rewrite buffer_at_insert_eq. by apply keys_round_trip.
  - rewrite buffer_at_on_stream, buffer_at_insert_eq. apply drop_app_length.
  - intros other Hother.
    rewrite buffer_at_on_stream_ne, buffer_at_insert_ne; done.
Qed.

Lemma readDictionary_written (keys_stream : StreamPtr) (global : ColumnUnique V)
    (s : DeserializeStateWithDictionary.t V) (mem : Memory) (rest : ReadBuffer) :
  is_nullable global = isNullable dictionary_type →
  Forall valid (column_holder global) →
  Z.of_nat (length (column_holder global)) < UInt64_modulus →
  buffer_at (buffers mem) keys_stream = dictionary_bytes dictionary_type global ++ rest →
  ∃ mem',
    readDictionary dictionary_type keys_stream s mem
    = Ok (DeserializeStateWithDictionary.set_global_dictionary s
            (Some (next_address mem, global)),
          mem')
    ∧ buffer_at (buffers mem') keys_stream = rest
    ∧ (∀ other, other ≠ keys_stream →
         buffer_at (buffers mem') other = buffer_at (buffers mem) other)
    ∧ next_address mem' = S (next_address mem).
Proof.
  intros Hnullable Hvalid Hlength Hbuffer.
  unfold dictionary_bytes, getNestedNotNullableColumn in Hbuffer.
  rewrite <- app_assoc in Hbuffer.
  destruct (read_counted_keys keys_stream (buffers mem) (column_holder global) rest
              Hvalid Hlength Hbuffer) as (Hcount & Hkeys & Hrest & Hother).
  unfold readDictionary. rewrite Hcount. cbn [mbind result_bind].
  assert (Hglobal : createColumnUnique_from dictionary_type (column_holder global) = global).
  { unfold createColumnUnique_from. rewrite <- Hnullable. by destruct global. }
  eexists. split; [rewrite_counted Hkeys; by rewrite Hglobal|].
  split; [exact Hrest|]. split; [exact Hother|reflexivity].
Qed.

Lemma readAdditionalKeys_written (indexes_stream : StreamPtr) (keys : list V)
    (s : DeserializeStateWithDictionary.t V) (mem : Memory) (rest : ReadBuffer) :
  Forall valid keys →
  Z.of_nat (length keys) < UInt64_modulus →
  buffer_at (buffers mem) indexes_stream
  = le_split 8 (Z.of_nat (length keys))
    ++ serializeBinaryBulk (removeNullable dictionary_type) keys [] 0
         (Z.of_nat (length keys))
    ++ rest →
  ∃ mem',
    readAdditionalKeys dictionary_type indexes_stream s mem
    = Ok (DeserializeStateWithDictionary.set_additional_keys s (Some keys), mem')
    ∧ buffer_at (buffers mem') indexes_stream = rest
    ∧ reads_only indexes_stream mem mem'.
Proof.
  intros Hvalid Hlength Hbuffer.
  destruct (read_counted_keys indexes_stream (buffers mem) keys rest
              Hvalid Hlength Hbuffer) as (Hcount & Hkeys & Hrest & Hother).
  unfold readAdditionalKeys. rewrite Hcount. cbn [mbind result_bind].
  eexists. split; [by rewrite_counted Hkeys|].
  split; [exact Hrest|split; [done|exact Hother]].
Qed.

Lemma eof_le_split (x : Z) (rest : ReadBuffer) : eof (le_split 8 x ++ rest) = false.
Proof.
  pose proof (length_le_split 8 x) as Hlength.
  destruct (le_split 8 x); [discriminate|done].
Qed.

Lemma column_ok_state (s s' : DeserializeStateWithDictionary.t V)
    (column : ColumnWithDictionary V) :
  DeserializeStateWithDictionary.global_dictionary s = None
  ∨ DeserializeStateWithDictionary.global_dictionary s'
    = DeserializeStateWithDictionary.global_dictionary s →
  column_ok dictionary_type s column → column_ok dictionary_type s' column.
Proof.
  intros Hstate (Hvalid & Hnullable & Hidentity). split; [done|]. split; [done|].
  destruct Hidentity as [Hunshared|(address & Hshared & Hglobal)]; [by left|].
  right. exists address. split; [done|].
  destruct Hstate as [Hnone|Hsame]; congruence.
Qed.

(** The header of a block, the dictionary if the state has none yet, the
    keys of the block and its number of rows, as the encoder lays them out. *)
Lemma read_block_header_block (keys_stream indexes_stream : StreamPtr)
    (max_dictionary_size : Z) (global : ColumnUnique V) (block : Block V)
    (s : DeserializeStateWithDictionary.t V) (mem : Memory) (rest : ReadBuffer) :
  keys_stream ≠ indexes_stream →
  block_well_formed valid max_dictionary_size global block →
  dictionary_ready dictionary_type valid max_dictionary_size global keys_stream s mem →
  buffer_at (buffers mem) indexes_stream
  = block_bytes dictionary_type max_dictionary_size block ++ rest →
  ∃ s' mem',
    read_block_header dictionary_type keys_stream indexes_stream s mem = Ok (Some (s', mem'))
    ∧ DeserializeStateWithDictionary.index_type s'
      = IndexesSerializationType.create (block_positions block)
          (negb (bool_decide (block_keys block = [])))
          (bool_decide (max_dictionary_size ≠ 0))
    ∧ DeserializeStateWithDictionary.additional_keys s'
      = (if bool_decide (block_keys block = []) then None else Some (block_keys block))
    ∧ DeserializeStateWithDictionary.num_pending_rows s'
      = Z.of_nat (length (getData (block_positions block)))
    ∧ DeserializeStateWithDictionary.key_version s'
      = DeserializeStateWithDictionary.key_version s
    ∧ (max_dictionary_size ≠ 0 →
       is_nullable global = isNullable dictionary_type
       ∧ ∃ address,
           DeserializeStateWithDictionary.global_dictionary s' = Some (address, global))
    ∧ (DeserializeStateWithDictionary.global_dictionary s = None
       ∨ DeserializeStateWithDictionary.global_dictionary s'
         = DeserializeStateWithDictionary.global_dictionary s)
    ∧ buffer_at (buffers mem') indexes_stream
      = serializeBinaryBulk (DataTypeNumber (value_type (block_positions block)))
          (getData (block_positions block)) []
          0 (Z.of_nat (length (getData (block_positions block))))
        ++ rest
    ∧ (DeserializeStateWithDictionary.global_dictionary s = None →
       max_dictionary_size ≠ 0 →
       dictionary_installed dictionary_type global keys_stream mem s' mem').
Proof.
  intros Hstreams (_ & _ & Hvalid & Hkeys_length & Hrows_length & _) Hready Hbuffer.
  unfold read_block_header. rewrite Hbuffer. unfold block_bytes.
  rewrite <- !app_assoc, eof_le_split, deserialize_create.
  cbn [mbind result_bind].
  set (index_type := IndexesSerializationType.create _ _ _).
  set (s0 := DeserializeStateWithDictionary.set_index_type s index_type).
  set (packed := serializeBinaryBulk (DataTypeNumber _) _ _ _ _).
  set (rows := le_split 8 (Z.of_nat (length (getData (block_positions block))))).
  set (tail := (if bool_decide (block_keys block = []) then [] else _) ++ _).
  set (mem0 := mkMemory (<[indexes_stream := tail]> (buffers mem)) (next_address mem)).
  match goal with |- ∃ _ _, (?call ≫= _) = _ ∧ _ =>
  assert (Hdictionary :
    ∃ s1 mem1,
      call = Ok (s1, mem1)
      ∧ DeserializeStateWithDictionary.index_type s1 = index_type
      ∧ DeserializeStateWithDictionary.key_version s1
        = DeserializeStateWithDictionary.key_version s
      ∧ (max_dictionary_size ≠ 0 →
         is_nullable global = isNullable dictionary_type
         ∧ ∃ address,
             DeserializeStateWithDictionary.global_dictionary s1 = Some (address, global))
      ∧ (DeserializeStateWithDictionary.global_dictionary s = None
         ∨ DeserializeStateWithDictionary.global_dictionary s1
           = DeserializeStateWithDictionary.global_dictionary s)
      ∧ buffer_at (buffers mem1) indexes_stream = tail
      ∧ (DeserializeStateWithDictionary.global_dictionary s = None →
         max_dictionary_size ≠ 0 →
         dictionary_installed dictionary_type global keys_stream mem s1 mem1))
  end.
  { assert (Hmem0 : buffer_at (buffers mem0) indexes_stream = tail)
      by apply buffer_at_insert_eq.
    assert (Hneed : IndexesSerializationType.need_global_dictionary index_type
                    = bool_decide (max_dictionary_size ≠ 0)) by done.
    rewrite Hneed.
    destruct (decide (max_dictionary_size ≠ 0)) as [Hmax|Hmax].
    - rewrite (bool_decide_eq_true_2 _ Hmax). cbn [andb].
      destruct (Hready Hmax)
        as (Hnullable & [(address & Hglobal)
                        |(Hnone & Hholder & Hholder_length & keys_rest & Hkeys_buffer)]).
      + rewrite bool_decide_eq_true_2 by (cbn; rewrite Hglobal; by eexists).
        cbn [negb]. exists s0, mem0. split; [done|]. split; [done|]. split; [done|].
        split; [intros _; split; [done|by exists address]|]. split; [by right|].
        split; [done|]. intros Hnone. congruence.
      + rewrite bool_decide_eq_false_2
          by (cbn; rewrite Hnone; intros [? ?]; discriminate).
        cbn [negb].
        destruct (readDictionary_written keys_stream global s0 mem0 keys_rest
                    Hnullable Hholder Hholder_length)
          as (mem1 & Hcall & Hkeys1 & Hother & Haddress).
        { subst mem0. cbn [buffers]. by rewrite buffer_at_insert_ne. }
        exists (DeserializeStateWithDictionary.set_global_dictionary s0
                  (Some (next_address mem0, global))), mem1.
        split; [done|]. split; [done|]. split; [done|].
        split; [intros _; split; [done|by eexists]|]. split; [by left|].
        split; [by rewrite Hother|].
        intros _ _ keys_rest' Hkeys_buffer'. rewrite Hkeys_buffer in Hkeys_buffer'.
        apply app_inv_head in Hkeys_buffer' as <-. by split.
    - rewrite (bool_decide_eq_false_2 _ Hmax). cbn [andb].
      exists s0, mem0. split; [done|]. split; [done|]. split; [done|].
      split; [done|]. split; [by right|]. split; [done|]. by intros _ Hmax'. }
  destruct Hdictionary
    as (s1 & mem1 & -> & Hindex1 & Hversion1 & Hglobal1 & Hsame1 & Hbuffer1
        & Hinstalled1).
  cbn [mbind result_bind].
  match goal with |- ∃ _ _, (?call ≫= _) = _ ∧ _ =>
  assert (Hadditional :
    ∃ s2 mem2,
      call = Ok (s2, mem2)
      ∧ DeserializeStateWithDictionary.additional_keys s2
        = (if bool_decide (block_keys block = []) then None else Some (block_keys block))
      ∧ s2 = DeserializeStateWithDictionary.set_additional_keys s1
               (DeserializeStateWithDictionary.additional_keys s2)
      ∧ buffer_at (buffers mem2) indexes_stream = rows ++ packed ++ rest
      ∧ reads_only indexes_stream mem1 mem2)
  end.
  { subst index_type.
    cbn [IndexesSerializationType.has_additional_keys IndexesSerializationType.create].
    subst tail. destruct (bool_decide (block_keys block = [])); cbn [negb].
    - exists (DeserializeStateWithDictionary.set_additional_keys s1 None), mem1.
      split; [done|]. split; [done|]. split; [done|].
      split; [by rewrite Hbuffer1|apply reads_only_refl].
    - rewrite <- app_assoc in Hbuffer1.
      destruct (readAdditionalKeys_written indexes_stream (block_keys block) s1 mem1 _
                  Hvalid Hkeys_length Hbuffer1) as (mem2 & Hcall & Hrest & Hreads).
      exists (DeserializeStateWithDictionary.set_additional_keys s1
                (Some (block_keys block))), mem2.
      split; [done|]. split; [done|]. split; [done|]. split; [exact Hrest|exact Hreads]. }
  destruct Hadditional as (s2 & mem2 & -> & Hkeys2 & Hs2 & Hbuffer2 & Hreads2).
  cbn [mbind result_bind].
  rewrite Hbuffer2. subst rows. rewrite readIntBinary_le_split by lia.
  cbn [mbind result_bind].
  eexists _, _. split; [reflexivity|].
  rewrite Hs2. cbn [DeserializeStateWithDictionary.set_num_pending_rows
    DeserializeStateWithDictionary.set_additional_keys
    DeserializeStateWithDictionary.index_type DeserializeStateWithDictionary.additional_keys
    DeserializeStateWithDictionary.num_pending_rows DeserializeStateWithDictionary.key_version
    DeserializeStateWithDictionary.global_dictionary buffers].
  split; [done|]. split; [done|]. split; [done|]. split; [done|].
  split; [done|]. split; [done|]. split; [apply buffer_at_insert_eq|].
  intros Hnone Hmax keys_rest Hkeys_buffer.
  destruct (Hinstalled1 Hnone Hmax keys_rest Hkeys_buffer) as (Hglobal & Hkeys1 & Haddress).
  destruct Hreads2 as [Haddress2 Hother2].
  split; [done|]. split; [|cbn [next_address]; congruence].
  cbn [buffers]. rewrite buffer_at_insert_ne by done. by rewrite Hother2.
Qed.

Lemma block_rows_length (max_dictionary_size : Z) (global : ColumnUnique V)
    (block : Block V) :
  length (block_rows dictionary_type max_dictionary_size global block)
  = length (getData (block_positions block)).
Proof. unfold block_rows. by rewrite length_fmap. Qed.

Lemma block_bytes_length (max_dictionary_size : Z) (block : Block V) :
  (1 ≤ length (block_bytes dictionary_type max_dictionary_size block))%nat.
Proof. unfold block_bytes. rewrite length_app, length_le_split. lia. Qed.

Lemma packed_take_drop (T : UIntType) (positions : list Z) (m : nat) :
  serializeBinaryBulk (DataTypeNumber T) positions [] 0 (Z.of_nat (length positions))
  = serializeBinaryBulk (DataTypeNumber T) (take m positions) [] 0
      (Z.of_nat (length (take m positions)))
    ++ serializeBinaryBulk (DataTypeNumber T) (drop m positions) [] 0
         (Z.of_nat (length (drop m positions))).
Proof.
  cbn. rewrite !Nat2Z.id, !drop_0, !firstn_all.
  by rewrite <- concat_app, <- fmap_app, take_drop.
Qed.

Lemma block_take_well_formed (max_dictionary_size : Z) (global : ColumnUnique V)
    (block : Block V) (m : nat) :
  block_well_formed valid max_dictionary_size global block →
  block_well_formed valid max_dictionary_size global (block_take m block).
Proof.
  intros (Htype & Hrange & Hkeys & Hkeys_length & Hrows_length & Hplain).
  unfold block_well_formed, block_take. cbn [block_positions block_keys getData value_type].
  split; [by apply Forall_take|]. split; [by apply Forall_take|]. split; [done|].
  split; [done|]. split; [|done]. rewrite length_take. lia.
Qed.

Lemma block_drop_well_formed (max_dictionary_size : Z) (global : ColumnUnique V)
    (block : Block V) (m : nat) :
  block_well_formed valid max_dictionary_size global block →
  block_well_formed valid max_dictionary_size global (block_drop m block).
Proof.
  intros (Htype & Hrange & Hkeys & Hkeys_length & Hrows_length & Hplain).
  unfold block_well_formed, block_drop. cbn [block_positions block_keys getData value_type].
  split; [by apply Forall_drop|]. split; [by apply Forall_drop|]. split; [done|].
  split; [done|]. split; [|done]. rewrite length_drop. lia.
Qed.

Lemma block_rows_take (max_dictionary_size : Z) (global : ColumnUnique V)
    (block : Block V) (m : nat) :
  block_rows dictionary_type max_dictionary_size global (block_take m block)
  = take m (block_rows dictionary_type max_dictionary_size global block).
Proof. unfold block_rows, block_take. cbn. by rewrite fmap_take. Qed.

Lemma block_rows_drop (max_dictionary_size : Z) (global : ColumnUnique V)
    (block : Block V) (m : nat) :
  block_rows dictionary_type max_dictionary_size global (block_drop m block)
  = drop m (block_rows dictionary_type max_dictionary_size global block).
Proof. unfold block_rows, block_drop. cbn. by rewrite fmap_drop. Qed.

(** Some of the rows of a block whose header the state holds. *)
Lemma readIndexes_part (indexes_stream : StreamPtr) (max_dictionary_size : Z)
    (global : ColumnUnique V) (block : Block V) (m : nat)
    (column : ColumnWithDictionary V) (s : DeserializeStateWithDictionary.t V)
    (mem : Memory) (rest : ReadBuffer) :
  block_well_formed valid max_dictionary_size global block →
  header_read dictionary_type max_dictionary_size global s block →
  column_ok dictionary_type s column →
  buffer_at (buffers mem) indexes_stream
  = serializeBinaryBulk (DataTypeNumber (value_type (block_positions block)))
      (getData (block_positions block)) []
      0 (Z.of_nat (length (getData (block_positions block))))
    ++ rest →
  (m ≤ length (getData (block_positions block)))%nat →
  ∃ column' mem',
    readIndexes dictionary_type indexes_stream (Z.of_nat m) column s mem
    = Ok (column', mem')
    ∧ buffer_at (buffers mem') indexes_stream
      = serializeBinaryBulk (DataTypeNumber (value_type (block_positions block)))
          (drop m (getData (block_positions block))) []
          0 (Z.of_nat (length (drop m (getData (block_positions block)))))
        ++ rest
    ∧ reads_only indexes_stream mem mem'
    ∧ column_ok dictionary_type s column'
    ∧ column_values (removeNullable dictionary_type) column'
      = column_values (removeNullable dictionary_type) column
        ++ take m (block_rows dictionary_type max_dictionary_size global block).
Proof.
  intros Hblock (Hindex & Hadditional & Hglobal) Hcolumn Hbuffer Hm.
  rewrite (packed_take_drop _ _ m), <- app_assoc in Hbuffer.
  destruct (readIndexes_block dictionary_type valid max_dictionary_size global
              (block_take m block) indexes_stream column s mem _
              (block_take_well_formed _ _ _ m Hblock) Hindex Hadditional Hglobal Hcolumn
              Hbuffer)
    as (column' & mem' & Hcall & Hrest & Hreads & Hcolumn' & Hvalues).
  cbn [block_take block_positions getData] in Hcall.
  rewrite length_take, Nat.min_l in Hcall by done.
  exists column', mem'. split; [done|]. split; [done|]. split; [done|]. split; [done|].
  by rewrite Hvalues, block_rows_take.
Qed.

(** The rest of a turn, once the state holds the header of the block. *)
Lemma read_turn (indexes_stream : StreamPtr) (max_dictionary_size : Z)
    (global : ColumnUnique V) (block : Block V) (limit : Z)
    (column : ColumnWithDictionary V) (s : DeserializeStateWithDictionary.t V)
    (mem : Memory) (rest : ReadBuffer) :
  block_well_formed valid max_dictionary_size global block →
  header_read dictionary_type max_dictionary_size global s block →
  DeserializeStateWithDictionary.num_pending_rows s
  = Z.of_nat (length (getData (block_positions block))) →
  column_ok dictionary_type s column →
  buffer_at (buffers mem) indexes_stream
  = serializeBinaryBulk (DataTypeNumber (value_type (block_positions block)))
      (getData (block_positions block)) []
      0 (Z.of_nat (length (getData (block_positions block))))
    ++ rest →
  0 < limit →
  let m := Z.to_nat (Z.min limit (Z.of_nat (length (getData (block_positions block))))) in
  ∃ column' mem',
    ('(column, mem) ←
       readIndexes dictionary_type indexes_stream
         (Z.min limit (DeserializeStateWithDictionary.num_pending_rows s)) column s mem;
     Ok (Continue (limit - Z.min limit (DeserializeStateWithDictionary.num_pending_rows s))
           column
           (DeserializeStateWithDictionary.set_num_pending_rows s
              (DeserializeStateWithDictionary.num_pending_rows s
               - Z.min limit (DeserializeStateWithDictionary.num_pending_rows s)))
           mem))
    = Ok (Continue (limit - Z.of_nat m) column'
            (DeserializeStateWithDictionary.set_num_pending_rows s
               (Z.of_nat (length (getData (block_positions (block_drop m block))))))
            mem')
    ∧ buffer_at (buffers mem') indexes_stream
      = serializeBinaryBulk
          (DataTypeNumber (value_type (block_positions (block_drop m block))))
          (getData (block_positions (block_drop m block))) []
          0 (Z.of_nat (length (getData (block_positions (block_drop m block)))))
        ++ rest
    ∧ reads_only indexes_stream mem mem'
    ∧ column_ok dictionary_type s column'
    ∧ column_values (removeNullable dictionary_type) column'
      = column_values (removeNullable dictionary_type) column
        ++ take m (block_rows dictionary_type max_dictionary_size global block).
Proof.
  intros Hblock Hheader Hpending Hcolumn Hbuffer Hlimit m.
  assert (Hm : (m ≤ length (getData (block_positions block)))%nat) by lia.
  destruct (readIndexes_part indexes_stream max_dictionary_size global block m column s
              mem rest Hblock Hheader Hcolumn Hbuffer Hm)
    as (column' & mem' & Hcall & Hrest & Hreads & Hcolumn' & Hvalues).
  rewrite Hpending.
  replace (Z.min limit (Z.of_nat (length (getData (block_positions block)))))
    with (Z.of_nat m) by lia.
  rewrite Hcall. cbn [mbind result_bind].
  exists column', mem'. split; [|done].
  do 3 f_equal. cbn [block_drop block_positions getData]. rewrite length_drop. lia.
Qed.

Lemma header_read_pending (max_dictionary_size : Z) (global : ColumnUnique V)
    (s : DeserializeStateWithDictionary.t V) (block : Block V) (m : nat) (pending : Z) :
  header_read dictionary_type max_dictionary_size global s block →
  header_read dictionary_type max_dictionary_size global
    (DeserializeStateWithDictionary.set_num_pending_rows s pending) (block_drop m block).
Proof. intros Hheader. exact Hheader. Qed.

(** The decoder after a turn: in what is left of the block. *)
Lemma decoder_at_after_turn (keys_stream indexes_stream : StreamPtr)
    (max_dictionary_size : Z) (global : ColumnUnique V) (block : Block V)
    (blocks : list (Block V)) (m : nat)
    (s : DeserializeStateWithDictionary.t V) (mem' : Memory) :
  KeysSerializationVersion.value (DeserializeStateWithDictionary.key_version s) = 1 →
  block_well_formed valid max_dictionary_size global block →
  header_read dictionary_type max_dictionary_size global s block →
  Forall (block_well_formed valid max_dictionary_size global) blocks →
  buffer_at (buffers mem') indexes_stream
  = serializeBinaryBulk
      (DataTypeNumber (value_type (block_positions (block_drop m block))))
      (getData (block_positions (block_drop m block))) []
      0 (Z.of_nat (length (getData (block_positions (block_drop m block)))))
    ++ concat (block_bytes dictionary_type max_dictionary_size <$> blocks) →
  decoder_at dictionary_type valid max_dictionary_size global keys_stream indexes_stream
    (DeserializeStateWithDictionary.set_num_pending_rows s
       (Z.of_nat (length (getData (block_positions (block_drop m block))))))
    mem' (block_drop m block) blocks.
Proof.
  intros Hversion Hblock Hheader Hblocks Hbuffer.
  split; [done|]. split; [done|]. split.
  { intros Hmax. destruct Hheader as (_ & _ & Hglobal).
    destruct (Hglobal Hmax) as [Hnullable Hdictionary]. split; [done|by left]. }
  split; [|done].
  intros _. split; [by apply block_drop_well_formed|].
  by apply header_read_pending.
Qed.

Lemma deserialize_loop_done (fuel : nat) (keys_stream indexes_stream : StreamPtr)
    (column : ColumnWithDictionary V) (s : DeserializeStateWithDictionary.t V)
    (mem : Memory) :
  deserialize_loop dictionary_type fuel keys_stream indexes_stream 0 column s mem
  = Some (Ok (column, s, mem)).
Proof. destruct fuel; cbn; by destruct (decide (0 = 0)). Qed.

(** A turn of the loop that starts with the header of a block. *)
Lemma loop_body_header (keys_stream indexes_stream : StreamPtr)
    (max_dictionary_size : Z) (global : ColumnUnique V) (block : Block V)
    (blocks : list (Block V)) (limit : Z)
    (column : ColumnWithDictionary V) (s : DeserializeStateWithDictionary.t V)
    (mem : Memory) (current : Block V) :
  keys_stream ≠ indexes_stream →
  decoder_at dictionary_type valid max_dictionary_size global keys_stream indexes_stream
    s mem current (block :: blocks) →
  getData (block_positions current) = [] →
  column_ok dictionary_type s column →
  0 < limit →
  let m := Z.to_nat (Z.min limit (Z.of_nat (length (getData (block_positions block))))) in
  ∃ column' s' mem',
    loop_body dictionary_type keys_stream indexes_stream limit column s mem
    = Ok (Continue (limit - Z.of_nat m) column' s' mem')
    ∧ decoder_at dictionary_type valid max_dictionary_size global keys_stream
        indexes_stream s' mem' (block_drop m block) blocks
    ∧ column_ok dictionary_type s' column'
    ∧ column_values (removeNullable dictionary_type) column'
      = column_values (removeNullable dictionary_type) column
        ++ take m (block_rows dictionary_type max_dictionary_size global block)
    ∧ (DeserializeStateWithDictionary.global_dictionary s = None →
       max_dictionary_size ≠ 0 →
       dictionary_installed dictionary_type global keys_stream mem s' mem').
Proof.
  intros Hstreams (Hversion & Hpending & Hready & _ & Hblocks & Hbuffer) Hcurrent
    Hcolumn Hlimit m.
  rewrite Hcurrent in Hpending, Hbuffer. cbn in Hpending.
  rewrite fmap_cons, concat_cons in Hbuffer.
  change (serializeBinaryBulk _ [] [] 0 _) with (@nil byte) in Hbuffer.
  rewrite app_nil_l in Hbuffer.
  apply Forall_cons in Hblocks as [Hblock Hblocks].
  destruct (read_block_header_block keys_stream indexes_stream max_dictionary_size global
              block s mem _ Hstreams Hblock Hready Hbuffer)
    as (s1 & mem1 & Hheader & Hindex & Hadditional & Hrows & Hversion1 & Hglobal & Hsame
        & Hbuffer1 & Hinstalled1).
  pose proof (column_ok_state s s1 column Hsame Hcolumn) as Hcolumn1.
  assert (Hheader1 : header_read dictionary_type max_dictionary_size global s1 block)
    by done.
  destruct (read_turn indexes_stream max_dictionary_size global block limit column s1
              mem1 _ Hblock Hheader1 Hrows Hcolumn1 Hbuffer1 Hlimit)
    as (column' & mem' & Hcall & Hrest & Hreads & Hcolumn' & Hvalues).
  unfold loop_body. destruct (decide _) as [_|Hne]; [|done].
  rewrite Hheader. cbn [mbind result_bind]. rewrite Hcall.
  eexists _, _, _. split; [reflexivity|]. split; [|split; [|split; [done|]]].
  - apply decoder_at_after_turn; [congruence|done..].
  - eapply column_ok_state; [|exact Hcolumn']. by right.
  - intros Hnone Hmax keys_rest Hkeys_buffer.
    destruct (Hinstalled1 Hnone Hmax keys_rest Hkeys_buffer)
      as (Hdictionary & Hkeys1 & Haddress).
    destruct Hreads as [Haddress' Hother'].
    split; [done|]. split; [|congruence]. by rewrite Hother'.
Qed.

(** A turn of the loop that starts inside a block. *)
Lemma loop_body_pending (keys_stream indexes_stream : StreamPtr)
    (max_dictionary_size : Z) (global : ColumnUnique V) (current : Block V)
    (blocks : list (Block V)) (limit : Z)
    (column : ColumnWithDictionary V) (s : DeserializeStateWithDictionary.t V)
    (mem : Memory) :
  decoder_at dictionary_type valid max_dictionary_size global keys_stream indexes_stream
    s mem current blocks →
  getData (block_positions current) ≠ [] →
  column_ok dictionary_type s column →
  0 < limit →
  let m := Z.to_nat (Z.min limit (Z.of_nat (length (getData (block_positions current))))) in
  ∃ column' s' mem',
    loop_body dictionary_type keys_stream indexes_stream limit column s mem
    = Ok (Continue (limit - Z.of_nat m) column' s' mem')
    ∧ decoder_at dictionary_type valid max_dictionary_size global keys_stream
        indexes_stream s' mem' (block_drop m current) blocks
    ∧ column_ok dictionary_type s' column'
    ∧ column_values (removeNullable dictionary_type) column'
      = column_values (removeNullable dictionary_type) column
        ++ take m (block_rows dictionary_type max_dictionary_size global current).
Proof.
  intros (Hversion & Hpending & Hready & Hcurrent & Hblocks & Hbuffer) Hrows Hcolumn
    Hlimit m.
  destruct (Hcurrent Hrows) as [Hblock Hheader].
  destruct (read_turn indexes_stream max_dictionary_size global current limit column s
              mem _ Hblock Hheader Hpending Hcolumn Hbuffer Hlimit)
    as (column' & mem' & Hcall & Hrest & _ & Hcolumn' & Hvalues).
  unfold loop_body. destruct (decide _) as [Hzero|_].
  { rewrite Hpending in Hzero. destruct (getData (block_positions current)); [done|].
    cbn in Hzero. lia. }
  cbn [mbind result_bind]. rewrite Hcall.
  eexists _, _, _. split; [reflexivity|]. split; [|split; [|done]].
  - by apply decoder_at_after_turn.
  - eapply column_ok_state; [|exact Hcolumn']. by right.
Qed.

(** The loop from between two blocks: it delivers the first [limit] of the
    rows on the stream and stops where the others begin. *)
Lemma deserialize_loop_blocks (keys_stream indexes_stream : StreamPtr)
    (max_dictionary_size : Z) (global : ColumnUnique V) (blocks : list (Block V)) :
  keys_stream ≠ indexes_stream →
  ∀ (fuel : nat) (limit : Z) (column : ColumnWithDictionary V)
    (s : DeserializeStateWithDictionary.t V) (mem : Memory) (current : Block V),
    0 ≤ limit →
    (limit ≠ 0 → (length blocks < fuel)%nat) →
    decoder_at dictionary_type valid max_dictionary_size global keys_stream
      indexes_stream s mem current blocks →
    getData (block_positions current) = [] →
    column_ok dictionary_type s column →
    ∃ column' s' mem' current' blocks',
      deserialize_loop dictionary_type fuel keys_stream indexes_stream limit column s mem
      = Some (Ok (column', s', mem'))
      ∧ decoder_at dictionary_type valid max_dictionary_size global keys_stream
          indexes_stream s' mem' current' blocks'
      ∧ column_ok dictionary_type s' column'
      ∧ column_values (removeNullable dictionary_type) column'
        = column_values (removeNullable dictionary_type) column
          ++ take (Z.to_nat limit)
               (concat (block_rows dictionary_type max_dictionary_size global <$> blocks))
      ∧ rows_left dictionary_type max_dictionary_size global current' blocks'
        = drop (Z.to_nat limit)
            (concat (block_rows dictionary_type max_dictionary_size global <$> blocks)).
Proof.
  intros Hstreams.
  induction blocks as [|block blocks IH];
    intros fuel limit column s mem current Hlimit Hfuel Hat Hcurrent Hcolumn.
  - assert (Hrows : rows_left dictionary_type max_dictionary_size global current [] = []).
    { unfold rows_left, block_rows. by rewrite Hcurrent. }
    cbn [fmap list_fmap concat]. rewrite take_nil, drop_nil, app_nil_r.
    destruct (decide (limit = 0)) as [->|Hne].
    { rewrite deserialize_loop_done. by eexists _, _, _, current, []. }
    specialize (Hfuel Hne). destruct fuel as [|fuel]; [cbn in Hfuel; lia|].
    cbn [deserialize_loop]. destruct (decide (limit = 0)) as [|_]; [done|].
    destruct Hat as (Hversion & Hpending & Hready & Hheader & Hblocks & Hbuffer).
    rewrite Hcurrent in Hpending, Hbuffer. cbn in Hpending, Hbuffer.
    unfold loop_body. destruct (decide _) as [_|Hne']; [|done].
    unfold read_block_header. rewrite Hbuffer. cbn [eof mbind result_bind].
    eexists _, _, _, current, []. split; [reflexivity|]. split; [|done].
    split; [done|]. split; [by rewrite Hcurrent|]. split; [done|].
    split; [by rewrite Hcurrent|]. split; [done|]. by rewrite Hcurrent.
  - rewrite fmap_cons, concat_cons.
    destruct (decide (limit = 0)) as [->|Hne].
    { rewrite deserialize_loop_done. eexists _, _, _, current, (block :: blocks).
      split; [reflexivity|]. split; [done|]. split; [done|].
      cbn [Z.to_nat take drop]. rewrite app_nil_r. split; [done|].
      unfold rows_left at 1, block_rows at 1. by rewrite Hcurrent. }
    specialize (Hfuel Hne). destruct fuel as [|fuel]; [cbn in Hfuel; lia|].
    cbn [deserialize_loop]. destruct (decide (limit = 0)) as [|_]; [done|].
    destruct (loop_body_header keys_stream indexes_stream max_dictionary_size global
                block blocks limit column s mem current Hstreams Hat Hcurrent Hcolumn)
      as (column1 & s1 & mem1 & -> & Hat1 & Hcolumn1 & Hvalues1 & _); [lia|].
    set (n := length (getData (block_positions block))) in *.
    pose proof (block_rows_length max_dictionary_size global block) as Hn. fold n in Hn.
    destruct (decide (limit ≤ Z.of_nat n)) as [Hshort|Hlong].
    + (* the limit ends in this block *)
      replace (Z.to_nat (Z.min limit (Z.of_nat n))) with (Z.to_nat limit) in * by lia.
      rewrite Z2Nat.id, Z.sub_diag by lia. rewrite deserialize_loop_done.
      eexists _, _, _, _, blocks. split; [reflexivity|]. split; [exact Hat1|].
      split; [done|]. split.
      * rewrite Hvalues1. f_equal. rewrite take_app_le by lia. done.
      * unfold rows_left. rewrite block_rows_drop, drop_app_le by lia. done.
    + (* the block is read to its end *)
      replace (Z.to_nat (Z.min limit (Z.of_nat n))) with n in * by lia.
      destruct (IH fuel (limit - Z.of_nat n) column1 s1 mem1 (block_drop n block))
        as (column' & s' & mem' & current' & blocks' & Hloop & Hat' & Hcolumn' & Hvalues'
            & Hleft'); try done; try lia.
      { intros _. cbn in Hfuel. lia. }
      { cbn. subst n. apply drop_all. }
      exists column', s', mem', current', blocks'. split; [done|]. split; [done|].
      split; [done|].
      rewrite take_app_ge, drop_app_ge by lia. rewrite Hn.
      replace (Z.to_nat limit - n)%nat with (Z.to_nat (limit - Z.of_nat n)) by lia.
      split; [|done].
      rewrite Hvalues', Hvalues1, <- app_assoc. rewrite <- Hn. by rewrite firstn_all.
Qed.

(** The loop from anywhere the decoder can stand. *)
Lemma deserialize_loop_resumes (keys_stream indexes_stream : StreamPtr)
    (max_dictionary_size : Z) (global : ColumnUnique V) (blocks : list (Block V))
    (fuel : nat) (limit : Z) (column : ColumnWithDictionary V)
    (s : DeserializeStateWithDictionary.t V) (mem : Memory) (current : Block V) :
  keys_stream ≠ indexes_stream →
  0 ≤ limit →
  (limit ≠ 0 → (length (getData (block_positions current)) + length blocks < fuel)%nat) →
  decoder_at dictionary_type valid max_dictionary_size global keys_stream
    indexes_stream s mem current blocks →
  column_ok dictionary_type s column →
  ∃ column' s' mem' current' blocks',
    deserialize_loop dictionary_type fuel keys_stream indexes_stream limit column s mem
    = Some (Ok (column', s', mem'))
    ∧ decoder_at dictionary_type valid max_dictionary_size global keys_stream
        indexes_stream s' mem' current' blocks'
    ∧ column_ok dictionary_type s' column'
    ∧ column_values (removeNullable dictionary_type) column'
      = column_values (removeNullable dictionary_type) column
        ++ take (Z.to_nat limit)
             (rows_left dictionary_type max_dictionary_size global current blocks)
    ∧ rows_left dictionary_type max_dictionary_size global current' blocks'
      = drop (Z.to_nat limit)
          (rows_left dictionary_type max_dictionary_size global current blocks).
Proof.
  intros Hstreams Hlimit Hfuel Hat Hcolumn.
  destruct (decide (getData (block_positions current) = [])) as [Hcurrent|Hcurrent].
  - assert (Hleft : rows_left dictionary_type max_dictionary_size global current blocks
                    = concat (block_rows dictionary_type max_dictionary_size global
                              <$> blocks)).
    { unfold rows_left, block_rows. by rewrite Hcurrent. }
    rewrite Hleft. apply (deserialize_loop_blocks _ _ _ _ _ Hstreams _ _ _ _ _ current);
      try done.
    intros Hne. specialize (Hfuel Hne). lia.
  - destruct (decide (limit = 0)) as [->|Hne].
    { rewrite deserialize_loop_done. eexists _, _, _, current, blocks.
      split; [reflexivity|]. split; [done|]. split; [done|].
      cbn [Z.to_nat take drop]. by rewrite app_nil_r. }
    specialize (Hfuel Hne).
    destruct fuel as [|fuel]; [lia|].
    cbn [deserialize_loop]. destruct (decide (limit = 0)) as [|_]; [done|].
    destruct (loop_body_pending keys_stream indexes_stream max_dictionary_size global
                current blocks limit column s mem Hat Hcurrent Hcolumn)
      as (column1 & s1 & mem1 & -> & Hat1 & Hcolumn1 & Hvalues1); [lia|].
    set (n := length (getData (block_positions current))) in *.
    pose proof (block_rows_length max_dictionary_size global current) as Hn. fold n in Hn.
    assert (Hleft : rows_left dictionary_type max_dictionary_size global current blocks
                    = block_rows dictionary_type max_dictionary_size global current
                      ++ concat (block_rows dictionary_type max_dictionary_size global
                                 <$> blocks)) by done.
    rewrite Hleft.
    destruct (decide (limit ≤ Z.of_nat n)) as [Hshort|Hlong].
    + replace (Z.to_nat (Z.min limit (Z.of_nat n))) with (Z.to_nat limit) in * by lia.
      rewrite Z2Nat.id, Z.sub_diag by lia. rewrite deserialize_loop_done.
      eexists _, _, _, _, blocks. split; [reflexivity|]. split; [exact Hat1|].
      split; [done|]. split.
      * rewrite Hvalues1. f_equal. rewrite take_app_le by lia. done.
      * unfold rows_left. rewrite block_rows_drop, drop_app_le by lia. done.
    + replace (Z.to_nat (Z.min limit (Z.of_nat n))) with n in * by lia.
      destruct (deserialize_loop_blocks keys_stream indexes_stream max_dictionary_size
                  global blocks Hstreams fuel (limit - Z.of_nat n) column1 s1 mem1
                  (block_drop n current))
        as (column' & s' & mem' & current' & blocks' & Hloop & Hat' & Hcolumn' & Hvalues'
            & Hleft'); try done; try lia.
      { intros _. assert (0 < n)%nat; [|lia].
        subst n. destruct (getData (block_positions current)); [done|cbn; lia]. }
      { cbn. subst n. apply drop_all. }
      exists column', s', mem', current', blocks'. split; [done|]. split; [done|].
      split; [done|].
      rewrite take_app_ge, drop_app_ge by lia. rewrite Hn.
      replace (Z.to_nat limit - n)%nat with (Z.to_nat (limit - Z.of_nat n)) by lia.
      split; [|done].
      rewrite Hvalues', Hvalues1, <- app_assoc. rewrite <- Hn. by rewrite firstn_all.
Qed.

End DecodeBlock.

(** ** What a call of the serializer computes *)

Lemma first_occurrences_length (l : list Z) :
  (length (first_occurrences l) ≤ length l)%nat.
Proof.
  induction l as [|x l IH]; cbn; [done|].
  pose proof (length_filter (λ y, y ≠ x) (first_occurrences l)). lia.
Qed.

Lemma smallest_UInt_fits (ids : list Z) :
  Forall (λ id, 0 ≤ id < UInt64_modulus) ids →
  Forall (λ id, 0 ≤ id < modulus (smallest_UInt ids)) ids.
Proof.
  intros Hids.
  assert (Hbound : foldr Z.max 0 ids < UInt64_modulus).
  { induction Hids as [|x ids Hx Hids IH]; cbn [foldr]; [done|]. cbn beta in Hx. lia. }
  assert (Hmax : Forall (λ id, id ≤ foldr Z.max 0 ids) ids).
  { clear Hids Hbound. induction ids as [|x ids IH]; cbn; constructor; [lia|].
    eapply Forall_impl; [exact IH|]. cbn. lia. }
  unfold smallest_UInt.
  rewrite Forall_forall in Hids, Hmax |- *. intros id Hid.
  specialize (Hids id Hid). specialize (Hmax id Hid). cbn in Hmax.
  assert (H64 : modulus UInt64 = UInt64_modulus) by reflexivity.
  repeat destruct (decide _); lia.
Qed.

Section InsertElements.

Context {V : Type} `{EqDecision V}.
Variable P : V → Prop.

Lemma unique_insert_elements (max_dictionary_size : option Z)
    (acc : ColumnUnique V * list V * list Z) (is_null : bool) (v : V) :
  (is_null && is_nullable acc.1.1 = false → P v) →
  Forall P (column_holder acc.1.1) → Forall P acc.1.2 →
  let acc' := unique_insert max_dictionary_size acc is_null v in
  is_nullable acc'.1.1 = is_nullable acc.1.1
  ∧ Forall P (column_holder acc'.1.1) ∧ Forall P acc'.1.2.
Proof.
  destruct acc as [[u overflowed] ids]. cbn [fst snd]. intros Hv Hu Ho.
  unfold unique_insert.
  destruct (is_null && is_nullable u); [done|]. specialize (Hv eq_refl).
  destruct (position_of v (column_holder u)); [done|].
  destruct (match max_dictionary_size with Some _ => _ | None => _ end).
  - cbn. split; [done|]. split; [|done]. apply Forall_app. split; [done|by constructor].
  - destruct (position_of v overflowed); [done|]. cbn. split; [done|]. split; [done|].
    apply Forall_app. split; [done|by constructor].
Qed.

Lemma unique_insert_range_elements (max_dictionary_size : option Z) (u : ColumnUnique V)
    (keys : IColumn V) :
  (∀ row v, nested_values keys !! row = Some v →
            is_null_at keys row && is_nullable u = false → P v) →
  Forall P (column_holder u) →
  let acc := unique_insert_range max_dictionary_size u keys in
  is_nullable acc.1.1 = is_nullable u
  ∧ Forall P (column_holder acc.1.1) ∧ Forall P acc.1.2.
Proof.
  unfold unique_insert_range. intros Hkeys Hu.
  induction (nested_values keys) as [|v rows IH] using rev_ind.
  - cbn. done.
  - rewrite imap_app, foldl_app. cbn [imap foldl]. rewrite Nat.add_0_r.
    destruct IH as (Hnullable & Hholder & Hoverflowed).
    { intros row w Hrow. apply Hkeys. by apply lookup_app_l_Some. }
    destruct (unique_insert_elements max_dictionary_size
                (foldl (λ acc '(row, v),
                          unique_insert max_dictionary_size acc (is_null_at keys row) v)
                       (u, [], []) (imap pair rows))
                (is_null_at keys (length rows)) v) as (Hnullable' & Hholder' & Hoverflowed');
      [|done|done|].
    + rewrite Hnullable. apply Hkeys. by rewrite list_lookup_middle.
    + split; [congruence|done].
Qed.

End InsertElements.

Section EncodeBlock.

Context {V : Type} `{EqDecision V}.
Variable dictionary_type : DataTypePtr V.
Variable valid : V → Prop.

(** [cutAndCompact] gives a column of its own: valid, as nullable as the
    column it is cut from, its dictionary made of values of that column's
    and no longer than the cut. *)
Lemma cutAndCompact_valid (column : ColumnWithDictionary V) (offset limit : Z) :
  valid_column column →
  let sub_column := cutAndCompact (removeNullable dictionary_type) column offset limit in
  valid_column sub_column
  ∧ is_nullable (getDictionary sub_column) = is_nullable (getDictionary column)
  ∧ (Forall valid (column_holder (getDictionary column)) →
     Forall valid (column_holder (getDictionary sub_column)))
  ∧ ColumnUnique_size (getDictionary sub_column)
    ≤ 1 + Z.of_nat (length (getData (getIndexes sub_column)))
  ∧ Z.of_nat (length (getData (getIndexes sub_column))) ≤ ColumnWithDictionary_size column.
Proof.
  intros Hvalid. unfold cutAndCompact. cbn zeta.
  set (shift := null_offset (is_nullable (getDictionary column))).
  set (sub := take (Z.to_nat limit) (drop (Z.to_nat offset) (getData (getIndexes column)))).
  set (used := first_occurrences (filter (λ id, Z.of_nat shift ≤ id) sub)).
  assert (Hsub : Forall (λ id, 0 ≤ id < ColumnUnique_size (getDictionary column)) sub).
  { by apply Forall_take, Forall_drop. }
  assert (Hused : ∀ id, id ∈ used ↔ Z.of_nat shift ≤ id ∧ id ∈ sub).
  { intros id. subst used. by rewrite first_occurrences_elem_of, list_elem_of_filter. }
  assert (Hused_length : (length used ≤ length sub)%nat).
  { subst used. etrans; [apply first_occurrences_length|apply length_filter]. }
  split; [|split; [done|split; [|split]]].
  - unfold valid_column, ColumnUnique_size.
    cbn [getDictionary getIndexes getData ColumnUInt_of is_nullable column_holder].
    rewrite Forall_fmap, length_fmap. fold shift.
    rewrite Forall_forall in Hsub |- *. intros id Hid. specialize (Hsub id Hid).
    cbn beta in Hsub |- *. cbn [compose].
    destruct (decide (id < Z.of_nat shift)) as [Hnull|Hvalue]; [lia|].
    assert (Hin : id ∈ used) by (apply Hused; split; [lia|done]).
    pose proof (position_of_id_lt used id Hin). lia.
  - intros Hholder. cbn [getDictionary column_holder].
    rewrite Forall_fmap, Forall_forall. intros id Hid. apply Hused in Hid as [Hshift Hid].
    rewrite Forall_forall in Hsub. specialize (Hsub id Hid). cbn beta in Hsub.
    unfold ColumnUnique_size in Hsub. fold shift in Hsub. cbn [compose].
    assert (Hrow : (Z.to_nat id - shift < length (column_holder (getDictionary column)))%nat)
      by lia.
    destruct (lookup_lt_is_Some_2 _ _ Hrow) as [v Hv].
    rewrite (nth_lookup_Some _ _ _ _ Hv). by eapply Forall_lookup_1.
  - unfold ColumnUnique_size.
    cbn [getDictionary getIndexes getData ColumnUInt_of is_nullable column_holder].
    rewrite !length_fmap. fold shift.
    assert (shift ≤ 1)%nat by (subst shift; unfold null_offset; destruct (is_nullable _); lia).
    lia.
  - cbn [getIndexes getData ColumnUInt_of]. rewrite length_fmap. subst sub.
    unfold ColumnWithDictionary_size. rewrite length_take, length_drop. lia.
Qed.

(** The rows of the nested column of a dictionary that are not NULL hold
    values of the dictionary. *)
Lemma getNestedColumn_rows (u : ColumnUnique V) (nullable : bool) (row : nat) (v : V) :
  is_nullable u = nullable →
  Forall valid (column_holder u) →
  nested_values (getNestedColumn (removeNullable dictionary_type) u) !! row = Some v →
  is_null_at (getNestedColumn (removeNullable dictionary_type) u) row && nullable = false →
  valid v.
Proof.
  intros <- Hholder. unfold getNestedColumn.
  destruct (is_nullable u); cbn [nested_values is_null_at].
  - destruct row as [|row]; cbn; [intros _ Hnull; discriminate|].
    intros Hrow _. by eapply Forall_lookup_1.
  - intros Hrow _. by eapply Forall_lookup_1.
Qed.

(** A call with a global dictionary: what [block_of] holds. *)
Lemma block_of_insert (column : ColumnWithDictionary V) (offset limit : Z)
    (max_dictionary_size : Z) (global : ColumnUnique V) :
  max_dictionary_size ≠ 0 →
  valid_column column →
  Forall valid (column_holder (getDictionary column)) →
  Forall valid (column_holder global) →
  is_nullable (getDictionary column) = is_nullable global →
  ColumnUnique_size global + ColumnWithDictionary_size column + 1 < UInt64_modulus →
  let block := block_of dictionary_type column offset limit max_dictionary_size global in
  let global' := block_dictionary block in
  is_nullable global' = is_nullable global
  ∧ (∃ added, column_holder global' = column_holder global ++ added)
  ∧ Forall valid (column_holder global')
  ∧ ColumnUnique_size global' ≤ Z.max max_dictionary_size (ColumnUnique_size global)
  ∧ (block_keys block ≠ [] → max_dictionary_size ≤ ColumnUnique_size global')
  ∧ block_well_formed valid max_dictionary_size global' block
  ∧ block_rows dictionary_type max_dictionary_size global' block
    = take (Z.to_nat (serialized_limit (ColumnWithDictionary_size column) offset limit))
        (drop (Z.to_nat offset) (column_values (removeNullable dictionary_type) column)).
Proof.
  intros Hmax Hvalid Hholder Hglobal Hnullable Hbound.
  rewrite <- (cutAndCompact_values dictionary_type column offset _ Hvalid).
  unfold block_of. destruct (decide (max_dictionary_size ≠ 0)) as [_|]; [|done].
  destruct (cutAndCompact_valid column offset
              (serialized_limit (ColumnWithDictionary_size column) offset limit) Hvalid)
    as (Hsub_valid & Hsub_nullable & Hsub_holder & Hsub_size & Hsub_rows).
  specialize (Hsub_holder Hholder).
  set (sub_column := cutAndCompact _ column offset _) in *.
  set (keys := getNestedColumn (removeNullable dictionary_type) (getDictionary sub_column)).
  pose proof (uniqueInsertRangeWithOverflow_spec (removeNullable dictionary_type)
                global keys max_dictionary_size) as Hspec.
  pose proof (unique_insert_range_elements valid (Some max_dictionary_size) global keys)
    as Helements.
  unfold uniqueInsertRangeWithOverflow in *.
  destruct (unique_insert_range (Some max_dictionary_size) global keys)
    as [[global' overflowed] ids].
  cbn [fst snd indexes overflowed_keys getData ColumnUInt_of block_dictionary block_keys
       block_positions] in *.
  destruct Hspec as (Hnullable' & (added & Hadded & Hcount) & Hlength & Hbudget & Hfull
                     & Hrows).
  destruct Helements as (_ & Hholder' & Hoverflowed); [|done|].
  { intros row v. apply getNestedColumn_rows; [congruence|done]. }
  assert (Hkeys_size : Z.of_nat (IColumn_size keys)
                       = ColumnUnique_size (getDictionary sub_column))
    by apply getNestedColumn_size.
  assert (Hgrown : ColumnUnique_size global' + Z.of_nat (length overflowed)
                   ≤ ColumnUnique_size global + Z.of_nat (IColumn_size keys)).
  { unfold ColumnUnique_size. rewrite Hnullable', Hadded, length_app. lia. }
  assert (Hids : Forall (λ id, 0 ≤ id < ColumnUnique_size global'
                                       + Z.of_nat (length overflowed)) ids).
  { apply Forall_lookup_2. intros row id Hid. by apply (Hrows row id). }
  assert (Hpicked : ∀ p, p ∈ getData (getIndexes sub_column) →
            ∃ id, ids !! Z.to_nat p = Some id ∧ nth (Z.to_nat p) ids 0 = id
                  ∧ block_value (removeNullable dictionary_type) global' overflowed id
                    = ColumnUnique_at (removeNullable dictionary_type)
                        (getDictionary sub_column) p).
  { intros p Hp. unfold valid_column in Hsub_valid. rewrite Forall_forall in Hsub_valid.
    specialize (Hsub_valid p Hp). cbn beta in Hsub_valid.
    assert (Hrow : (Z.to_nat p < length ids)%nat) by lia.
    destruct (lookup_lt_is_Some_2 _ _ Hrow) as [id Hid].
    exists id. split; [done|]. split; [by apply nth_lookup_Some|].
    destruct (Hrows _ _ Hid) as [_ ->]. subst keys.
    rewrite <- Hnullable, <- Hsub_nullable. by apply getNestedColumn_field. }
  split; [done|]. split; [by exists added|]. split; [done|]. split; [done|].
  split; [done|]. split.
  - unfold block_well_formed, ColumnVector_index, ColumnUInt_of.
    cbn [block_positions block_keys getData value_type].
    destruct (decide (max_dictionary_size ≠ 0)) as [_|]; [|done].
    assert (0 ≤ ColumnUnique_size global) by (unfold ColumnUnique_size; lia).
    split; [|split; [|split; [done|split; [lia|split; [|done]]]]].
    + rewrite Forall_fmap, Forall_forall. intros p Hp. unfold compose. cbn beta.
      destruct (Hpicked p Hp) as (id & Hid & -> & _).
      assert (Hfits : Forall (λ id, 0 ≤ id < modulus (smallest_UInt ids)) ids).
      { apply smallest_UInt_fits. eapply Forall_impl; [exact Hids|]. cbn beta. lia. }
      by apply (Forall_lookup_1 _ _ _ _ Hfits Hid).
    + rewrite Forall_fmap, Forall_forall. intros p Hp. unfold compose. cbn beta.
      destruct (Hpicked p Hp) as (id & Hid & -> & _).
      by apply (Forall_lookup_1 _ _ _ _ Hids Hid).
    + rewrite length_fmap. lia.
  - unfold block_rows, column_values, ColumnVector_index, ColumnUInt_of.
    cbn [block_positions block_keys getData].
    rewrite <- list_fmap_compose. apply Forall_fmap_ext, Forall_forall.
    intros p Hp. unfold compose. cbn beta.
    destruct (decide (max_dictionary_size ≠ 0)) as [_|]; [|done].
    by destruct (Hpicked p Hp) as (id & _ & -> & ->).
Qed.

End EncodeBlock.

(** ** The blocks of a session *)

Section SessionRows.

Context {V : Type} `{EqDecision V}.
Variable dictionary_type : DataTypePtr V.
Variable valid : V → Prop.

(** A block stays what it is when the dictionary it was made against
    grows, as long as a block with keys of its own had filled it. *)
Lemma block_rows_grown (max_dictionary_size : Z) (global global' : ColumnUnique V)
    (more : list V) (block : Block V) :
  max_dictionary_size ≠ 0 →
  is_nullable global' = is_nullable global →
  column_holder global' = column_holder global ++ more →
  (block_keys block ≠ [] → more = []) →
  block_well_formed valid max_dictionary_size global block →
  block_well_formed valid max_dictionary_size global' block
  ∧ block_rows dictionary_type max_dictionary_size global' block
    = block_rows dictionary_type max_dictionary_size global block.
Proof.
  intros Hmax Hnullable Hholder Hfull (Htype & Hrange & Hrest).
  assert (Hglobal' : global' = mkColumnUnique (is_nullable global)
                                 (column_holder global ++ more)).
  { destruct global'. cbn in *. by subst. }
  destruct (decide (block_keys block = [])) as [Hkeys|Hkeys].
  - assert (Hsize : ColumnUnique_size global ≤ ColumnUnique_size global').
    { unfold ColumnUnique_size. rewrite Hnullable, Hholder, length_app. lia. }
    destruct (decide (max_dictionary_size ≠ 0)) as [_|]; [|done].
    rewrite Hkeys in Hrange. cbn [length] in Hrange.
    split.
    + split; [done|]. split; [|done].
      destruct (decide (max_dictionary_size ≠ 0)) as [_|]; [|done].
      eapply Forall_impl; [exact Hrange|]. cbn beta. rewrite Hkeys. cbn [length]. lia.
    + unfold block_rows. apply Forall_fmap_ext.
      eapply Forall_impl; [exact Hrange|]. intros p Hp. cbn beta in Hp |- *.
      destruct (decide (max_dictionary_size ≠ 0)) as [_|]; [|done].
      unfold block_value.
      destruct (decide (p < ColumnUnique_size global')); [|lia].
      destruct (decide (p < ColumnUnique_size global)); [|lia].
      rewrite Hglobal'. apply ColumnUnique_at_grown. lia.
  - rewrite (Hfull Hkeys), app_nil_r in Hglobal'.
    assert (global' = global) as -> by (rewrite Hglobal'; by destruct global).
    done.
Qed.

Section Session.

Variable column : ColumnWithDictionary V.
Variable settings : SerializeBinaryBulkSettings.t.

Hypothesis no_new_dictionary :
  SerializeBinaryBulkSettings.use_new_dictionary_on_overflow settings = false.
Hypothesis with_dictionary :
  SerializeBinaryBulkSettings.max_dictionary_size settings ≠ 0.
Hypothesis column_valid : valid_column column.
Hypothesis column_holder_valid : Forall valid (column_holder (getDictionary column)).
Hypothesis sizes_fit :
  Z.max (SerializeBinaryBulkSettings.max_dictionary_size settings) 1
  + ColumnWithDictionary_size column + 1 < UInt64_modulus.

(** Without flushes the blocks of a session are all read against the
    dictionary the session ends with, and stand for the rows of their
    ranges. *)
Lemma session_blocks_rows (ranges : list (Z * Z)) :
  ∀ global : ColumnUnique V,
    is_nullable global = is_nullable (getDictionary column) →
    Forall valid (column_holder global) →
    ColumnUnique_size global
    ≤ Z.max (SerializeBinaryBulkSettings.max_dictionary_size settings) 1 →
    let final := session_dictionary dictionary_type column settings global ranges in
    let blocks := session_blocks dictionary_type column settings global ranges in
    is_nullable final = is_nullable global
    ∧ (∃ more, column_holder final = column_holder global ++ more)
    ∧ Forall valid (column_holder final)
    ∧ ColumnUnique_size final
      ≤ Z.max (SerializeBinaryBulkSettings.max_dictionary_size settings)
          (ColumnUnique_size global)
    ∧ Forall (block_well_formed valid
                (SerializeBinaryBulkSettings.max_dictionary_size settings) final)
        blocks
    ∧ concat (block_rows dictionary_type
                (SerializeBinaryBulkSettings.max_dictionary_size settings) final
              <$> blocks)
      = concat (range_rows dictionary_type column <$> ranges).
Proof.
  induction ranges as [|[offset limit] ranges IH]; intros global Hnullable Hholder Hsize.
  - cbn. split; [done|]. split; [by exists []; rewrite app_nil_r|]. split; [done|].
    split; [lia|]. split; [constructor|done].
  - cbn [session_dictionary session_blocks].
    destruct (block_of_insert dictionary_type valid column offset limit
                (SerializeBinaryBulkSettings.max_dictionary_size settings) global
                with_dictionary column_valid column_holder_valid Hholder (eq_sym Hnullable))
      as (Hnullable1 & (added & Hadded) & Hholder1 & Hbudget1 & Hfull1 & Hblock1 & Hrows1);
      [lia|].
    set (block := block_of dictionary_type column offset limit
                    (SerializeBinaryBulkSettings.max_dictionary_size settings) global)
      in *.
    assert (Hafter : dictionary_after dictionary_type settings block
                     = block_dictionary block).
    { unfold dictionary_after, block_flushes. by rewrite no_new_dictionary. }
    rewrite Hafter.
    destruct (IH (block_dictionary block))
      as (Hnullable' & (more & Hmore) & Hholder' & Hbudget' & Hblocks' & Hrows');
      [congruence|done|lia|].
    set (final := session_dictionary dictionary_type column settings
                    (block_dictionary block) ranges) in *.
    assert (Hkeep : block_keys block ≠ [] → more = []).
    { intros Hkeys. specialize (Hfull1 Hkeys). apply nil_length_inv.
      unfold ColumnUnique_size in Hbudget', Hfull1.
      rewrite Hnullable', Hmore, length_app in Hbudget'. lia. }
    destruct (block_rows_grown (SerializeBinaryBulkSettings.max_dictionary_size settings)
                (block_dictionary block) final more block with_dictionary Hnullable' Hmore Hkeep Hblock1)
      as [Hblock Hrows].
    split; [congruence|]. split.
    { exists (added ++ more). by rewrite Hmore, Hadded, app_assoc. }
    split; [done|]. split; [lia|]. split; [by constructor|].
    rewrite !fmap_cons, !concat_cons. by rewrite Hrows, Hrows1, Hrows'.
Qed.

End Session.

End SessionRows.

(** ** The streams of an encoding session *)

Section SessionLayout.

Context {V : Type} `{EqDecision V}.
Variable dictionary_type : DataTypePtr V.
Variable column : ColumnWithDictionary V.
Variable settings : SerializeBinaryBulkSettings.t.
Variables keys_stream indexes_stream : StreamPtr.

Hypothesis keys_stream_given :
  SerializeBinaryBulkSettings.getter settings
    (SerializeBinaryBulkSettings.path settings ++ [DictionaryKeys]) = Some keys_stream.
Hypothesis indexes_stream_given :
  SerializeBinaryBulkSettings.getter settings
    (SerializeBinaryBulkSettings.path settings ++ [DictionaryIndexes])
  = Some indexes_stream.
Hypothesis streams_differ : keys_stream ≠ indexes_stream.
Hypothesis keys_appended : codec_appends (removeNullable dictionary_type).

(** The calls of a session, one after the other. *)
Lemma serialize_blocks_written (key_version : KeysSerializationVersion.t)
    (ranges : list (Z * Z)) :
  KeysSerializationVersion.value key_version = 1 →
  ∀ (global : ColumnUnique V) (bufs : Buffers),
    ∃ bufs',
      foldl (λ session '(offset, limit),
               '(state, bufs) ← session;
               serializeBinaryBulkWithMultipleStreams dictionary_type column offset limit
                 settings state bufs)
            (Ok (Some (SerializeState
                         (SerializeStateWithDictionary.mk key_version (Some global))),
                 bufs))
            ranges
      = Ok (Some (SerializeState
                    (SerializeStateWithDictionary.mk key_version
                       (Some (session_dictionary dictionary_type column settings global
                                ranges)))),
            bufs')
      ∧ buffer_at bufs' indexes_stream
        = buffer_at bufs indexes_stream
          ++ concat (block_bytes dictionary_type
                       (SerializeBinaryBulkSettings.max_dictionary_size settings)
                     <$> session_blocks dictionary_type column settings global ranges)
      ∧ buffer_at bufs' keys_stream
        = buffer_at bufs keys_stream
          ++ flushed_bytes dictionary_type settings
               (session_blocks dictionary_type column settings global ranges)
      ∧ ∀ other : StreamPtr, other ≠ keys_stream → other ≠ indexes_stream →
          bufs' !! other = bufs !! other.
Proof.
  intros Hversion.
  induction ranges as [|[offset limit] ranges IH]; intros global bufs.
  - exists bufs. cbn. by rewrite !app_nil_r.
  - destruct (serialize_written dictionary_type column offset limit settings key_version
                global bufs keys_stream indexes_stream keys_stream_given
                indexes_stream_given streams_differ Hversion keys_appended)
      as (bufs1 & Hcall & Hindexes1 & Hkeys1 & Hother1).
    cbn [foldl session_dictionary session_blocks]. cbn [mbind result_bind].
    rewrite Hcall.
    destruct (IH (dictionary_after dictionary_type settings
                    (block_of dictionary_type column offset limit
                       (SerializeBinaryBulkSettings.max_dictionary_size settings) global))
                 bufs1)
      as (bufs' & Hfold & Hindexes' & Hkeys' & Hother').
    exists bufs'. split; [exact Hfold|].
    unfold flushed_bytes in *. rewrite !fmap_cons, !concat_cons.
    split; [by rewrite Hindexes', Hindexes1, <- app_assoc|].
    split; [by rewrite Hkeys', Hkeys1, <- app_assoc|].
    intros other Hk Hi. by rewrite Hother', Hother1.
Qed.

Lemma serialize_prefix_written (state : option (SerializeBinaryBulkState V))
    (bufs : Buffers) :
  serializeBinaryBulkStatePrefix dictionary_type settings state bufs
  = Ok (Some (SerializeState
                (SerializeStateWithDictionary.mk (KeysSerializationVersion.mk 1)
                   (Some (createColumnUnique dictionary_type)))),
        on_stream keys_stream (writeIntBinary 1) bufs).
Proof.
  unfold serializeBinaryBulkStatePrefix. rewrite keys_stream_given. reflexivity.
Qed.

Lemma serialize_suffix_written (global : ColumnUnique V) (bufs : Buffers) :
  ∃ bufs',
    serializeBinaryBulkStateSuffix dictionary_type settings
      (Some (SerializeState
               (SerializeStateWithDictionary.mk (KeysSerializationVersion.mk 1)
                  (Some global))))
      bufs
    = Ok (Some (SerializeState
                  (SerializeStateWithDictionary.mk (KeysSerializationVersion.mk 1)
                     (Some global))),
          bufs')
    ∧ buffer_at bufs' keys_stream
      = buffer_at bufs keys_stream
        ++ (if decide (SerializeBinaryBulkSettings.max_dictionary_size settings ≠ 0)
            then dictionary_bytes dictionary_type global else [])
    ∧ ∀ other : StreamPtr, other ≠ keys_stream → bufs' !! other = bufs !! other.
Proof.
  unfold serializeBinaryBulkStateSuffix.
  cbn [checkAndGetWithDictionarySerializeState mbind result_bind
       SerializeStateWithDictionary.global_dictionary
       SerializeStateWithDictionary.key_version KeysSerializationVersion.value].
  unfold KeysSerializationVersion.checkVersion,
    KeysSerializationVersion.SingleDictionaryWithAdditionalKeysPerBlock.
  destruct (decide (1 ≠ 1)) as [|_]; [done|]. cbn [mbind result_bind].
  destruct (decide (SerializeBinaryBulkSettings.max_dictionary_size settings ≠ 0)).
  - rewrite keys_stream_given. eexists. split; [reflexivity|]. split.
    + rewrite !buffer_at_on_stream, keys_appended. unfold dictionary_bytes, writeIntBinary.
      by rewrite <- app_assoc.
    + intros other Hother. by rewrite !(buffer_at_on_stream_other keys_stream other).
  - exists bufs. split; [done|]. split; [by rewrite app_nil_r|done].
Qed.

(** A whole session: the prefix, the calls, the suffix. *)
Lemma serialize_session_written (ranges : list (Z * Z)) :
  ∃ bufs,
    serialize_session dictionary_type column ranges settings = Ok bufs
    ∧ buffer_at bufs indexes_stream
      = concat (block_bytes dictionary_type
                  (SerializeBinaryBulkSettings.max_dictionary_size settings)
                <$> session_blocks dictionary_type column settings
                      (createColumnUnique dictionary_type) ranges)
    ∧ buffer_at bufs keys_stream
      = le_split 8 1
        ++ flushed_bytes dictionary_type settings
             (session_blocks dictionary_type column settings
                (createColumnUnique dictionary_type) ranges)
        ++ (if decide (SerializeBinaryBulkSettings.max_dictionary_size settings ≠ 0)
            then dictionary_bytes dictionary_type
                   (session_dictionary dictionary_type column settings
                      (createColumnUnique dictionary_type) ranges)
            else [])
    ∧ ∀ other : StreamPtr, other ≠ keys_stream → other ≠ indexes_stream →
        bufs !! other = None.
Proof.
  unfold serialize_session. rewrite serialize_prefix_written. cbn [mbind result_bind].
  destruct (serialize_blocks_written (KeysSerializationVersion.mk 1) ranges eq_refl
              (createColumnUnique dictionary_type)
              (on_stream keys_stream (writeIntBinary 1) ∅))
    as (bufs1 & -> & Hindexes1 & Hkeys1 & Hother1).
  cbn [mbind result_bind].
  destruct (serialize_suffix_written
              (session_dictionary dictionary_type column settings
                 (createColumnUnique dictionary_type) ranges) bufs1)
    as (bufs2 & -> & Hkeys2 & Hother2).
  cbn [mbind result_bind]. exists bufs2. split; [done|].
  assert (Hindexes0 : buffer_at (on_stream keys_stream (writeIntBinary 1) ∅) indexes_stream
                      = []).
  { by rewrite buffer_at_on_stream_ne. }
  assert (Hkeys0 : buffer_at (on_stream keys_stream (writeIntBinary 1) ∅) keys_stream
                   = le_split 8 1).
  { by rewrite buffer_at_on_stream. }
  split; [|split].
  - unfold buffer_at at 1. rewrite Hother2 by done. fold (buffer_at bufs1 indexes_stream).
    by rewrite Hindexes1, Hindexes0.
  - by rewrite Hkeys2, Hkeys1, Hkeys0, <- app_assoc.
  - intros other Hk Hi. rewrite Hother2, Hother1 by done.
    by rewrite (buffer_at_on_stream_other keys_stream other).
Qed.

End SessionLayout.

(** ** A decoding session *)

Section DecodeSession.

Context {V : Type} `{EqDecision V}.
Variable dictionary_type : DataTypePtr V.
Variable valid : V → Prop.
Variable settings : DeserializeBinaryBulkSettings.t.
Variables keys_stream indexes_stream : StreamPtr.

Hypothesis keys_stream_given :
  DeserializeBinaryBulkSettings.getter settings
    (DeserializeBinaryBulkSettings.path settings ++ [DictionaryKeys]) = Some keys_stream.
Hypothesis indexes_stream_given :
  DeserializeBinaryBulkSettings.getter settings
    (DeserializeBinaryBulkSettings.path settings ++ [DictionaryIndexes])
  = Some indexes_stream.
Hypothesis streams_differ : keys_stream ≠ indexes_stream.
Hypothesis keys_round_trip : codec_round_trip (removeNullable dictionary_type) valid.

Lemma blocks_bytes_length (max_dictionary_size : Z) (blocks : list (Block V)) :
  (length blocks
   ≤ length (concat (block_bytes dictionary_type max_dictionary_size <$> blocks)))%nat.
Proof.
  induction blocks as [|block blocks IH]; [done|].
  rewrite fmap_cons, concat_cons, length_app. cbn [length].
  pose proof (block_bytes_length dictionary_type max_dictionary_size block). lia.
Qed.

Lemma packed_bytes_length (T : UIntType) (positions : list Z) :
  (length positions
   ≤ length (serializeBinaryBulk (DataTypeNumber T) positions [] 0
               (Z.of_nat (length positions))))%nat.
Proof.
  cbn. rewrite Nat2Z.id, drop_0, firstn_all, packed_length.
  pose proof (sizeof_pos T). nia.
Qed.

(** The call from anywhere the decoder can stand. *)
Lemma deserialize_resumes (max_dictionary_size : Z) (global : ColumnUnique V)
    (current : Block V) (blocks : list (Block V)) (column : ColumnWithDictionary V)
    (limit : Z) (s : DeserializeStateWithDictionary.t V) (mem : Memory) :
  0 ≤ limit →
  decoder_at dictionary_type valid max_dictionary_size global keys_stream indexes_stream
    s mem current blocks →
  column_ok dictionary_type s column →
  ∃ column' s' mem' current' blocks',
    deserializeBinaryBulkWithMultipleStreams dictionary_type column limit settings
      (Some (DeserializeState s)) mem
    = Some (Ok (column', Some (DeserializeState s'), mem'))
    ∧ decoder_at dictionary_type valid max_dictionary_size global keys_stream
        indexes_stream s' mem' current' blocks'
    ∧ column_ok dictionary_type s' column'
    ∧ column_values (removeNullable dictionary_type) column'
      = column_values (removeNullable dictionary_type) column
        ++ take (Z.to_nat limit)
             (rows_left dictionary_type max_dictionary_size global current blocks)
    ∧ rows_left dictionary_type max_dictionary_size global current' blocks'
      = drop (Z.to_nat limit)
          (rows_left dictionary_type max_dictionary_size global current blocks).
Proof.
  intros Hlimit Hat Hcolumn.
  unfold deserializeBinaryBulkWithMultipleStreams.
  cbn [checkAndGetWithDictionaryDeserializeState].
  pose proof Hat as (Hversion & _ & _ & _ & _ & Hbuffer).
  rewrite Hversion.
  unfold KeysSerializationVersion.checkVersion,
    KeysSerializationVersion.SingleDictionaryWithAdditionalKeysPerBlock.
  destruct (decide (1 ≠ 1)) as [|_]; [done|].
  rewrite keys_stream_given, indexes_stream_given.
  destruct (deserialize_loop_resumes dictionary_type valid keys_round_trip keys_stream
              indexes_stream max_dictionary_size global blocks
              (loop_fuel indexes_stream limit mem) limit column s mem current
              streams_differ Hlimit)
    as (column' & s' & mem' & current' & blocks' & -> & Hrest); try done.
  - intros Hne. unfold loop_fuel. rewrite Hbuffer, length_app.
    pose proof (blocks_bytes_length max_dictionary_size blocks).
    pose proof (packed_bytes_length (value_type (block_positions current))
                  (getData (block_positions current))).
    lia.
  - by exists column', s', mem', current', blocks'.
Qed.

(** A session on streams that hold the version, the dictionary if the
    session has one, and blocks. *)
Lemma deserialize_session_blocks (max_dictionary_size : Z) (global : ColumnUnique V)
    (blocks : list (Block V)) (bufs : Buffers) (limit : Z) (keys_rest : list byte) :
  0 ≤ limit →
  Forall (block_well_formed valid max_dictionary_size global) blocks →
  (max_dictionary_size ≠ 0 →
   is_nullable global = isNullable dictionary_type
   ∧ Forall valid (column_holder global)
   ∧ Z.of_nat (length (column_holder global)) < UInt64_modulus
   ∧ ∃ rest, keys_rest = dictionary_bytes dictionary_type global ++ rest) →
  buffer_at bufs keys_stream = le_split 8 1 ++ keys_rest →
  buffer_at bufs indexes_stream
  = concat (block_bytes dictionary_type max_dictionary_size <$> blocks) →
  deserialize_session dictionary_type bufs limit settings
  = Some (Ok (take (Z.to_nat limit)
                (concat (block_rows dictionary_type max_dictionary_size global
                         <$> blocks)))).
Proof.
  intros Hlimit Hblocks Hglobal Hkeys Hindexes.
  unfold deserialize_session, deserializeBinaryBulkStatePrefix.
  rewrite keys_stream_given, Hkeys.
  rewrite readIntBinary_le_split by (unfold UInt64_modulus; lia).
  cbn [mbind result_bind].
  unfold DeserializeStateWithDictionary.create, KeysSerializationVersion.create,
    KeysSerializationVersion.checkVersion,
    KeysSerializationVersion.SingleDictionaryWithAdditionalKeysPerBlock.
  destruct (decide (1 ≠ 1)) as [|_]; [done|]. cbn [mbind result_bind].
  match goal with
  | |- context [deserializeBinaryBulkWithMultipleStreams _ ?column _ _
                  (Some (DeserializeState ?s)) ?mem] =>
      destruct (deserialize_resumes max_dictionary_size global
                  (mkBlock global (mkColumnVector UInt8 []) []) blocks column limit s mem
                  Hlimit)
        as (column' & s' & mem' & current' & blocks' & -> & _ & _ & Hvalues & _)
  end.
  - split; [done|]. split; [done|]. split.
    { intros Hmax. destruct (Hglobal Hmax) as (Hnullable & Hholder & Hlength & rest & ->).
      split; [done|]. right. split; [done|]. split; [done|]. split; [done|].
      exists rest. cbn [buffers]. by rewrite buffer_at_insert_eq. }
    split; [done|]. split; [done|].
    cbn [buffers]. by rewrite buffer_at_insert_ne.
  - split; [by constructor|]. split; [done|by left].
  - by rewrite Hvalues.
Qed.

End DecodeSession.

(** ** Round trip *)

Section RoundTrip.

Context {V : Type} `{EqDecision V}.
Variable dictionary_type : DataTypePtr V.
Variable valid : V → Prop.
Variable column : ColumnWithDictionary V.
Variable write_settings : SerializeBinaryBulkSettings.t.
Variable read_settings : DeserializeBinaryBulkSettings.t.
Variables keys_stream indexes_stream : StreamPtr.

Lemma flushed_bytes_nil (blocks : list (Block V)) :
  SerializeBinaryBulkSettings.use_new_dictionary_on_overflow write_settings = false →
  flushed_bytes dictionary_type write_settings blocks = [].
Proof.
  intros Hnew. unfold flushed_bytes, block_flushes. rewrite Hnew. cbn [andb].
  induction blocks as [|block blocks IH]; [done|]. by rewrite fmap_cons, concat_cons, IH.
Qed.

(** X12.  A session without new dictionaries on overflow reads back what it
    wrote.  For a valid column of values the codec of the element type can
    carry, a size budget [max_dictionary_size ≠ 0], both streams given (and
    distinct) to the encoder and to the decoder, and any ranges of rows: the
    session of prefix, one [serializeBinaryBulkWithMultipleStreams] per range
    and suffix succeeds, and on the streams it leaves the decoding session of
    prefix and one [deserializeBinaryBulkWithMultipleStreams] with any
    [limit ≥ 0] returns exactly the first [limit] of the rows of the ranges
    (all of them when they are no more than [limit]), NULLs included, in
    order: the keys that overflowed the dictionary come back as well as the
    others. *)
Theorem session_round_trip (ranges : list (Z * Z)) (limit : Z) :
  SerializeBinaryBulkSettings.getter write_settings
    (SerializeBinaryBulkSettings.path write_settings ++ [DictionaryKeys])
  = Some keys_stream →
  SerializeBinaryBulkSettings.getter write_settings
    (SerializeBinaryBulkSettings.path write_settings ++ [DictionaryIndexes])
  = Some indexes_stream →
  DeserializeBinaryBulkSettings.getter read_settings
    (DeserializeBinaryBulkSettings.path read_settings ++ [DictionaryKeys])
  = Some keys_stream →
  DeserializeBinaryBulkSettings.getter read_settings
    (DeserializeBinaryBulkSettings.path read_settings ++ [DictionaryIndexes])
  = Some indexes_stream →
  keys_stream ≠ indexes_stream →
  codec_appends (removeNullable dictionary_type) →
  codec_round_trip (removeNullable dictionary_type) valid →
  SerializeBinaryBulkSettings.use_new_dictionary_on_overflow write_settings = false →
  SerializeBinaryBulkSettings.max_dictionary_size write_settings ≠ 0 →
  valid_column column →
  is_nullable (getDictionary column) = isNullable dictionary_type →
  Forall valid (column_holder (getDictionary column)) →
  Z.max (SerializeBinaryBulkSettings.max_dictionary_size write_settings) 1
  + ColumnWithDictionary_size column + 1 < UInt64_modulus →
  Forall (λ range, 0 ≤ range.1 ≤ ColumnWithDictionary_size column ∧ 0 ≤ range.2) ranges →
  0 ≤ limit →
  ∃ bufs,
    serialize_session dictionary_type column ranges write_settings = Ok bufs
    ∧ deserialize_session dictionary_type bufs limit read_settings
      = Some (Ok (take (Z.to_nat limit)
                    (concat (range_rows dictionary_type column <$> ranges)))).
Proof.
  intros Hwrite_keys Hwrite_indexes Hread_keys Hread_indexes Hstreams Happends Hround
    Hnew Hmax Hvalid Hnullable Hholder Hsizes _ Hlimit.
  destruct (serialize_session_written dictionary_type column write_settings keys_stream
              indexes_stream Hwrite_keys Hwrite_indexes Hstreams Happends ranges)
    as (bufs & Hsession & Hindexes & Hkeys & _).
  exists bufs. split; [done|].
  destruct (session_blocks_rows dictionary_type valid column write_settings Hnew Hmax
              Hvalid Hholder Hsizes ranges (createColumnUnique dictionary_type))
    as (Hnullable' & _ & Hholder' & Hbudget & Hblocks & Hrows).
  { by rewrite Hnullable. }
  { constructor. }
  { unfold ColumnUnique_size, createColumnUnique, null_offset. cbn.
    destruct (isNullable dictionary_type); cbn; lia. }
  rewrite flushed_bytes_nil, app_nil_l in Hkeys by done.
  destruct (decide _) as [_|]; [|done].
  rewrite <- Hrows.
  eapply (deserialize_session_blocks dictionary_type valid read_settings keys_stream
            indexes_stream Hread_keys Hread_indexes Hstreams Hround); try done.
  intros _. split; [done|]. split; [done|]. split; [|by exists []; rewrite app_nil_r].
  assert (Hfresh : ColumnUnique_size (createColumnUnique dictionary_type) ≤ 1).
  { unfold ColumnUnique_size, createColumnUnique, null_offset. cbn.
    destruct (isNullable dictionary_type); cbn; lia. }
  unfold ColumnUnique_size in Hbudget at 1.
  assert (0 ≤ ColumnWithDictionary_size column) by (unfold ColumnWithDictionary_size; lia).
  lia.
Qed.

End RoundTrip.

Lemma session_round_trip_witness :
  ∃ bufs,
    serialize_session UInt8_dictionary_type column_1234 [(0, 2); (2, 2)]
      (serialize_settings 2 false)
    = Ok bufs
    ∧ deserialize_session UInt8_dictionary_type bufs 3 deserialize_settings
      = Some (Ok [Some 1; Some 2; Some 3]).
Proof.
  assert (Hstreams : 0%nat ≠ 1%nat) by discriminate.
  assert (Hmax : SerializeBinaryBulkSettings.max_dictionary_size (serialize_settings 2 false)
                 ≠ 0) by discriminate.
  assert (Hvalid : valid_column column_1234)
    by (unfold valid_column, ColumnUnique_size; cbn; repeat constructor; lia).
  assert (Hholder : Forall (λ p, 0 ≤ p < modulus UInt8)
                      (column_holder (getDictionary column_1234)))
    by (unfold modulus; cbn; repeat constructor; lia).
  assert (Hsizes : Z.max (SerializeBinaryBulkSettings.max_dictionary_size
                            (serialize_settings 2 false)) 1
                   + ColumnWithDictionary_size column_1234 + 1 < UInt64_modulus)
    by (vm_compute; reflexivity).
  assert (Hranges : Forall (λ range : Z * Z,
                              0 ≤ range.1 ≤ ColumnWithDictionary_size column_1234
                              ∧ 0 ≤ range.2) [(0, 2); (2, 2)])
    by (unfold ColumnWithDictionary_size; cbn; repeat constructor; cbn; lia).
  assert (Hlimit : 0 ≤ 3) by lia.
  exact (session_round_trip UInt8_dictionary_type (λ p, 0 ≤ p < modulus UInt8)
           column_1234 (serialize_settings 2 false) deserialize_settings 0%nat 1%nat
           [(0, 2); (2, 2)] 3 eq_refl eq_refl eq_refl eq_refl Hstreams
           (DataTypeNumber_appends UInt8) (DataTypeNumber_round_trip UInt8)
           eq_refl Hmax Hvalid eq_refl Hholder Hsizes Hranges Hlimit).
Defined.

(** ** Sessions without a global dictionary *)

Section WithoutDictionary.

Context {V : Type} `{EqDecision V}.
Variable dictionary_type : DataTypePtr V.
Variable valid : V → Prop.
Variable column : ColumnWithDictionary V.

Hypothesis column_valid : valid_column column.
Hypothesis column_not_nullable : is_nullable (getDictionary column) = false.
Hypothesis column_holder_valid : Forall valid (column_holder (getDictionary column)).
Hypothesis sizes_fit : ColumnWithDictionary_size column + 1 < UInt64_modulus.

(** A call without a global dictionary: the block carries the keys of its
    rows, and its positions count into them. *)
Lemma block_of_plain (offset limit : Z) (global global' : ColumnUnique V) :
  0 ≤ offset < ColumnWithDictionary_size column → 0 ≤ limit →
  let block := block_of dictionary_type column offset limit 0 global in
  block_well_formed valid 0 global' block
  ∧ block_rows dictionary_type 0 global' block
    = take (Z.to_nat (serialized_limit (ColumnWithDictionary_size column) offset limit))
        (drop (Z.to_nat offset) (column_values (removeNullable dictionary_type) column)).
Proof.
  intros Hoffset Hlimit.
  rewrite <- (cutAndCompact_values dictionary_type column offset _ column_valid).
  unfold block_of. destruct (decide (0 ≠ 0)) as [|_]; [done|].
  destruct (cutAndCompact_valid dictionary_type valid column offset
              (serialized_limit (ColumnWithDictionary_size column) offset limit)
              column_valid)
    as (Hsub_valid & Hsub_nullable & Hsub_holder & Hsub_size & Hsub_rows).
  specialize (Hsub_holder column_holder_valid).
  assert (Hrows : (0 < length (getData (getIndexes
                     (cutAndCompact (removeNullable dictionary_type) column offset
                        (serialized_limit (ColumnWithDictionary_size column) offset
                           limit)))))%nat).
  { unfold cutAndCompact. cbn [getIndexes getData ColumnUInt_of].
    rewrite length_fmap, length_take, length_drop.
    rewrite serialized_limit_spec by lia.
    unfold ColumnWithDictionary_size in *. destruct (decide (limit = 0)); lia. }
  set (sub_column := cutAndCompact _ column offset _) in *.
  rewrite column_not_nullable in Hsub_nullable.
  assert (Hkeys : nested_values (getNestedColumn (removeNullable dictionary_type)
                                   (getDictionary sub_column))
                  = column_holder (getDictionary sub_column)).
  { unfold getNestedColumn. by rewrite Hsub_nullable. }
  assert (Hsize : ColumnUnique_size (getDictionary sub_column)
                  = Z.of_nat (length (column_holder (getDictionary sub_column)))).
  { unfold ColumnUnique_size. by rewrite Hsub_nullable. }
  rewrite Hkeys. unfold valid_column in Hsub_valid. rewrite Hsize in Hsub_valid, Hsub_size.
  split.
  - unfold block_well_formed. cbn [block_positions block_keys].
    destruct (decide (0 ≠ 0)) as [|_]; [done|].
    split; [|split; [|split; [done|split; [lia|split; [lia|]]]]].
    + apply smallest_UInt_fits. eapply Forall_impl; [exact Hsub_valid|]. cbn beta. lia.
    + exact Hsub_valid.
    + intros _ Hempty. rewrite Hempty in Hsub_valid.
      destruct (getData (getIndexes sub_column)) as [|p positions]; [cbn in Hrows; lia|].
      apply Forall_cons in Hsub_valid as [Hp _]. cbn in Hp. lia.
  - unfold block_rows, column_values. cbn [block_positions block_keys].
    apply Forall_fmap_ext. eapply Forall_impl; [exact Hsub_valid|].
    intros p Hp. cbn beta in Hp |- *.
    destruct (decide (0 ≠ 0)) as [|_]; [done|].
    unfold ColumnUnique_at. rewrite Hsub_nullable. cbn [null_offset].
    destruct (decide (Z.to_nat p < 0)%nat); [lia|]. by rewrite Nat.sub_0_r.
Qed.

Variable settings : SerializeBinaryBulkSettings.t.
Hypothesis without_dictionary : SerializeBinaryBulkSettings.max_dictionary_size settings = 0.

Lemma session_blocks_plain (global' : ColumnUnique V) (ranges : list (Z * Z)) :
  Forall (λ range, 0 ≤ range.1 < ColumnWithDictionary_size column ∧ 0 ≤ range.2) ranges →
  ∀ global : ColumnUnique V,
    let blocks := session_blocks dictionary_type column settings global ranges in
    Forall (block_well_formed valid 0 global') blocks
    ∧ concat (block_rows dictionary_type 0 global' <$> blocks)
      = concat (range_rows dictionary_type column <$> ranges).
Proof.
  induction 1 as [|[offset limit] ranges [Hoffset Hlimit] Hranges IH]; intros global.
  - by split; [constructor|].
  - cbn [session_blocks]. rewrite without_dictionary.
    destruct (block_of_plain offset limit global global' Hoffset Hlimit) as [Hblock Hrows].
    destruct (IH (dictionary_after dictionary_type settings
                    (block_of dictionary_type column offset limit 0 global)))
      as [Hblocks Hrows'].
    split; [by constructor|].
    rewrite !fmap_cons, !concat_cons. by rewrite Hrows, Hrows'.
Qed.

End WithoutDictionary.

Section RoundTripWithoutDictionary.

Context {V : Type} `{EqDecision V}.
Variable dictionary_type : DataTypePtr V.
Variable valid : V → Prop.
Variable column : ColumnWithDictionary V.
Variable write_settings : SerializeBinaryBulkSettings.t.
Variable read_settings : DeserializeBinaryBulkSettings.t.
Variables keys_stream indexes_stream : StreamPtr.

(** X13.  A session with [max_dictionary_size = 0] reads back what it
    wrote, whatever [use_new_dictionary_on_overflow] is and whatever the calls
    leave on the keys stream: for an element type that is not nullable, a
    valid column of values its codec can carry, both streams given (and
    distinct), and ranges that each start inside the column (so that every
    block has rows), the decoding session with any [limit ≥ 0] returns
    exactly the first [limit] of the rows of the ranges (all of them when
    they are no more than [limit]), in order. *)
Theorem session_round_trip_without_dictionary (ranges : list (Z * Z)) (limit : Z) :
  SerializeBinaryBulkSettings.getter write_settings
    (SerializeBinaryBulkSettings.path write_settings ++ [DictionaryKeys])
  = Some keys_stream →
  SerializeBinaryBulkSettings.getter write_settings
    (SerializeBinaryBulkSettings.path write_settings ++ [DictionaryIndexes])
  = Some indexes_stream →
  DeserializeBinaryBulkSettings.getter read_settings
    (DeserializeBinaryBulkSettings.path read_settings ++ [DictionaryKeys])
  = Some keys_stream →
  DeserializeBinaryBulkSettings.getter read_settings
    (DeserializeBinaryBulkSettings.path read_settings ++ [DictionaryIndexes])
  = Some indexes_stream →
  keys_stream ≠ indexes_stream →
  codec_appends (removeNullable dictionary_type) →
  codec_round_trip (removeNullable dictionary_type) valid →
  SerializeBinaryBulkSettings.max_dictionary_size write_settings = 0 →
  valid_column column →
  isNullable dictionary_type = false →
  is_nullable (getDictionary column) = false →
  Forall valid (column_holder (getDictionary column)) →
  ColumnWithDictionary_size column + 1 < UInt64_modulus →
  Forall (λ range, 0 ≤ range.1 < ColumnWithDictionary_size column ∧ 0 ≤ range.2) ranges →
  0 ≤ limit →
  ∃ bufs,
    serialize_session dictionary_type column ranges write_settings = Ok bufs
    ∧ deserialize_session dictionary_type bufs limit read_settings
      = Some (Ok (take (Z.to_nat limit)
                    (concat (range_rows dictionary_type column <$> ranges)))).
Proof.
  intros Hwrite_keys Hwrite_indexes Hread_keys Hread_indexes Hstreams Happends Hround
    Hmax Hvalid _ Hnullable Hholder Hsizes Hranges Hlimit.
  destruct (serialize_session_written dictionary_type column write_settings keys_stream
              indexes_stream Hwrite_keys Hwrite_indexes Hstreams Happends ranges)
    as (bufs & Hsession & Hindexes & Hkeys & _).
  exists bufs. split; [done|].
  destruct (session_blocks_plain dictionary_type valid column Hvalid Hnullable Hholder
              Hsizes write_settings Hmax (createColumnUnique dictionary_type) ranges
              Hranges (createColumnUnique dictionary_type))
    as [Hblocks Hrows].
  rewrite Hmax in Hindexes.
  rewrite <- Hrows.
  by eapply (deserialize_session_blocks dictionary_type valid read_settings keys_stream
               indexes_stream Hread_keys Hread_indexes Hstreams Hround 0
               (createColumnUnique dictionary_type)).
Qed.

End RoundTripWithoutDictionary.

Lemma session_round_trip_without_dictionary_witness :
  ∃ bufs,
    serialize_session UInt8_dictionary_type column_1234 [(0, 2); (2, 2)]
      (serialize_settings 0 true)
    = Ok bufs
    ∧ deserialize_session UInt8_dictionary_type bufs 3 deserialize_settings
      = Some (Ok [Some 1; Some 2; Some 3]).
Proof.
  assert (Hstreams : 0%nat ≠ 1%nat) by discriminate.
  assert (Hvalid : valid_column column_1234)
    by (unfold valid_column, ColumnUnique_size; cbn; repeat constructor; lia).
  assert (Hholder : Forall (λ p, 0 ≤ p < modulus UInt8)
                      (column_holder (getDictionary column_1234)))
    by (unfold modulus; cbn; repeat constructor; lia).
  assert (Hsizes : ColumnWithDictionary_size column_1234 + 1 < UInt64_modulus)
    by (vm_compute; reflexivity).
  assert (Hranges : Forall (λ range : Z * Z,
                              0 ≤ range.1 < ColumnWithDictionary_size column_1234
                              ∧ 0 ≤ range.2) [(0, 2); (2, 2)])
    by (unfold ColumnWithDictionary_size; cbn; repeat constructor; cbn; lia).
  assert (Hlimit : 0 ≤ 3) by lia.
  exact (session_round_trip_without_dictionary UInt8_dictionary_type
           (λ p, 0 ≤ p < modulus UInt8) column_1234 (serialize_settings 0 true)
           deserialize_settings 0%nat 1%nat [(0, 2); (2, 2)] 3
           eq_refl eq_refl eq_refl eq_refl Hstreams
           (DataTypeNumber_appends UInt8) (DataTypeNumber_round_trip UInt8)
           eq_refl Hvalid eq_refl eq_refl Hholder Hsizes Hranges Hlimit).
Defined.

(** ** The layout of what is written *)

Section Layout.

Context {V : Type} `{EqDecision V}.
Variable dictionary_type : DataTypePtr V.

(** X9.  What one call of [serializeBinaryBulkWithMultipleStreams] writes,
    for a state with a global dictionary and both streams given (and
    distinct): the call succeeds; it appends one block to the indexes stream
    (the header, the additional keys with their number if there are any, the
    number of rows, the packed positions); it appends the global dictionary
    to the keys stream exactly when [use_new_dictionary_on_overflow] is set
    and the dictionary has reached [max_dictionary_size], and then leaves a
    fresh dictionary in the state; it touches no other stream.  Without
    [use_new_dictionary_on_overflow] the keys stream is left as it was. *)
Theorem serialize_call_appends_block
    (column : ColumnWithDictionary V) (offset limit : Z)
    (settings : SerializeBinaryBulkSettings.t)
    (key_version : KeysSerializationVersion.t) (global_dictionary : ColumnUnique V)
    (bufs : Buffers) (keys_stream indexes_stream : StreamPtr) :
  SerializeBinaryBulkSettings.getter settings
    (SerializeBinaryBulkSettings.path settings ++ [DictionaryKeys]) = Some keys_stream →
  SerializeBinaryBulkSettings.getter settings
    (SerializeBinaryBulkSettings.path settings ++ [DictionaryIndexes])
  = Some indexes_stream →
  keys_stream ≠ indexes_stream →
  KeysSerializationVersion.value key_version = 1 →
  codec_appends (removeNullable dictionary_type) →
  let max_dictionary_size := SerializeBinaryBulkSettings.max_dictionary_size settings in
  let block := block_of dictionary_type column offset limit max_dictionary_size
                 global_dictionary in
  ∃ bufs',
    serializeBinaryBulkWithMultipleStreams dictionary_type column offset limit settings
      (Some (SerializeState
               (SerializeStateWithDictionary.mk key_version (Some global_dictionary))))
      bufs
    = Ok (Some (SerializeState
                  (SerializeStateWithDictionary.mk key_version
                     (Some (dictionary_after dictionary_type settings block)))),
          bufs')
    ∧ buffer_at bufs' indexes_stream
      = buffer_at bufs indexes_stream ++ block_bytes dictionary_type max_dictionary_size block
    ∧ buffer_at bufs' keys_stream
      = buffer_at bufs keys_stream
        ++ (if SerializeBinaryBulkSettings.use_new_dictionary_on_overflow settings
               && bool_decide (max_dictionary_size
                               ≤ ColumnUnique_size (block_dictionary block))
            then dictionary_bytes dictionary_type (block_dictionary block)
            else [])
    ∧ (SerializeBinaryBulkSettings.use_new_dictionary_on_overflow settings = false →
       buffer_at bufs' keys_stream = buffer_at bufs keys_stream)
    ∧ ∀ other : StreamPtr, other ≠ keys_stream → other ≠ indexes_stream →
        bufs' !! other = bufs !! other.
Proof.
  intros Hkeys Hindexes Hstreams Hversion Happends max_dictionary_size block.
  destruct (serialize_written dictionary_type column offset limit settings key_version
              global_dictionary bufs keys_stream indexes_stream Hkeys Hindexes Hstreams
              Hversion Happends)
    as (bufs' & Hcall & Hindexes' & Hkeys' & Hother).
  exists bufs'. split; [exact Hcall|]. split; [exact Hindexes'|]. split; [exact Hkeys'|].
  split; [|exact Hother].
  intros Hnew. rewrite Hkeys'. unfold block_flushes. rewrite Hnew. cbn [andb].
  apply app_nil_r.
Qed.

(** X10.  The streams of a whole encoding session (the prefix on empty
    streams, one call per range, the suffix), for any settings that give both
    streams (distinct): the session succeeds; the indexes stream holds the
    blocks of the calls, one after the other; the keys stream holds the
    version word 1, then the dictionaries the calls flushed, then, when
    [max_dictionary_size ≠ 0], the dictionary the state ends with; no other
    stream is written. *)
Theorem serialize_session_streams
    (column : ColumnWithDictionary V) (settings : SerializeBinaryBulkSettings.t)
    (keys_stream indexes_stream : StreamPtr) (ranges : list (Z * Z)) :
  SerializeBinaryBulkSettings.getter settings
    (SerializeBinaryBulkSettings.path settings ++ [DictionaryKeys]) = Some keys_stream →
  SerializeBinaryBulkSettings.getter settings
    (SerializeBinaryBulkSettings.path settings ++ [DictionaryIndexes])
  = Some indexes_stream →
  keys_stream ≠ indexes_stream →
  codec_appends (removeNullable dictionary_type) →
  let max_dictionary_size := SerializeBinaryBulkSettings.max_dictionary_size settings in
  let blocks :=
    session_blocks dictionary_type column settings (createColumnUnique dictionary_type)
      ranges in
  let final :=
    session_dictionary dictionary_type column settings (createColumnUnique dictionary_type)
      ranges in
  ∃ bufs,
    serialize_session dictionary_type column ranges settings = Ok bufs
    ∧ buffer_at bufs indexes_stream
      = concat (block_bytes dictionary_type max_dictionary_size <$> blocks)
    ∧ buffer_at bufs keys_stream
      = le_split 8 1
        ++ flushed_bytes dictionary_type settings blocks
        ++ (if decide (max_dictionary_size ≠ 0)
            then dictionary_bytes dictionary_type final else [])
    ∧ ∀ other : StreamPtr, other ≠ keys_stream → other ≠ indexes_stream →
        bufs !! other = None.
Proof.
  intros Hkeys Hindexes Hstreams Happends.
  exact (serialize_session_written dictionary_type column settings keys_stream
           indexes_stream Hkeys Hindexes Hstreams Happends ranges).
Qed.

(** X11.  [deserializeBinaryBulkWithMultipleStreams] delivers the rows on
    the indexes stream in order, [limit] at a time.  The decoder stands
    between two calls when its state has version 1, the rows of the block it
    is in ([current], whose header the state holds) are what the state counts
    as pending, and the indexes stream holds their packed positions followed
    by well-formed blocks; the global dictionary is in the state, or next on
    the keys stream before the first header is read.  From there, with both
    streams given (and distinct), a call with any [limit ≥ 0] returns; the
    column has gained exactly the first [limit] of the rows still to come
    (all of them if they are fewer); and the decoder stands again between two
    calls, before the rows that are left, so that the next call goes on where
    this one stopped, in the middle of a block if need be. *)
Theorem deserialize_delivers_rows_in_order (valid : V → Prop)
    (settings : DeserializeBinaryBulkSettings.t) (keys_stream indexes_stream : StreamPtr)
    (max_dictionary_size : Z) (global : ColumnUnique V)
    (current : Block V) (blocks : list (Block V)) (column : ColumnWithDictionary V)
    (limit : Z) (s : DeserializeStateWithDictionary.t V) (mem : Memory) :
  DeserializeBinaryBulkSettings.getter settings
    (DeserializeBinaryBulkSettings.path settings ++ [DictionaryKeys]) = Some keys_stream →
  DeserializeBinaryBulkSettings.getter settings
    (DeserializeBinaryBulkSettings.path settings ++ [DictionaryIndexes])
  = Some indexes_stream →
  keys_stream ≠ indexes_stream →
  codec_round_trip (removeNullable dictionary_type) valid →
  0 ≤ limit →
  decoder_at dictionary_type valid max_dictionary_size global keys_stream indexes_stream
    s mem current blocks →
  column_ok dictionary_type s column →
  ∃ column' s' mem' current' blocks',
    deserializeBinaryBulkWithMultipleStreams dictionary_type column limit settings
      (Some (DeserializeState s)) mem
    = Some (Ok (column', Some (DeserializeState s'), mem'))
    ∧ decoder_at dictionary_type valid max_dictionary_size global keys_stream
        indexes_stream s' mem' current' blocks'
    ∧ column_ok dictionary_type s' column'
    ∧ column_values (removeNullable dictionary_type) column'
      = column_values (removeNullable dictionary_type) column
        ++ take (Z.to_nat limit)
             (rows_left dictionary_type max_dictionary_size global current blocks)
    ∧ rows_left dictionary_type max_dictionary_size global current' blocks'
      = drop (Z.to_nat limit)
          (rows_left dictionary_type max_dictionary_size global current blocks).
Proof.
  intros Hkeys Hindexes Hstreams Hround.
  exact (deserialize_resumes dictionary_type valid settings keys_stream indexes_stream
           Hkeys Hindexes Hstreams Hround max_dictionary_size global current blocks
           column limit s mem).
Qed.

End Layout.

Lemma serialize_call_appends_block_witness :
  ∃ bufs',
    serializeBinaryBulkWithMultipleStreams UInt8_dictionary_type column_1234 0 2
      (serialize_settings 2 true) state_after_prefix buffers_after_prefix
    = Ok (state_after_prefix, bufs')
    ∧ buffer_at bufs' 1%nat = le_split 8 256 ++ le_split 8 2 ++ [Byte.x00; Byte.x01]
    ∧ buffer_at bufs' 0%nat = le_split 8 1 ++ le_split 8 2 ++ [Byte.x01; Byte.x02].
Proof.
  assert (Hstreams : 0%nat ≠ 1%nat) by discriminate.
  destruct (serialize_call_appends_block UInt8_dictionary_type column_1234 0 2
              (serialize_settings 2 true) (KeysSerializationVersion.mk 1)
              (mkColumnUnique false []) buffers_after_prefix 0%nat 1%nat
              eq_refl eq_refl Hstreams eq_refl (DataTypeNumber_appends UInt8))
    as (bufs' & Hcall & Hindexes & Hkeys & _).
  exists bufs'. split; [exact Hcall|]. split.
  - rewrite Hindexes. vm_compute. reflexivity.
  - rewrite Hkeys. vm_compute. reflexivity.
Defined.

Lemma serialize_session_streams_witness :
  ∃ bufs,
    serialize_session UInt8_dictionary_type column_1234 [(0, 2); (2, 2)]
      (serialize_settings 2 true)
    = Ok bufs
    ∧ buffer_at bufs 1%nat = two_dictionaries_indexes
    ∧ buffer_at bufs 0%nat = two_dictionaries_keys.
Proof.
  assert (Hstreams : 0%nat ≠ 1%nat) by discriminate.
  destruct (serialize_session_streams UInt8_dictionary_type column_1234
              (serialize_settings 2 true) 0%nat 1%nat [(0, 2); (2, 2)]
              eq_refl eq_refl Hstreams (DataTypeNumber_appends UInt8))
    as (bufs & Hsession & Hindexes & Hkeys & _).
  exists bufs. split; [exact Hsession|]. split.
  - rewrite Hindexes. vm_compute. reflexivity.
  - rewrite Hkeys. vm_compute. reflexivity.
Defined.

Lemma deserialize_delivers_rows_in_order_witness :
  ∃ column' s' mem' current' blocks',
    deserializeBinaryBulkWithMultipleStreams UInt8_dictionary_type
      column_after_first_block 1 deserialize_settings
      (Some (DeserializeState decoder_state_after_first_block))
      (mkMemory {[ 1%nat := le_split 8 256 ++ le_split 8 2 ++ [Byte.x00; Byte.x01] ]} 1)
    = Some (Ok (column', Some (DeserializeState s'), mem'))
    ∧ column_values (DataTypeNumber UInt8) column' = [Some 1; Some 2; Some 1]
    ∧ rows_left UInt8_dictionary_type 2 (mkColumnUnique false [1; 2]) current' blocks'
      = [Some 2].
Proof.
  assert (Hstreams : 0%nat ≠ 1%nat) by discriminate.
  assert (Hlimit : 0 ≤ 1) by lia.
  assert (Hat : decoder_at UInt8_dictionary_type (λ p, 0 ≤ p < modulus UInt8) 2
                  (mkColumnUnique false [1; 2]) 0%nat 1%nat
                  decoder_state_after_first_block
                  (mkMemory {[ 1%nat := le_split 8 256 ++ le_split 8 2
                                        ++ [Byte.x00; Byte.x01] ]} 1)
                  (mkBlock (mkColumnUnique false []) (mkColumnVector UInt8 []) [])
                  [mkBlock (mkColumnUnique false [1; 2])
                     (mkColumnVector UInt8 [0; 1]) []]).
  { split; [reflexivity|]. split; [reflexivity|]. split.
    { intros _. split; [reflexivity|]. left. exists 0%nat. reflexivity. }
    split; [intros Hrows; by destruct Hrows|]. split; [|reflexivity].
    repeat constructor; cbn; unfold modulus, ColumnUnique_size, UInt64_modulus; cbn;
      try lia; discriminate. }
  assert (Hcolumn : column_ok UInt8_dictionary_type decoder_state_after_first_block
                      column_after_first_block).
  { split; [|split; [reflexivity|right; exists 0%nat; split; reflexivity]].
    unfold valid_column, ColumnUnique_size. cbn. repeat constructor; lia. }
  destruct (deserialize_delivers_rows_in_order UInt8_dictionary_type
              (λ p, 0 ≤ p < modulus UInt8) deserialize_settings 0%nat 1%nat 2
              (mkColumnUnique false [1; 2])
              (mkBlock (mkColumnUnique false []) (mkColumnVector UInt8 []) [])
              [mkBlock (mkColumnUnique false [1; 2]) (mkColumnVector UInt8 [0; 1]) []]
              column_after_first_block 1 decoder_state_after_first_block
              (mkMemory {[ 1%nat := le_split 8 256 ++ le_split 8 2
                                    ++ [Byte.x00; Byte.x01] ]} 1)
              eq_refl eq_refl Hstreams (DataTypeNumber_round_trip UInt8) Hlimit Hat
              Hcolumn)
    as (column' & s' & mem' & current' & blocks' & Hcall & _ & _ & Hvalues & Hleft).
  exists column', s', mem', current', blocks'.
  split; [exact Hcall|]. split; [exact Hvalues|exact Hleft].
Defined.

(** ** C4: the rows one call serializes *)

Section LimitRows.

Context {V : Type} `{EqDecision V}.
Variable dictionary_type : DataTypePtr V.



End LimitRows.


(** ** C10: the dictionary of a decoding session *)

Section InstalledOnce.

Context {V : Type} `{EqDecision V}.
Variable dictionary_type : DataTypePtr V.

(** C10.  The decoder installs a global dictionary once.  (1) Once its state
    holds a global dictionary, a call of
    [deserializeBinaryBulkWithMultipleStreams] that returns, whatever the
    streams hold, leaves that very dictionary (same object, same keys) in the
    state, creates no other dictionary, and takes nothing from the keys
    stream.  (2) From wherever the decoder stands between two calls, on
    streams that hold well-formed blocks, a call returns and the column gains
    the first [limit] of the rows that the pending rows and the blocks stand
    for when they are read against the one dictionary [global]: the
    dictionary of the state if it has one, and then state, object count and
    keys stream are left as in (1); otherwise the dictionary at the front of
    the keys stream, and then a call that reads a header (a limit above 0, at
    least one block, in a session whose headers set the need-global-dictionary
    bit) installs exactly that dictionary as one new object and takes exactly
    its bytes off the keys stream, however many blocks it goes on to read:
    what follows the first dictionary on the keys stream is never read, and
    every block of the call is decoded against the first. *)
Theorem decoder_dictionary_installed_once
    (column : ColumnWithDictionary V) (limit : Z)
    (settings : DeserializeBinaryBulkSettings.t)
    (s : DeserializeStateWithDictionary.t V) (mem : Memory)
    (keys_stream indexes_stream : StreamPtr) :
  DeserializeBinaryBulkSettings.getter settings
    (DeserializeBinaryBulkSettings.path settings ++ [DictionaryKeys]) = Some keys_stream →
  DeserializeBinaryBulkSettings.getter settings
    (DeserializeBinaryBulkSettings.path settings ++ [DictionaryIndexes])
  = Some indexes_stream →
  (∀ (column' : ColumnWithDictionary V) (state' : option (DeserializeBinaryBulkState V))
     (mem' : Memory) (address : nat) (dictionary : ColumnUnique V),
     DeserializeStateWithDictionary.global_dictionary s = Some (address, dictionary) →
     deserializeBinaryBulkWithMultipleStreams dictionary_type column limit settings
       (Some (DeserializeState s)) mem = Some (Ok (column', state', mem')) →
     (∃ s', state' = Some (DeserializeState s')
            ∧ DeserializeStateWithDictionary.global_dictionary s'
              = Some (address, dictionary))
     ∧ next_address mem' = next_address mem
     ∧ (keys_stream ≠ indexes_stream →
        buffer_at (buffers mem') keys_stream = buffer_at (buffers mem) keys_stream))
  ∧ (∀ (valid : V → Prop) (max_dictionary_size : Z) (global : ColumnUnique V)
       (current : Block V) (blocks : list (Block V)),
       keys_stream ≠ indexes_stream →
       codec_round_trip (removeNullable dictionary_type) valid →
       0 ≤ limit →
       decoder_at dictionary_type valid max_dictionary_size global keys_stream
         indexes_stream s mem current blocks →
       column_ok dictionary_type s column →
       ∃ column' s' mem',
         deserializeBinaryBulkWithMultipleStreams dictionary_type column limit settings
           (Some (DeserializeState s)) mem
         = Some (Ok (column', Some (DeserializeState s'), mem'))
         ∧ column_values (removeNullable dictionary_type) column'
           = column_values (removeNullable dictionary_type) column
             ++ take (Z.to_nat limit)
                  (rows_left dictionary_type max_dictionary_size global current blocks)
         ∧ (∀ address,
              DeserializeStateWithDictionary.global_dictionary s = Some (address, global) →
              DeserializeStateWithDictionary.global_dictionary s' = Some (address, global)
              ∧ next_address mem' = next_address mem
              ∧ buffer_at (buffers mem') keys_stream = buffer_at (buffers mem) keys_stream)
         ∧ (DeserializeStateWithDictionary.global_dictionary s = None →
            max_dictionary_size ≠ 0 → 0 < limit → blocks ≠ [] →
            dictionary_installed dictionary_type global keys_stream mem s' mem')).
Proof.
  intros Hkeys Hindexes. split.
  { intros column' state' mem' address dictionary Hglobal Hcall.
    exact (deserialize_keeps_dictionary dictionary_type column column' limit settings s
             state' mem mem' keys_stream indexes_stream address dictionary Hkeys Hindexes
             Hglobal Hcall). }
  intros valid max_dictionary_size global current blocks Hstreams Hround Hlimit Hat
    Hcolumn.
  destruct (deserialize_resumes dictionary_type valid settings keys_stream indexes_stream
              Hkeys Hindexes Hstreams Hround max_dictionary_size global current blocks
              column limit s mem Hlimit Hat Hcolumn)
    as (column' & s' & mem' & current' & blocks' & Hcall & _ & _ & Hvalues & _).
  exists column', s', mem'. split; [exact Hcall|]. split; [exact Hvalues|]. split.
  - intros address Hglobal.
    destruct (deserialize_keeps_dictionary dictionary_type column column' limit settings s
                _ mem mem' keys_stream indexes_stream address global Hkeys Hindexes
                Hglobal Hcall)
      as ((s'' & [= <-] & Hkept) & Haddress & Hframe).
    split; [done|]. split; [done|by apply Hframe].
  - intros Hnone Hmax Hpositive Hblocks.
    pose proof Hat as (Hversion & _ & _ & Hcurrent & _ & _).
    assert (Hpending : getData (block_positions current) = []).
    { destruct (decide (getData (block_positions current) = [])) as [|Hrows]; [done|].
      destruct (Hcurrent Hrows) as (_ & _ & _ & Hheader).
      destruct (Hheader Hmax) as (_ & address & Hglobal). congruence. }
    destruct blocks as [|block blocks]; [done|].
    unfold deserializeBinaryBulkWithMultipleStreams in Hcall.
    cbn [checkAndGetWithDictionaryDeserializeState] in Hcall. rewrite Hversion in Hcall.
    unfold KeysSerializationVersion.checkVersion,
      KeysSerializationVersion.SingleDictionaryWithAdditionalKeysPerBlock in Hcall.
    destruct (decide (1 ≠ 1)) as [|_]; [done|].
    rewrite Hkeys, Hindexes in Hcall.
    destruct (loop_fuel indexes_stream limit mem) as [|fuel] eqn:Hfuel;
      [unfold loop_fuel in Hfuel; lia|].
    cbn [deserialize_loop] in Hcall. destruct (decide (limit = 0)) as [|_]; [lia|].
    destruct (loop_body_header dictionary_type valid Hround keys_stream indexes_stream
                max_dictionary_size global block blocks limit column s mem current
                Hstreams Hat Hpending Hcolumn Hpositive)
      as (column1 & s1 & mem1 & Hbody & _ & _ & _ & Hinstalled).
    rewrite Hbody in Hcall.
    destruct (deserialize_loop _ _ _ _ _ _ _ _) as [[[[column2 s2] mem2]|]|] eqn:Hloop;
      [|discriminate..].
    injection Hcall as -> -> ->.
    intros rest Hrest.
    destruct (Hinstalled Hnone Hmax rest Hrest) as (Hglobal1 & Hkeys1 & Haddress1).
    apply deserialize_loop_keeps_dictionary in Hloop as (Hkept & Haddress & Hframe);
      [|by rewrite Hglobal1].
    split; [congruence|]. split; [|congruence]. by rewrite Hframe.
Qed.

End InstalledOnce.

Lemma decoder_dictionary_installed_once_witness :
  ∃ column' s' mem',
    deserializeBinaryBulkWithMultipleStreams UInt8_dictionary_type
      (mkColumnWithDictionary (mkColumnUnique false []) Unshared (mkColumnVector UInt8 []))
      4 deserialize_settings
      (Some (DeserializeState
               (DeserializeStateWithDictionary.mk (KeysSerializationVersion.mk 1) None
                  (IndexesSerializationType.mk 0 false false) None 0)))
      (mkMemory {[ 0%nat := le_split 8 2 ++ [Byte.x01; Byte.x02]
                            ++ le_split 8 2 ++ [Byte.x03; Byte.x04] ++ le_split 8 0;
                   1%nat := two_dictionaries_indexes ]} 0)
    = Some (Ok (column', Some (DeserializeState s'), mem'))
    ∧ column_values (DataTypeNumber UInt8) column' = [Some 1; Some 2; Some 1; Some 2]
    ∧ DeserializeStateWithDictionary.global_dictionary s'
      = Some (0%nat, mkColumnUnique false [1; 2])
    ∧ buffer_at (buffers mem') 0%nat
      = le_split 8 2 ++ [Byte.x03; Byte.x04] ++ le_split 8 0
    ∧ next_address mem' = 1%nat.
Proof.
  set (s := DeserializeStateWithDictionary.mk (V := Z) (KeysSerializationVersion.mk 1) None
              (IndexesSerializationType.mk 0 false false) None 0).
  set (mem := mkMemory {[ 0%nat := le_split 8 2 ++ [Byte.x01; Byte.x02]
                                   ++ le_split 8 2 ++ [Byte.x03; Byte.x04] ++ le_split 8 0;
                          1%nat := two_dictionaries_indexes ]} 0).
  set (column := mkColumnWithDictionary (mkColumnUnique false []) Unshared
                   (mkColumnVector UInt8 [])).
  set (global := mkColumnUnique false [1; 2]).
  set (block := mkBlock global (mkColumnVector UInt8 [0; 1]) []).
  assert (Hstreams : 0%nat ≠ 1%nat) by discriminate.
  assert (Hlimit : 0 ≤ 4) by lia.
  assert (Hat : decoder_at UInt8_dictionary_type (λ p, 0 ≤ p < modulus UInt8) 2 global
                  0%nat 1%nat s mem
                  (mkBlock (mkColumnUnique false []) (mkColumnVector UInt8 []) [])
                  [block; block]).
  { split; [reflexivity|]. split; [reflexivity|]. split.
    { intros _. split; [reflexivity|]. right. split; [reflexivity|].
      split; [unfold modulus; cbn; repeat constructor; lia|].
      split; [vm_compute; reflexivity|].
      exists (le_split 8 2 ++ [Byte.x03; Byte.x04] ++ le_split 8 0). reflexivity. }
    split; [intros Hrows; by destruct Hrows|]. split; [|reflexivity].
    repeat constructor; cbn; unfold modulus, ColumnUnique_size, UInt64_modulus; cbn;
      try lia; discriminate. }
  assert (Hcolumn : column_ok UInt8_dictionary_type s column).
  { split; [constructor|]. split; [reflexivity|by left]. }
  destruct (proj2 (decoder_dictionary_installed_once UInt8_dictionary_type column 4
                     deserialize_settings s mem 0%nat 1%nat eq_refl eq_refl)
              (λ p, 0 ≤ p < modulus UInt8) 2 global
              (mkBlock (mkColumnUnique false []) (mkColumnVector UInt8 []) [])
              [block; block] Hstreams (DataTypeNumber_round_trip UInt8) Hlimit Hat Hcolumn)
    as (column' & s' & mem' & Hcall & Hvalues & _ & Hinstalled).
  destruct (Hinstalled eq_refl ltac:(discriminate) ltac:(lia) ltac:(discriminate)
              (le_split 8 2 ++ [Byte.x03; Byte.x04] ++ le_split 8 0) eq_refl)
    as (Hglobal & Hkeys & Haddress).
  exists column', s', mem'. split; [exact Hcall|]. split; [exact Hvalues|].
  split; [exact Hglobal|]. split; [exact Hkeys|exact Haddress].
Defined.
